(** * A shallow embedding of the WebXR product configurator

    The development follows the JavaScript sources:
    - [DeviceDetection]       (utils/DeviceDetection.js), pure capability probes;
    - [ConfiguratorEngine]    (core/ConfiguratorEngine.js), the selection state,
                              the texture cache and the event bus;
    - [XRUpgradeConfigurator] (the orchestrator), URL-parameter application;
    - [HealthCheck]           (utils/HealthCheck.js), the health report.

    Asynchronous methods are embedded in a small resumption monad: a
    computation runs until it returns, throws, or suspends at an [await];
    the JavaScript job queue is a FIFO list of suspended continuations.
    Properties of a single call are stated on its solo run ([settle]);
    properties of calls that are started without being awaited are stated on
    the job queue ([run_jobs]) and proved by rely/guarantee reasoning. *)

From Stdlib Require Import ZArith QArith.
From stdpp Require Import base option list gmap strings.

Local Open Scope string_scope.
Local Open Scope list_scope.

(** ** JavaScript values used by the sources *)

(** A string-valued JavaScript expression that may be [undefined]. *)
Abbreviation jsstr := (option string).

Definition undefined : jsstr := None.

(** Truthiness of a string or [undefined]: the empty string is falsy. *)
Definition truthy (v : jsstr) : bool :=
  match v with
  | Some s => negb (String.eqb s "")
  | None => false
  end.

(** [a || b] *)
Definition js_or (a b : jsstr) : jsstr := if truthy a then a else b.

(** [a === b] on strings or [undefined]. *)
Definition strict_eq (a b : jsstr) : bool := bool_decide (a = b).

(** [String(v)], as used in template literals and by [URLSearchParams]. *)
Definition to_String (v : jsstr) : string :=
  match v with
  | Some s => s
  | None => "undefined"
  end.

Inductive JsError : Type :=
| TypeError (message : string)
| Error (message : string).

(** ** Configuration document (types/index.d.ts) *)

Record Textures := {
  tx_primary : jsstr;
  tx_accent : jsstr;
  tx_roughness : jsstr
}.

Record ColorOption := {
  color_id : string;
  color_name : string;
  textures : option Textures
}.

Record StrapOption := {
  strap_id : string;
  strap_name : string;
  texture : jsstr
}.

Record EnvironmentOption := {
  env_id : string;
  env_name : string;
  background : string
}.

Record DefaultValues := {
  default_color : jsstr;
  default_strap : jsstr;
  default_environment : jsstr
}.

Record MaterialNames := {
  name_primary : string;
  name_secondary : string;
  name_accent : string
}.

Record Configuration := {
  product_materials : MaterialNames;
  colors : list ColorOption;
  straps : list StrapOption;
  environments : list EnvironmentOption;
  defaultColor : jsstr;
  defaultStrap : jsstr;
  defaultEnvironment : jsstr;
  defaults : option DefaultValues
}.

(** [config.defaults?.color] and its siblings. *)
Definition defaults_color (c : Configuration) : jsstr :=
  match defaults c with Some d => default_color d | None => undefined end.
Definition defaults_strap (c : Configuration) : jsstr :=
  match defaults c with Some d => default_strap d | None => undefined end.
Definition defaults_environment (c : Configuration) : jsstr :=
  match defaults c with Some d => default_environment d | None => undefined end.

(** [config.colors.find(c => c.id === colorId)] and its siblings. *)
Definition find_color (id : jsstr) (c : Configuration) : option ColorOption :=
  List.find (fun x => strict_eq (Some (color_id x)) id) (colors c).
Definition find_strap (id : jsstr) (c : Configuration) : option StrapOption :=
  List.find (fun x => strict_eq (Some (strap_id x)) id) (straps c).
Definition find_environment (id : jsstr) (c : Configuration) : option EnvironmentOption :=
  List.find (fun x => strict_eq (Some (env_id x)) id) (environments c).

(** ** The external model viewer *)

(** A loaded-texture handle; opaque to the engine. *)
Record Texture := {
  tex_url : jsstr;
  tex_serial : nat
}.

Inductive Channel := BaseColor | MetallicRoughness.

(** A material of the loaded model.  [pbrMetallicRoughness.baseColorTexture]
    and [.metallicRoughnessTexture] are texture-info objects the viewer may
    leave [null]; calling [setTexture] on a [null] one is a [TypeError]. *)
Record Material := {
  mat_name : string;
  baseColorTexture : bool;
  metallicRoughnessTexture : bool
}.

Inductive LoadOutcome :=
| AlreadyLoaded
| LoadFires
| LoadFails (detail : jsstr)
| LoadTimesOut.

(** What the [<model-viewer>] element does when asked: [mv_model] is the
    loaded model's material list ([None]: no model), [mv_createTexture n url]
    is the outcome of the [n]-th texture request when it asks for [url]. *)
Record ModelViewer := {
  mv_load : LoadOutcome;
  mv_model : option (list Material);
  mv_createTexture : nat -> jsstr -> option Texture
}.

Definition getMaterialByName (model : list Material) (name : string) : option Material :=
  List.find (fun m => String.eqb (mat_name m) name) model.

(** The element the engine is mounted in. *)
Record Container := {
  has_dimensions : bool;              (* offsetWidth and offsetHeight are set *)
  gets_dimensions : bool              (* ... within the 5 seconds waited for *)
}.

Record Host := {
  library_defined : bool;             (* customElements.get('model-viewer') *)
  library_arrives : bool;             (* ... within the 10 seconds waited for *)
  viewer_element : ModelViewer        (* document.createElement('model-viewer') *)
}.

(** ** ConfiguratorEngine: state *)

Record SelectionState := {
  color : jsstr;
  strap : jsstr;
  environment : jsstr
}.

(** [this.materials], once set by [setupMaterialReferences]. *)
Record Materials := {
  m_primary : option Material;
  m_secondary : option Material;
  m_accent : option Material
}.

(** Event payloads.  Timestamps ([Date.now()]) are left out. *)
Inductive Payload :=
| PId (id : jsstr)
| PState (s : SelectionState)
| PError (type message : string) (details : option JsError)
| PEngine
| PModelLoaded.

(** A subscribed listener: an identity and what calling it does (return
    normally, or throw).  Listeners do not call back into the engine, except
    for the calls to [subscribe] and [unsubscribe] of a [Reaction]. *)
Record Callback := {
  cb_id : nat;
  cb_run : Payload -> option JsError
}.

(** An element created by [setupEnvironments], with its [active] class. *)
Record EnvElement := {
  el_id : string;
  el_active : bool
}.

(** Work handed to [setTimeout]/[setInterval]; it runs in a later macrotask. *)
Inductive Timer :=
| PreloadTimer (delay : nat) (preloadOrder : list jsstr)
| InitialConfigurationTimer (delay : nat)
| IdleInterval (period : nat)
| ActivateARTimer (delay : nat)
| ARFallbackTimer (delay : nat).

Record Engine := {
  config : Configuration;
  modelViewer : option ModelViewer;
  materials : option Materials;
  currentState : SelectionState;
  eventListeners : gmap string (list Callback);
  isReady : bool;
  textureCache : gmap jsstr Texture;
  isIdleRotating : bool;
  (* the page around the engine *)
  stage : list EnvElement;
  timers : list Timer;
  (* observation traces, oldest entry first *)
  emitted : list (string * Payload);        (* notifyListeners(event, data) *)
  invoked : list (nat * Payload);           (* callback(data) *)
  requested : list jsstr;                   (* modelViewer.createTexture(url) *)
  applied : list (string * Channel * option Texture);  (* setTexture(t) *)
  console_error : list string               (* Logger.error(...) *)
}.

Definition with_modelViewer (v : option ModelViewer) (e : Engine) : Engine :=
  {| config := config e; modelViewer := v; materials := materials e;
     currentState := currentState e; eventListeners := eventListeners e;
     isReady := isReady e; textureCache := textureCache e;
     isIdleRotating := isIdleRotating e; stage := stage e; timers := timers e;
     emitted := emitted e; invoked := invoked e; requested := requested e;
     applied := applied e; console_error := console_error e |}.

Definition with_materials (v : option Materials) (e : Engine) : Engine :=
  {| config := config e; modelViewer := modelViewer e; materials := v;
     currentState := currentState e; eventListeners := eventListeners e;
     isReady := isReady e; textureCache := textureCache e;
     isIdleRotating := isIdleRotating e; stage := stage e; timers := timers e;
     emitted := emitted e; invoked := invoked e; requested := requested e;
     applied := applied e; console_error := console_error e |}.

Definition with_currentState (v : SelectionState) (e : Engine) : Engine :=
  {| config := config e; modelViewer := modelViewer e; materials := materials e;
     currentState := v; eventListeners := eventListeners e;
     isReady := isReady e; textureCache := textureCache e;
     isIdleRotating := isIdleRotating e; stage := stage e; timers := timers e;
     emitted := emitted e; invoked := invoked e; requested := requested e;
     applied := applied e; console_error := console_error e |}.

Definition with_eventListeners (v : gmap string (list Callback)) (e : Engine) : Engine :=
  {| config := config e; modelViewer := modelViewer e; materials := materials e;
     currentState := currentState e; eventListeners := v;
     isReady := isReady e; textureCache := textureCache e;
     isIdleRotating := isIdleRotating e; stage := stage e; timers := timers e;
     emitted := emitted e; invoked := invoked e; requested := requested e;
     applied := applied e; console_error := console_error e |}.

Definition with_isReady (v : bool) (e : Engine) : Engine :=
  {| config := config e; modelViewer := modelViewer e; materials := materials e;
     currentState := currentState e; eventListeners := eventListeners e;
     isReady := v; textureCache := textureCache e;
     isIdleRotating := isIdleRotating e; stage := stage e; timers := timers e;
     emitted := emitted e; invoked := invoked e; requested := requested e;
     applied := applied e; console_error := console_error e |}.

Definition with_textureCache (v : gmap jsstr Texture) (e : Engine) : Engine :=
  {| config := config e; modelViewer := modelViewer e; materials := materials e;
     currentState := currentState e; eventListeners := eventListeners e;
     isReady := isReady e; textureCache := v;
     isIdleRotating := isIdleRotating e; stage := stage e; timers := timers e;
     emitted := emitted e; invoked := invoked e; requested := requested e;
     applied := applied e; console_error := console_error e |}.

Definition with_isIdleRotating (v : bool) (e : Engine) : Engine :=
  {| config := config e; modelViewer := modelViewer e; materials := materials e;
     currentState := currentState e; eventListeners := eventListeners e;
     isReady := isReady e; textureCache := textureCache e;
     isIdleRotating := v; stage := stage e; timers := timers e;
     emitted := emitted e; invoked := invoked e; requested := requested e;
     applied := applied e; console_error := console_error e |}.

Definition with_stage (v : list EnvElement) (e : Engine) : Engine :=
  {| config := config e; modelViewer := modelViewer e; materials := materials e;
     currentState := currentState e; eventListeners := eventListeners e;
     isReady := isReady e; textureCache := textureCache e;
     isIdleRotating := isIdleRotating e; stage := v; timers := timers e;
     emitted := emitted e; invoked := invoked e; requested := requested e;
     applied := applied e; console_error := console_error e |}.

Definition with_timers (v : list Timer) (e : Engine) : Engine :=
  {| config := config e; modelViewer := modelViewer e; materials := materials e;
     currentState := currentState e; eventListeners := eventListeners e;
     isReady := isReady e; textureCache := textureCache e;
     isIdleRotating := isIdleRotating e; stage := stage e; timers := v;
     emitted := emitted e; invoked := invoked e; requested := requested e;
     applied := applied e; console_error := console_error e |}.

Definition with_emitted (v : list (string * Payload)) (e : Engine) : Engine :=
  {| config := config e; modelViewer := modelViewer e; materials := materials e;
     currentState := currentState e; eventListeners := eventListeners e;
     isReady := isReady e; textureCache := textureCache e;
     isIdleRotating := isIdleRotating e; stage := stage e; timers := timers e;
     emitted := v; invoked := invoked e; requested := requested e;
     applied := applied e; console_error := console_error e |}.

Definition with_invoked (v : list (nat * Payload)) (e : Engine) : Engine :=
  {| config := config e; modelViewer := modelViewer e; materials := materials e;
     currentState := currentState e; eventListeners := eventListeners e;
     isReady := isReady e; textureCache := textureCache e;
     isIdleRotating := isIdleRotating e; stage := stage e; timers := timers e;
     emitted := emitted e; invoked := v; requested := requested e;
     applied := applied e; console_error := console_error e |}.

Definition with_requested (v : list jsstr) (e : Engine) : Engine :=
  {| config := config e; modelViewer := modelViewer e; materials := materials e;
     currentState := currentState e; eventListeners := eventListeners e;
     isReady := isReady e; textureCache := textureCache e;
     isIdleRotating := isIdleRotating e; stage := stage e; timers := timers e;
     emitted := emitted e; invoked := invoked e; requested := v;
     applied := applied e; console_error := console_error e |}.

Definition with_applied (v : list (string * Channel * option Texture)) (e : Engine) : Engine :=
  {| config := config e; modelViewer := modelViewer e; materials := materials e;
     currentState := currentState e; eventListeners := eventListeners e;
     isReady := isReady e; textureCache := textureCache e;
     isIdleRotating := isIdleRotating e; stage := stage e; timers := timers e;
     emitted := emitted e; invoked := invoked e; requested := requested e;
     applied := v; console_error := console_error e |}.

Definition with_console_error (v : list string) (e : Engine) : Engine :=
  {| config := config e; modelViewer := modelViewer e; materials := materials e;
     currentState := currentState e; eventListeners := eventListeners e;
     isReady := isReady e; textureCache := textureCache e;
     isIdleRotating := isIdleRotating e; stage := stage e; timers := timers e;
     emitted := emitted e; invoked := invoked e; requested := requested e;
     applied := applied e; console_error := v |}.

(** ** The resumption monad of engine methods *)

(** Running a method on an engine either returns a value, throws, or
    suspends at an [await] with the rest of the method as a continuation;
    the continuation is resumed on the engine as it is at that later time. *)
Inductive Outcome (A : Type) : Type :=
| Return (e : Engine) (a : A)
| Raise (e : Engine) (x : JsError)
| Suspend (e : Engine) (k : Engine -> Outcome A).

Arguments Return {A} e a.
Arguments Raise {A} e x.
Arguments Suspend {A} e k.

Definition M (A : Type) : Type := Engine -> Outcome A.

Definition ret {A} (a : A) : M A := fun e => Return e a.

Definition throw {A} (x : JsError) : M A := fun e => Raise e x.

Fixpoint bindO {A B} (o : Outcome A) (f : A -> M B) : Outcome B :=
  match o with
  | Return e a => f a e
  | Raise e x => Raise e x
  | Suspend e k => Suspend e (fun e' => bindO (k e') f)
  end.

Definition bind {A B} (m : M A) (f : A -> M B) : M B := fun e => bindO (m e) f.

(** [try { m } catch (error) { h error }] *)
Fixpoint catchO {A} (o : Outcome A) (h : JsError -> M A) : Outcome A :=
  match o with
  | Return e a => Return e a
  | Raise e x => h x e
  | Suspend e k => Suspend e (fun e' => catchO (k e') h)
  end.

Definition try_catch {A} (m : M A) (h : JsError -> M A) : M A :=
  fun e => catchO (m e) h.

Declare Scope js_scope.
Delimit Scope js_scope with js.
Notation "x <- m ;; k" := (bind m (fun x => k))
  (at level 100, m at next level, right associativity) : js_scope.
Notation "m ;; k" := (bind m (fun _ => k))
  (at level 100, right associativity) : js_scope.
Local Open Scope js_scope.

Definition get : M Engine := fun e => Return e e.

Definition modify (f : Engine -> Engine) : M unit := fun e => Return (f e) tt.

(** Give control back to the job queue once. *)
Definition yield : M unit := fun e => Suspend e (fun e' => Return e' tt).

(** [await m]: the awaited promise is the one of the asynchronous call [m];
    when it settles, the awaiting method resumes in a later job.  A rejection
    is deferred as well: the exception of a rejected promise is thrown into
    the awaiting method when it is resumed. *)
Fixpoint awaitO {A} (o : Outcome A) : Outcome A :=
  match o with
  | Return e a => Suspend e (fun e' => Return e' a)
  | Raise e x => Suspend e (fun e' => Raise e' x)
  | Suspend e k => Suspend e (fun e' => awaitO (k e'))
  end.

Definition await {A} (m : M A) : M A := fun e => awaitO (m e).

(** [list.forEach(f)]: an exception thrown by [f] ends the iteration. *)
Fixpoint forEach {A} (f : A -> M unit) (l : list A) : M unit :=
  match l with
  | [] => ret tt
  | x :: l' => (f x ;; forEach f l')
  end.

(** [Promise.all([m1(), m2()])]: both calls are started, the first up to
    its first suspension, then the second; afterwards each pending call
    advances by one stretch per round, in the order of the array.  The joint
    promise fulfils when both have; it rejects as soon as one call rejects,
    and what the other call still does after that happens outside the
    awaiting method and is not followed here. *)
Fixpoint joinO {A B} (o1 : Outcome A) (m2 : M B) : Outcome (A * B) :=
  match o1 with
  | Return e a => bindO (m2 e) (fun b => ret (a, b))
  | Raise e x =>
      match m2 e with
      | Return e' _ | Raise e' _ | Suspend e' _ => Raise e' x
      end
  | Suspend e k1 =>
      match m2 e with
      | Return e' b => Suspend e' (fun e'' => bindO (k1 e'') (fun a => ret (a, b)))
      | Raise e' x => Raise e' x
      | Suspend e' k2 => Suspend e' (fun e'' => joinO (k1 e'') k2)
      end
  end.

(** [Promise.all] of an array of three calls. *)
Definition Promise_all3 {A} (m1 m2 m3 : M A) : M (list A) :=
  fun e => bindO (joinO (joinO (m1 e) m2) m3) (fun r => ret [r.1.1; r.1.2; r.2]).

(** Run a method alone until it settles: no other job runs in between. *)
Fixpoint settle {A} (o : Outcome A) : Engine * (A + JsError) :=
  match o with
  | Return e a => (e, inl a)
  | Raise e x => (e, inr x)
  | Suspend e k => settle (k e)
  end.

(** ** The job queue

    A synchronous caller that does not [await] an asynchronous method gets
    control back at the method's first suspension; the rest of the method is
    a job that runs after the caller has finished.  Jobs run in FIFO order. *)

Definition Job : Type := Engine -> Outcome unit.

Record Runtime := {
  rt_engine : Engine;
  rt_jobs : list Job;
  rt_body_classes : list string      (* document.body.classList *)
}.

Definition with_engine (e : Engine) (rt : Runtime) : Runtime :=
  {| rt_engine := e; rt_jobs := rt_jobs rt; rt_body_classes := rt_body_classes rt |}.

Definition with_jobs (e : Engine) (jobs : list Job) (rt : Runtime) : Runtime :=
  {| rt_engine := e; rt_jobs := jobs; rt_body_classes := rt_body_classes rt |}.

(** Synchronous code that may start asynchronous methods. *)
Definition R (A : Type) : Type := Runtime -> Runtime * (A + JsError).

Definition retR {A} (a : A) : R A := fun rt => (rt, inl a).

Definition bindR {A B} (m : R A) (f : A -> R B) : R B :=
  fun rt =>
    match m rt with
    | (rt', inl a) => f a rt'
    | (rt', inr x) => (rt', inr x)
    end.

Declare Scope rt_scope.
Delimit Scope rt_scope with rt.
Notation "x <- m ;; k" := (bindR m (fun x => k))
  (at level 100, m at next level, right associativity) : rt_scope.
Notation "m ;; k" := (bindR m (fun _ => k))
  (at level 100, right associativity) : rt_scope.

(** Call a synchronous method: it runs to its end; an exception propagates.
    (A synchronous method never suspends.) *)
Definition call_sync {A} (m : M A) : R A :=
  fun rt =>
    match settle (m (rt_engine rt)) with
    | (e, r) => (with_engine e rt, r)
    end.

(** Call an asynchronous method without awaiting its promise. *)
Definition call_async (m : M unit) : R unit :=
  fun rt =>
    match m (rt_engine rt) with
    | Return e _ => (with_engine e rt, inl tt)
    | Raise e _ => (with_engine e rt, inl tt)
    | Suspend e k => (with_jobs e (rt_jobs rt ++ [k]) rt, inl tt)
    end.

(** Run at most [fuel] jobs from the queue. *)
Fixpoint run_jobs (fuel : nat) (rt : Runtime) : Runtime :=
  match fuel with
  | O => rt
  | S fuel' =>
      match rt_jobs rt with
      | [] => rt
      | job :: rest =>
          match job (rt_engine rt) with
          | Return e _ => run_jobs fuel' (with_jobs e rest rt)
          | Raise e _ => run_jobs fuel' (with_jobs e rest rt)
          | Suspend e k => run_jobs fuel' (with_jobs e (rest ++ [k]) rt)
          end
      end
  end.

(** Every started method has run to its end. *)
Definition settled (rt : Runtime) : Prop := rt_jobs rt = [].

(** A page on which no method is pending. *)
Definition idle (e : Engine) : Runtime :=
  {| rt_engine := e; rt_jobs := []; rt_body_classes := [] |}.

(** [new URLSearchParams(...)]: the ordered key/value entries.  Writing the
    entries into a URL and reading them back is the browser's work. *)
Abbreviation URLSearchParams := (list (string * string)).

Definition params_has (params : URLSearchParams) (key : string) : bool :=
  bool_decide (is_Some (list_find (fun kv => kv.1 = key) params)).

Definition params_get (params : URLSearchParams) (key : string) : jsstr :=
  (fun r => r.2.2) <$> list_find (fun kv => kv.1 = key) params.

Record URL := {
  url_prefix : string;         (* origin and path *)
  url_search : URLSearchParams
}.

(** The calls a callback may make while it is being dispatched. *)
Inductive Act :=
| CallSubscribe (event : string) (callback : Callback)
| CallUnsubscribe (event : string) (callback : Callback).

Definition act_event (a : Act) : string :=
  match a with
  | CallSubscribe event _ => event
  | CallUnsubscribe event _ => event
  end.

(** What the callback of a given identity does when called with a payload. *)
Definition Reaction : Type := nat -> Payload -> list Act.

(** ** ConfiguratorEngine: methods *)

Module ConfiguratorEngine.

(** [Logger.error] always writes to the console; [Logger.info], [warn] and
    [debug] write only in development builds and are not recorded.  The
    pictograms of the messages are left out. *)
Definition Logger_error (message : string) : M unit :=
  modify (fun e => with_console_error (console_error e ++ [message]) e).

Definition constructor (cfg : Configuration) : Engine :=
  {| config := cfg;
     modelViewer := None;
     materials := None;
     currentState :=
       {| color := js_or (js_or (defaultColor cfg) (defaults_color cfg))
                         (color_id <$> head (colors cfg));
          strap := js_or (js_or (defaultStrap cfg) (defaults_strap cfg))
                         (strap_id <$> head (straps cfg));
          environment :=
            js_or (js_or (defaultEnvironment cfg) (defaults_environment cfg))
                  (env_id <$> head (environments cfg)) |};
     eventListeners := ∅;
     isReady := false;
     textureCache := ∅;
     isIdleRotating := false;
     stage := [];
     timers := [];
     emitted := [];
     invoked := [];
     requested := [];
     applied := [];
     console_error := [] |}.

(** *** Event system *)

Definition subscribe (event : string) (callback : Callback) : M unit :=
  e <- get ;;
  (if bool_decide (is_Some (eventListeners e !! event)) then ret tt
   else modify (fun e => with_eventListeners (<[event := []]> (eventListeners e)) e)) ;;
  modify (fun e =>
    with_eventListeners
      (alter (fun callbacks => callbacks ++ [callback]) event (eventListeners e)) e).

(** [callback(data)] *)
Definition call (callback : Callback) (data : Payload) : M unit :=
  modify (fun e => with_invoked (invoked e ++ [(cb_id callback, data)]) e) ;;
  match cb_run callback data with
  | Some error => throw error
  | None => ret tt
  end.

Definition notifyListeners (event : string) (data : Payload) : M unit :=
  modify (fun e => with_emitted (emitted e ++ [(event, data)]) e) ;;
  e <- get ;;
  match eventListeners e !! event with
  | Some callbacks =>
      forEach (fun callback =>
                 try_catch (call callback data)
                   (fun error => Logger_error ("Error in event listener for " +:+ event)))
              callbacks
  | None => ret tt
  end.

(** [callbacks.indexOf(callback)]: listeners are compared by identity. *)
Definition indexOf (callback : Callback) (callbacks : list Callback) : option nat :=
  fst <$> list_find (fun cb => cb_id cb = cb_id callback) callbacks.

Definition unsubscribe (event : string) (callback : Callback) : M unit :=
  e <- get ;;
  match eventListeners e !! event with
  | Some callbacks =>
      match indexOf callback callbacks with
      | Some index =>
          modify (fun e =>
            with_eventListeners (<[event := delete index callbacks]> (eventListeners e)) e)
      | None => ret tt
      end
  | None => ret tt
  end.

(** *** Callbacks that change the subscriptions

    A callback may call [subscribe] and [unsubscribe] while it is being
    dispatched; these calls, in order, are its reaction.  Both work on the
    array of the event in place ([push], [splice]), and [forEach] walks that
    live array: it reads the length once, and looks each index up when it
    reaches it.  An index that is no longer present is skipped, and a
    callback pushed during the walk is not reached. *)
Definition perform (a : Act) : M unit :=
  match a with
  | CallSubscribe event callback => subscribe event callback
  | CallUnsubscribe event callback => unsubscribe event callback
  end.

(** [callback(data)], for a callback that reacts. *)
Definition call_reacting (reaction : Reaction) (callback : Callback) (data : Payload)
    : M unit :=
  modify (fun e => with_invoked (invoked e ++ [(cb_id callback, data)]) e) ;;
  forEach perform (reaction (cb_id callback) data) ;;
  match cb_run callback data with
  | Some error => throw error
  | None => ret tt
  end.

(** The indices [k], ..., [k + n - 1] of the walk over the live array. *)
Fixpoint forEach_live (reaction : Reaction) (event : string) (data : Payload)
    (k n : nat) : M unit :=
  match n with
  | O => ret tt
  | S n' =>
      (e <- get ;;
       match eventListeners e !! event with
       | Some callbacks =>
           match callbacks !! k with
           | Some callback =>
               try_catch (call_reacting reaction callback data)
                 (fun error => Logger_error ("Error in event listener for " +:+ event))
           | None => ret tt
           end
       | None => ret tt
       end) ;;
      forEach_live reaction event data (S k) n'
  end.

(** [notifyListeners] with callbacks that react. *)
Definition notifyListeners_live (reaction : Reaction) (event : string) (data : Payload)
    : M unit :=
  modify (fun e => with_emitted (emitted e ++ [(event, data)]) e) ;;
  e <- get ;;
  match eventListeners e !! event with
  | Some callbacks => forEach_live reaction event data 0 (length callbacks)
  | None => ret tt
  end.

(** *** Public API: state *)

Definition getState (e : Engine) : SelectionState :=
  {| color := color (currentState e);
     strap := strap (currentState e);
     environment := environment (currentState e) |}.

Definition set_color (v : jsstr) : M unit :=
  modify (fun e =>
    with_currentState {| color := v; strap := strap (currentState e);
                         environment := environment (currentState e) |} e).

Definition set_strap (v : jsstr) : M unit :=
  modify (fun e =>
    with_currentState {| color := color (currentState e); strap := v;
                         environment := environment (currentState e) |} e).

Definition set_environment (v : jsstr) : M unit :=
  modify (fun e =>
    with_currentState {| color := color (currentState e);
                         strap := strap (currentState e); environment := v |} e).

(** *** Texture caching *)

(** [this.modelViewer.createTexture(url)]: the request is issued at once;
    its promise is awaited by the caller. *)
Definition createTexture (url : jsstr) : M Texture :=
  fun e =>
    match modelViewer e with
    | None => Raise e (TypeError "Cannot read properties of null (reading 'createTexture')")
    | Some viewer =>
        let e' := with_requested (requested e ++ [url]) e in
        match mv_createTexture viewer (length (requested e)) url with
        | Some t => Return e' t
        | None => Raise e' (Error "texture failed to load")
        end
    end.

Definition preloadTexture (url : jsstr) : M (option Texture) :=
  e <- get ;;
  match textureCache e !! url with
  | Some cached => ret (Some cached)
  | None =>
      try_catch
        (t <- await (createTexture url) ;;
         modify (fun e => with_textureCache (<[url := t]> (textureCache e)) e) ;;
         ret (Some t))
        (fun error =>
           Logger_error ("Failed to preload texture " +:+ to_String url) ;;
           ret None)
  end.

Definition getTexture (url : jsstr) : M (option Texture) :=
  e <- get ;;
  match textureCache e !! url with
  | Some cached => ret (Some cached)
  | None => await (preloadTexture url)
  end.

(** *** Materials *)

(** [material.pbrMetallicRoughness.<channel>.setTexture(t)] *)
Definition setTexture (m : Material) (ch : Channel) (t : option Texture) : M unit :=
  if match ch with
     | BaseColor => baseColorTexture m
     | MetallicRoughness => metallicRoughnessTexture m
     end
  then modify (fun e => with_applied (applied e ++ [(mat_name m, ch, t)]) e)
  else throw (TypeError "Cannot read properties of null (reading 'setTexture')").

Definition setupMaterialReferences : M unit :=
  try_catch
    (e <- get ;;
     match modelViewer e with
     | None => throw (TypeError "Cannot read properties of null (reading 'model')")
     | Some viewer =>
         match mv_model viewer with
         | None => ret tt
         | Some model =>
             let materialNames := product_materials (config e) in
             let primaryMaterial := getMaterialByName model (name_primary materialNames) in
             let secondaryMaterial := getMaterialByName model (name_secondary materialNames) in
             let accentMaterial := getMaterialByName model (name_accent materialNames) in
             match primaryMaterial, secondaryMaterial, accentMaterial with
             | Some _, Some _, Some _ =>
                 modify (with_materials
                           (Some {| m_primary := primaryMaterial;
                                    m_secondary := secondaryMaterial;
                                    m_accent := accentMaterial |}))
             | _, _, _ => Logger_error "Failed to find required materials"
             end
         end
     end)
    (fun error => Logger_error "Error setting up materials").

Definition applyColorTextures (c : ColorOption) : M unit :=
  e <- get ;;
  match materials e with
  | None => throw (TypeError "Cannot read properties of null (reading 'primary')")
  | Some ms =>
      match m_primary ms, m_secondary ms, m_accent ms with
      | Some primaryMaterial, Some secondaryMaterial, Some accentMaterial =>
          match textures c with
          | None => throw (TypeError "Cannot read properties of undefined (reading 'primary')")
          | Some tx =>
              primaryTexture <- await (getTexture (tx_primary tx)) ;;
              accentTexture <- await (getTexture (tx_accent tx)) ;;
              roughnessTexture <- await (getTexture (tx_roughness tx)) ;;
              setTexture primaryMaterial BaseColor primaryTexture ;;
              setTexture secondaryMaterial BaseColor accentTexture ;;
              setTexture accentMaterial BaseColor accentTexture ;;
              setTexture primaryMaterial MetallicRoughness roughnessTexture
          end
      | _, _, _ => throw (Error "Materials not ready")
      end
  end.

Definition applyStrapConfiguration (strapId : jsstr) : M unit :=
  e <- get ;;
  match materials e with
  | None => throw (TypeError "Cannot read properties of null (reading 'accent')")
  | Some ms =>
      match m_accent ms with
      | None =>
          Logger_error "Accent material not ready" ;;
          throw (Error "Accent material not ready")
      | Some accentMaterial =>
          strapTexture <-
            (if strict_eq strapId (Some "selected") then
               match find_color (color (currentState e)) (config e) with
               | Some currentColor =>
                   match textures currentColor with
                   | Some tx => ret (tx_accent tx)
                   | None => ret undefined
                   end
               | None => ret undefined
               end
             else
               match find_strap strapId (config e) with
               | Some s => if truthy (texture s) then ret (texture s) else ret undefined
               | None =>
                   Logger_error ("Strap " +:+ to_String strapId +:+ " not found in configuration") ;;
                   ret undefined
               end) ;;
          if truthy strapTexture then
            t <- await (getTexture strapTexture) ;;
            setTexture accentMaterial BaseColor t
          else ret tt
      end
  end.

(** *** Change operations *)

Definition changeColor (colorId : jsstr) : M unit :=
  e <- get ;;
  match find_color colorId (config e) with
  | None => Logger_error ("Unknown color: " +:+ to_String colorId)
  | Some c =>
      let previousColor := color (currentState e) in
      set_color colorId ;;
      notifyListeners "colorChanged" (PId colorId) ;;
      try_catch
        (await (applyColorTextures c) ;;
         set_strap (Some "selected") ;;
         await (applyStrapConfiguration (Some "selected")) ;;
         notifyListeners "strapChanged" (PId (Some "selected")))
        (fun error =>
           Logger_error ("Failed to change color to " +:+ to_String colorId) ;;
           set_color previousColor ;;
           notifyListeners "colorChanged" (PId previousColor) ;;
           notifyListeners "error"
             (PError "user" ("Failed to change color to " +:+ color_name c) (Some error)))
  end.

Definition changeStrap (strapId : jsstr) : M unit :=
  e <- get ;;
  match find_strap strapId (config e) with
  | None => Logger_error ("Unknown strap: " +:+ to_String strapId)
  | Some _ =>
      set_strap strapId ;;
      try_catch
        (await (applyStrapConfiguration strapId) ;;
         notifyListeners "strapChanged" (PId strapId))
        (fun error => Logger_error ("Failed to change strap to " +:+ to_String strapId))
  end.

Definition changeEnvironment (environmentId : jsstr) : M unit :=
  e <- get ;;
  match find_environment environmentId (config e) with
  | None => Logger_error ("Unknown environment: " +:+ to_String environmentId)
  | Some _ =>
      set_environment environmentId ;;
      modify (fun e =>
        with_stage (map (fun el => {| el_id := el_id el; el_active := false |}) (stage e)) e) ;;
      modify (fun e =>
        let target := to_String environmentId +:+ "Env" in
        match list_find (fun el => el_id el = target) (stage e) with
        | Some (i, el) =>
            with_stage (<[i := {| el_id := el_id el; el_active := true |}]> (stage e)) e
        | None => e
        end) ;;
      notifyListeners "environmentChanged" (PId environmentId)
  end.

Definition applyInitialConfiguration : M unit :=
  e <- get ;;
  match materials e with
  | Some {| m_primary := Some _; m_secondary := Some _; m_accent := Some _ |} =>
      try_catch
        (e <- get ;;
         match find_color (color (currentState e)) (config e) with
         | Some initialColor => await (applyColorTextures initialColor)
         | None => ret tt
         end ;;
         e <- get ;;
         await (applyStrapConfiguration (strap (currentState e))))
        (fun error => Logger_error "Failed to apply initial configuration")
  | _ => ret tt
  end.

(** *** Initialization *)

Definition ensureModelViewerLoaded (h : Host) : M unit :=
  if library_defined h then ret tt
  else if library_arrives h then yield
  else
    yield ;;
    notifyListeners "error"
      (PError "network" "Failed to load model-viewer library" None) ;;
    throw (Error "model-viewer library failed to load within 10 seconds").

Definition ensureContainerReady (container : option Container) : M unit :=
  match container with
  | None => throw (Error "Container is null or undefined")
  | Some c =>
      if has_dimensions c then ret tt
      else if gets_dimensions c then yield
      else yield ;; throw (Error "Container failed to get dimensions")
  end.

(** The engine's own [load] listener on the viewer element. *)
Definition onModelLoad : M unit :=
  notifyListeners "modelLoaded" PModelLoaded ;;
  modify (fun e => with_timers (timers e ++ [InitialConfigurationTimer 500]) e) ;;
  modify (with_isIdleRotating true) ;;
  modify (fun e => with_timers (timers e ++ [IdleInterval 1000]) e).

(** The engine's own [error] listener on the viewer element. *)
Definition onModelError : M unit :=
  Logger_error "Model load error" ;;
  notifyListeners "error" (PError "webgl" "Failed to load 3D model" None).

(** Camera, AR and style attributes of the element are not part of the
    state observed here. *)
Definition createModelViewer (h : Host) (container : option Container) : M unit :=
  await (ensureModelViewerLoaded h) ;;
  modify (with_modelViewer (Some (viewer_element h))).

Definition waitForModelLoad : M unit :=
  e <- get ;;
  match modelViewer e with
  | None => throw (TypeError "Cannot read properties of null (reading 'loaded')")
  | Some viewer =>
      match mv_load viewer with
      | AlreadyLoaded => ret tt
      | LoadFires => yield ;; onModelLoad
      | LoadFails detail =>
          yield ;;
          onModelError ;;
          throw (Error ("Model load failed: " +:+ to_String (js_or detail (Some "Unknown error"))))
      | LoadTimesOut => yield ;; throw (Error "Model load timeout")
      end
  end.

Definition setupEnvironments : M unit :=
  modify (fun e =>
    with_stage
      (stage e ++
       map (fun env =>
              {| el_id := env_id env +:+ "Env";
                 el_active := strict_eq (Some (env_id env)) (environment (currentState e)) |})
           (environments (config e))) e).

Definition startTexturePreloading : M unit :=
  e <- get ;;
  if isReady e then ret tt
  else
    modify (with_isReady true) ;;
    let preloadOrder :=
      color (currentState e) ::
      filter (fun id => id ≠ color (currentState e))
             (map (fun c => Some (color_id c)) (colors (config e))) in
    modify (fun e => with_timers (timers e ++ [PreloadTimer 500 preloadOrder]) e).

Definition initialize (h : Host) (container : option Container) : M unit :=
  try_catch
    (await (ensureModelViewerLoaded h) ;;
     await (ensureContainerReady container) ;;
     await (createModelViewer h container) ;;
     await waitForModelLoad ;;
     setupMaterialReferences ;;
     setupEnvironments ;;
     startTexturePreloading ;;
     await applyInitialConfiguration ;;
     modify (with_isReady true) ;;
     notifyListeners "initialized" PEngine)
    (fun error =>
       Logger_error "ConfiguratorEngine initialization failed" ;;
       modify (with_isReady false) ;;
       throw error).

(** *** Preloading and cleanup *)

Definition preloadColorTextures (colorId : jsstr) : M unit :=
  e <- get ;;
  match find_color colorId (config e) with
  | None => ret tt
  | Some c =>
      try_catch
        (match textures c with
         | None => throw (TypeError "Cannot read properties of undefined (reading 'primary')")
         | Some tx =>
             await (Promise_all3 (preloadTexture (tx_primary tx))
                                 (preloadTexture (tx_accent tx))
                                 (preloadTexture (tx_roughness tx))) ;;
             ret tt
         end)
        (fun error => Logger_error ("Failed to preload textures for " +:+ to_String colorId))
  end.

Definition is_idle_interval (t : Timer) : bool :=
  match t with
  | IdleInterval _ => true
  | _ => false
  end.

(** [clearInterval] stops the idle interval; timeouts already handed to
    [setTimeout] are not cancelled. *)
Definition destroy : M unit :=
  modify (fun e => with_timers (List.filter (fun t => negb (is_idle_interval t)) (timers e)) e) ;;
  modify (with_textureCache ∅) ;;
  modify (with_eventListeners ∅).

(** *** Public API: sharing and reset *)

Definition getShareURL (location : string) (e : Engine) : URL :=
  {| url_prefix := location;
     url_search :=
       [("color", to_String (color (currentState e)));
        ("strap", to_String (strap (currentState e)));
        ("environment", to_String (environment (currentState e)))] |}.

Definition reset : R unit :=
  (cfg <- call_sync (e <- get ;; ret (config e))%js ;;
   call_async (changeColor (js_or (defaultColor cfg) (defaults_color cfg))) ;;
   call_async (changeStrap (js_or (defaultStrap cfg) (defaults_strap cfg))) ;;
   call_sync (changeEnvironment (js_or (defaultEnvironment cfg) (defaults_environment cfg))) ;;
   call_sync (e <- get ;; notifyListeners "reset" (PState (currentState e)))%js)%rt.

End ConfiguratorEngine.

(** ** XRUpgradeConfigurator: the orchestrator *)

Module XRUpgradeConfigurator.

(** The checks of [validateConfiguration] on a typed configuration record:
    the first failing check is the error thrown. *)
Definition validateConfiguration (cfg : Configuration) : unit + JsError :=
  match
    List.find (fun c =>
                 match textures c with
                 | Some tx => negb (truthy (tx_primary tx)) || negb (truthy (tx_accent tx))
                 | None => true
                 end) (colors cfg)
  with
  | Some c => inr (Error ("Color " +:+ color_id c +:+ " missing required textures"))
  | None =>
      if truthy (defaultColor cfg)
         && bool_decide (find_color (defaultColor cfg) cfg = None)
      then inr (Error ("Default color '" +:+ to_String (defaultColor cfg)
                       +:+ "' not found in colors array"))
      else if truthy (defaultStrap cfg)
              && bool_decide (find_strap (defaultStrap cfg) cfg = None)
      then inr (Error ("Default strap '" +:+ to_String (defaultStrap cfg)
                       +:+ "' not found in straps array"))
      else if truthy (defaultEnvironment cfg)
              && bool_decide (find_environment (defaultEnvironment cfg) cfg = None)
      then inr (Error ("Default environment '" +:+ to_String (defaultEnvironment cfg)
                       +:+ "' not found in environments array"))
      else inl tt
  end.

(** Listeners the [ar=true] branch subscribes; they only arm a timer. *)
Definition arOnInitialized : Callback := {| cb_id := 1; cb_run := fun _ => None |}.
Definition arOnModelLoaded : Callback := {| cb_id := 2; cb_run := fun _ => None |}.

Definition add_body_class (name : string) : R unit :=
  fun rt =>
    ({| rt_engine := rt_engine rt; rt_jobs := rt_jobs rt;
        rt_body_classes := rt_body_classes rt ++ [name] |}, inl tt).

(** [params] is [new URLSearchParams(window.location.search)]; [isMobile] is
    [deviceInfo.isMobile || window.innerWidth <= 768]. *)
Definition applyURLParameters (params : URLSearchParams) (isMobile : bool) : R unit :=
  ((if params_has params "mobile" && strict_eq (params_get params "mobile") (Some "true")
    then add_body_class "mobile-debug" else retR tt) ;;
   (if params_has params "color"
    then call_async (ConfiguratorEngine.changeColor (params_get params "color"))
    else retR tt) ;;
   (if params_has params "strap"
    then call_async (ConfiguratorEngine.changeStrap (params_get params "strap"))
    else retR tt) ;;
   (if params_has params "environment"
    then call_sync (ConfiguratorEngine.changeEnvironment (params_get params "environment"))
    else retR tt) ;;
   (if params_has params "ar" && strict_eq (params_get params "ar") (Some "true") && isMobile
    then
      call_sync
        (e <- get ;;
         (if isReady e
          then modify (fun e => with_timers (timers e ++ [ActivateARTimer 500]) e)
          else ConfiguratorEngine.subscribe "initialized" arOnInitialized) ;;
         ConfiguratorEngine.subscribe "modelLoaded" arOnModelLoaded ;;
         modify (fun e => with_timers (timers e ++ [ARFallbackTimer 3000]) e))%js
    else retR tt))%rt.

End XRUpgradeConfigurator.

(** ** Sample data *)

Module Sample.

Definition red : ColorOption :=
  {| color_id := "red"; color_name := "Red";
     textures := Some {| tx_primary := Some "red_primary.jpg";
                         tx_accent := Some "red_accent.jpg";
                         tx_roughness := Some "rough.jpg" |} |}.

Definition blue : ColorOption :=
  {| color_id := "blue"; color_name := "Blue";
     textures := Some {| tx_primary := Some "blue_primary.jpg";
                         tx_accent := Some "blue_accent.jpg";
                         tx_roughness := Some "rough.jpg" |} |}.

Definition match_strap : StrapOption :=
  {| strap_id := "selected"; strap_name := "Match"; texture := undefined |}.

Definition orange_strap : StrapOption :=
  {| strap_id := "orange"; strap_name := "Orange"; texture := Some "orange.jpg" |}.

Definition studio : EnvironmentOption :=
  {| env_id := "studio"; env_name := "Studio"; background := "#f8f9fa" |}.

Definition beach : EnvironmentOption :=
  {| env_id := "beach"; env_name := "Beach"; background := "#87ceeb" |}.

Definition names : MaterialNames :=
  {| name_primary := "TkaninaMat"; name_secondary := "PodlogaMat";
     name_accent := "KaiseviMat" |}.

(** Defaults as in the shipped product file: the matching strap. *)
Definition product : Configuration :=
  {| product_materials := names;
     colors := [red; blue];
     straps := [match_strap; orange_strap];
     environments := [studio; beach];
     defaultColor := Some "red";
     defaultStrap := Some "selected";
     defaultEnvironment := Some "studio";
     defaults := None |}.

(** The same product with the fixed strap as its default. *)
Definition product_orange : Configuration :=
  {| product_materials := names;
     colors := [red; blue];
     straps := [match_strap; orange_strap];
     environments := [studio; beach];
     defaultColor := Some "red";
     defaultStrap := Some "orange";
     defaultEnvironment := Some "studio";
     defaults := None |}.

Definition material (name : string) : Material :=
  {| mat_name := name; baseColorTexture := true; metallicRoughnessTexture := true |}.

(** A viewer whose model has all three materials and loads every texture. *)
Definition viewer : ModelViewer :=
  {| mv_load := LoadFires;
     mv_model := Some [material "TkaninaMat"; material "PodlogaMat"; material "KaiseviMat"];
     mv_createTexture := fun n url => Some {| tex_url := url; tex_serial := n |} |}.

(** A viewer whose model lacks the accent material. *)
Definition viewer_no_accent : ModelViewer :=
  {| mv_load := LoadFires;
     mv_model := Some [material "TkaninaMat"; material "PodlogaMat"];
     mv_createTexture := fun n url => Some {| tex_url := url; tex_serial := n |} |}.

(** A viewer on which every texture request fails. *)
Definition viewer_offline : ModelViewer :=
  {| mv_load := LoadFires;
     mv_model := Some [material "TkaninaMat"; material "PodlogaMat"; material "KaiseviMat"];
     mv_createTexture := fun _ _ => None |}.

Definition host (v : ModelViewer) : Host :=
  {| library_defined := true; library_arrives := true; viewer_element := v |}.

Definition container : Container :=
  {| has_dimensions := true; gets_dimensions := true |}.

(** The engine after a completed [initialize]. *)
Definition initialized (cfg : Configuration) (v : ModelViewer) : Engine :=
  (settle (ConfiguratorEngine.initialize (host v) (Some container)
             (ConfiguratorEngine.constructor cfg))).1.

(** Engines after [initialize]: all materials resolved; the accent material
    missing; every texture request failing. *)
Definition ready : Engine := initialized product viewer.
Definition unresolved : Engine := initialized product viewer_no_accent.
Definition offline : Engine := initialized product viewer_offline.

(** The product whose default strap is the fixed one, after [initialize]:
    the selection is red / orange / studio, and the textures of both are in
    the cache. *)
Definition shop_orange : Engine := initialized product_orange viewer.

(** The same page after the visitor has picked the beach backdrop: the
    selection is red / orange / beach. *)
Definition sharing : Engine :=
  (settle (ConfiguratorEngine.changeEnvironment (Some "beach") shop_orange)).1.

(** A viewer whose floor material carries no base-colour texture: its
    texture-info object is null. *)
Definition viewer_bare_floor : ModelViewer :=
  {| mv_load := LoadFires;
     mv_model := Some [material "TkaninaMat";
                       {| mat_name := "PodlogaMat"; baseColorTexture := false;
                          metallicRoughnessTexture := false |};
                       material "KaiseviMat"];
     mv_createTexture := fun n url => Some {| tex_url := url; tex_serial := n |} |}.

(** The product on that viewer, after [initialize]. *)
Definition bare_floor : Engine := initialized product viewer_bare_floor.

(** A listener of the page. *)
Definition observer : Callback := {| cb_id := 7; cb_run := fun _ => None |}.



End Sample.

(** ** DeviceDetection: capability probes *)

(** The browser objects the probes read. *)
Record XRSystem := {
  xr_requestSession : bool            (* 'requestSession' in navigator.xr *)
}.

Record Navigator := {
  userAgent : string;
  platform : string;
  vendor : string;
  maxTouchPoints : Z;
  xr : option XRSystem                (* None: not ('xr' in navigator) *)
}.

Record MessageHandlers := {
  arkit : bool                        (* truthiness of messageHandlers.arkit *)
}.

Record Webkit := {
  messageHandlers : option MessageHandlers;
  standalone : bool
}.

Record Window := {
  innerWidth : Z;
  ontouchstart : bool;                (* 'ontouchstart' in window *)
  webkit : option Webkit;
  AndroidInterface : bool
}.

Record Location := {
  protocol : string;
  hostname : string
}.

Record Browser := {
  window : Window;
  navigator : Navigator;
  location : Location
}.

(** *** Strings and the regular expressions of the probes *)

Definition lower_ascii (a : Ascii.ascii) : Ascii.ascii :=
  let n := Ascii.N_of_ascii a in
  if ((65 <=? n) && (n <=? 90))%N then Ascii.ascii_of_N (n + 32) else a.

Fixpoint toLowerCase (s : string) : string :=
  match s with
  | EmptyString => EmptyString
  | String a s' => String (lower_ascii a) (toLowerCase s')
  end.

(** [s.includes(sub)], also the test of a regular expression that is a
    plain word. *)
Fixpoint includes (s sub : string) : bool :=
  String.prefix sub s ||
  match s with
  | EmptyString => false
  | String _ s' => includes s' sub
  end.

Definition is_digit (a : Ascii.ascii) : bool :=
  let n := Ascii.N_of_ascii a in ((48 <=? n) && (n <=? 57))%N.

(** The longest prefix of digits, and what follows it. *)
Fixpoint span_digits (s : string) : string * string :=
  match s with
  | EmptyString => (EmptyString, EmptyString)
  | String a s' =>
      if is_digit a
      then let (d, rest) := span_digits s' in (String a d, rest)
      else (EmptyString, s)
  end.

Fixpoint drop_string (n : nat) (s : string) : string :=
  match n, s with
  | O, _ => s
  | S n', String _ s' => drop_string n' s'
  | S _, EmptyString => EmptyString
  end.

(** Leftmost match of a pattern tried at every position. *)
Fixpoint search (at_start : string -> option string) (s : string) : option string :=
  match at_start s with
  | Some g => Some g
  | None =>
      match s with
      | EmptyString => None
      | String _ s' => search at_start s'
      end
  end.

(** Group 1 of [/OS (\d+)_/] matched at the start of [s]. *)
Definition os_version_here (s : string) : option string :=
  if String.prefix "OS " s then
    let (d, rest) := span_digits (drop_string 3 s) in
    if negb (String.eqb d "") && String.prefix "_" rest then Some d else None
  else None.

(** Group 1 of [/Android (\d+(\.\d+)?)/] matched at the start of [s]. *)
Definition android_version_here (s : string) : option string :=
  if String.prefix "Android " s then
    let (d, rest) := span_digits (drop_string 8 s) in
    if String.eqb d "" then None
    else if String.prefix "." rest then
      let (f, _) := span_digits (drop_string 1 rest) in
      if String.eqb f "" then Some d else Some (d +:+ "." +:+ f)
    else Some d
  else None.

(** [parseInt(digits, 10)] on a string of decimal digits. *)
Definition parseInt (digits : string) : Z :=
  fold_left (fun acc a => 10 * acc + (Z.of_N (Ascii.N_of_ascii a) - 48))%Z
            (String.list_ascii_of_string digits) 0%Z.

Record Capabilities := {
  cap_isMobile : bool;
  cap_isiOS : bool;
  cap_isAndroid : bool;
  cap_isHTTPS : bool;
  cap_hasWebXR : bool;
  cap_hasARCore : bool;
  cap_hasARKit : bool;
  cap_iosVersion : Z;
  cap_androidVersion : Q;
  cap_userAgent : string;
  cap_platform : string;
  cap_vendor : string
}.

Record ARSupport := {
  supported : bool;
  mode : jsstr;                        (* None: null *)
  reason : jsstr;                      (* None: null *)
  capabilities : Capabilities
}.

Module DeviceDetection.
Section Probes.

(** [parseFloat] of the JavaScript runtime, on the strings the Android
    pattern captures; it rounds to a double, so it is left abstract. *)
Variable parseFloat : string -> Q.

Variable b : Browser.

Definition isMobile : bool :=
  let mobileWidth := (innerWidth (window b) <=? 768)%Z in
  let ua := toLowerCase (userAgent (navigator b)) in
  let mobileUserAgent :=
    includes ua "android" || includes ua "webos" || includes ua "iphone"
    || includes ua "ipad" || includes ua "ipod" || includes ua "blackberry"
    || includes ua "iemobile" || includes ua "opera mini" in
  let touchDevice := ontouchstart (window b) in
  mobileWidth || mobileUserAgent || touchDevice.

Definition isTablet : bool :=
  (768 <? innerWidth (window b))%Z && (innerWidth (window b) <=? 1024)%Z.

Definition isDesktop : bool := negb isMobile && negb isTablet.

Definition isiOS : bool :=
  let ua := toLowerCase (userAgent (navigator b)) in
  let pf := toLowerCase (platform (navigator b)) in
  (includes ua "iphone" || includes ua "ipad" || includes ua "ipod")
  || (String.eqb pf "macintel" && (1 <? maxTouchPoints (navigator b))%Z).

Definition isAndroid : bool :=
  let ua := toLowerCase (userAgent (navigator b)) in
  includes ua "android" && negb (includes ua "chrome").

Definition getDeviceType : string :=
  if isMobile then "mobile"
  else if isTablet then "tablet"
  else "desktop".

Definition xr_in_navigator : bool := bool_decide (is_Some (xr (navigator b))).

Definition getIOSVersion : Z :=
  if negb isiOS then 0%Z
  else
    match search os_version_here (userAgent (navigator b)) with
    | Some digits => parseInt digits
    | None =>
        match webkit (window b) with
        | Some {| messageHandlers := Some _ |} => 12%Z
        | Some {| messageHandlers := None; standalone := true |} => 11%Z
        | _ => if xr_in_navigator then 12%Z else 0%Z
        end
    end.

Definition getAndroidVersion : Q :=
  if negb isAndroid then 0%Q
  else
    match search android_version_here (userAgent (navigator b)) with
    | Some group => parseFloat group
    | None =>
        if xr_in_navigator then 7%Q
        else if AndroidInterface (window b) then 7%Q
        else 0%Q
    end.

(** [x < y] on numbers. *)
Definition Qlt_bool (x y : Q) : bool := negb (Qle_bool y x).

Definition hasARCore : bool :=
  if negb isAndroid then false
  else if Qlt_bool getAndroidVersion 7 then false
  else
    let ua := toLowerCase (userAgent (navigator b)) in
    includes ua "chrome" || includes ua "samsung".

Definition hasARKit : bool :=
  if negb isiOS then false
  else if (getIOSVersion <? 12)%Z then false
  else
    xr_in_navigator ||
    match webkit (window b) with
    | Some {| messageHandlers := Some h |} => arkit h
    | _ => false
    end.

Definition isMobileDevice : bool :=
  let ua := toLowerCase (userAgent (navigator b)) in
  existsb (fun keyword => includes ua keyword)
    ["android"; "webos"; "iphone"; "ipad"; "ipod"; "blackberry"; "iemobile";
     "opera mini"; "mobile safari"].

Definition hasWebXR : bool :=
  match xr (navigator b) with
  | Some x => xr_requestSession x
  | None => false
  end.

Definition isHTTPS : bool :=
  String.eqb (protocol (location b)) "https:"
  || String.eqb (hostname (location b)) "localhost".

Definition getCapabilities : Capabilities :=
  {| cap_isMobile := isMobileDevice;
     cap_isiOS := isiOS;
     cap_isAndroid := isAndroid;
     cap_isHTTPS := isHTTPS;
     cap_hasWebXR := hasWebXR;
     cap_hasARCore := hasARCore;
     cap_hasARKit := hasARKit;
     cap_iosVersion := getIOSVersion;
     cap_androidVersion := getAndroidVersion;
     cap_userAgent := userAgent (navigator b);
     cap_platform := platform (navigator b);
     cap_vendor := vendor (navigator b) |}.

Definition getARMode : jsstr :=
  if isiOS then Some "quick-look"
  else if isAndroid then Some "scene-viewer"
  else if xr_in_navigator then Some "webxr"
  else None.

Definition supportsAR : bool :=
  if negb (String.eqb (protocol (location b)) "https:")
     && negb (String.eqb (hostname (location b)) "localhost")
  then false
  else if hasWebXR then true
  else if isiOS then hasARKit
  else if isAndroid then hasARCore
  else false.

(** The value the promise of [checkARSupport] resolves to. *)
Definition checkARSupport : ARSupport :=
  let caps := getCapabilities in
  let support r :=
    {| supported := false; mode := None; reason := Some r; capabilities := caps |} in
  if negb (cap_isHTTPS caps) then support "AR requires HTTPS connection"
  else if negb (cap_isiOS caps) && negb (cap_isAndroid caps)
  then support "AR is only supported on iOS and Android devices"
  else if cap_isiOS caps && (cap_iosVersion caps <? 12)%Z
  then support "AR requires iOS 12 or later"
  else if cap_isAndroid caps && Qlt_bool (cap_androidVersion caps) 7
  then support "AR requires Android 7.0 or later"
  else if cap_hasWebXR caps || cap_hasARCore caps || cap_hasARKit caps
  then {| supported := true; mode := getARMode; reason := None; capabilities := caps |}
  else support "AR not supported by this browser or device".

End Probes.
End DeviceDetection.

(** ** HealthCheck (utils/HealthCheck.js) *)

(** [check.status] of a single check, and [results.status] of the report. *)
Inductive CheckStatus := CheckPass | CheckWarn | CheckFail.
Inductive HealthStatus := Healthy | Degraded | Unhealthy.

(** [configurator.deviceInfo]: the capabilities the constructor of the
    orchestrator stores, or the object its resize listener replaces them
    with.  Neither has a [supportsWebShare] or a [supportsAR] property. *)
Inductive DeviceInfo :=
| CapabilitiesInfo (c : Capabilities)
| ResizeInfo (deviceType : string) (isMobile isTablet isDesktop : bool).

(** What the checks observe of the page. *)
Record HealthProbe := {
  hp_config : Configuration;                 (* configurator.config *)
  hp_model_path : string;                    (* config.product.model.path *)
  hp_deviceInfo : DeviceInfo;
  (* fetch(url, {method: 'HEAD'}): [response.ok], or None when it rejects *)
  hp_fetch_head : jsstr -> option bool;
  (* canvas.getContext('webgl') is not null *)
  hp_webgl : bool;
  (* performance.now() - start, in milliseconds *)
  hp_duration : Q
}.

Record HealthChecks := {
  modelAccess : CheckStatus;
  configAccess : CheckStatus;
  webglSupport : CheckStatus;
  performance : CheckStatus;
  deviceCapabilities : CheckStatus
}.

Module HealthCheck.
Section Checks.

Variable p : HealthProbe.

Definition checkModelAccess : CheckStatus :=
  match hp_fetch_head p (Some (hp_model_path p)) with
  | Some true => CheckPass
  | Some false => CheckFail
  | None => CheckFail
  end.

(** One entry of [textureChecks]: [accessible] for a colour. *)
Definition texture_accessible (c : ColorOption) : bool :=
  match textures c with
  | Some tx =>
      match hp_fetch_head p (tx_primary tx) with
      | Some ok => ok
      | None => false
      end
  | None => false
  end.

Definition checkConfigAccess : CheckStatus :=
  let config := hp_config p in
  let issues :=
    (if bool_decide (length (colors config) = 0) then ["No colors defined"] else [])
    ++ (if bool_decide (length (straps config) = 0) then ["No straps defined"] else [])
    ++ (if bool_decide (length (environments config) = 0)
        then ["No environments defined"] else []) in
  let textureChecks := map texture_accessible (take 2 (colors config)) in
  let inaccessibleTextures := List.filter negb textureChecks in
  if bool_decide (length issues = 0) && bool_decide (length inaccessibleTextures = 0)
  then CheckPass else CheckWarn.

Definition checkWebGLSupport : CheckStatus :=
  if negb (hp_webgl p) then CheckFail else CheckPass.

Definition checkPerformance : CheckStatus :=
  let duration := hp_duration p in
  if DeviceDetection.Qlt_bool duration 100 then CheckPass
  else if DeviceDetection.Qlt_bool duration 500 then CheckWarn
  else CheckFail.

(** [capabilities.isMobile] *)
Definition info_isMobile (d : DeviceInfo) : bool :=
  match d with
  | CapabilitiesInfo c => cap_isMobile c
  | ResizeInfo _ isMobile _ _ => isMobile
  end.

Definition checkDeviceCapabilities : CheckStatus :=
  let capabilities := hp_deviceInfo p in
  let supportsWebShare := false in          (* undefined *)
  let supportsAR := false in                (* undefined *)
  let issues :=
    (if negb supportsWebShare && info_isMobile capabilities
     then ["Web Share API not supported on mobile device"] else [])
    ++ (if negb supportsAR && info_isMobile capabilities
        then ["AR not supported on mobile device"] else []) in
  if bool_decide (length issues = 0) then CheckPass else CheckWarn.

Definition is_status (s : CheckStatus) (c : CheckStatus) : bool :=
  match s, c with
  | CheckPass, CheckPass | CheckWarn, CheckWarn | CheckFail, CheckFail => true
  | _, _ => false
  end.

(** [results.checks] and [results.status] of [runChecks].  Every check
    catches its own exceptions, so the outer [catch] has nothing to catch. *)
Definition runChecks : HealthChecks * HealthStatus :=
  let checks :=
    {| modelAccess := checkModelAccess;
       configAccess := checkConfigAccess;
       webglSupport := checkWebGLSupport;
       performance := checkPerformance;
       deviceCapabilities := checkDeviceCapabilities |} in
  let values := [modelAccess checks; configAccess checks; webglSupport checks;
                 performance checks; deviceCapabilities checks] in
  let failedChecks := List.filter (is_status CheckFail) values in
  if negb (bool_decide (length failedChecks = 0)) then (checks, Unhealthy)
  else
    let warnChecks := List.filter (is_status CheckWarn) values in
    if negb (bool_decide (length warnChecks = 0)) then (checks, Degraded)
    else (checks, Healthy).

End Checks.
End HealthCheck.

(** A decimal reading of the strings the Android pattern captures, exact
    where a double is: used for sample evaluations only. *)
Definition decimal (s : string) : Q :=
  let (d, rest) := span_digits s in
  let (f, _) := span_digits (drop_string 1 rest) in
  (inject_Z (parseInt d)
   + inject_Z (parseInt f) / inject_Z (10 ^ Z.of_nat (String.length f)))%Q.

(** A phone-sized browser window on a plain [http:] page, with no AR flags. *)
Definition sample_browser : Browser :=
  {| window := {| innerWidth := 400; ontouchstart := false; webkit := None;
                  AndroidInterface := false |};
     navigator := {| userAgent := "Mozilla/5.0 (X11; Linux x86_64) Gecko/20100101 Firefox/128.0";
                     platform := "Linux x86_64"; vendor := "";
                     maxTouchPoints := 0; xr := None |};
     location := {| protocol := "http:"; hostname := "shop.example" |} |}.

(** An iPhone on a secure page, with the ARKit message handler. *)
Definition iphone_browser : Browser :=
  {| window := {| innerWidth := 390; ontouchstart := true;
                  webkit := Some {| messageHandlers := Some {| arkit := true |};
                                    standalone := false |};
                  AndroidInterface := false |};
     navigator := {| userAgent := "Mozilla/5.0 (iPhone; CPU iPhone OS 15_4 like Mac OS X) AppleWebKit/605.1.15 (KHTML, like Gecko) Version/15.4 Mobile/15E148 Safari/604.1";
                     platform := "iPhone"; vendor := "Apple Computer, Inc.";
                     maxTouchPoints := 5; xr := None |};
     location := {| protocol := "https:"; hostname := "shop.example" |} |}.

(** Chrome on an Android phone, on a secure page. *)
Definition android_chrome_browser : Browser :=
  {| window := {| innerWidth := 412; ontouchstart := true; webkit := None;
                  AndroidInterface := false |};
     navigator := {| userAgent := "Mozilla/5.0 (Linux; Android 13; Pixel 7) AppleWebKit/537.36 (KHTML, like Gecko) Chrome/120.0.0.0 Mobile Safari/537.36";
                     platform := "Linux armv8l"; vendor := "Google Inc.";
                     maxTouchPoints := 5; xr := None |};
     location := {| protocol := "https:"; hostname := "shop.example" |} |}.

(** The Samsung browser on an Android phone, on a secure page. *)
Definition samsung_browser : Browser :=
  {| window := {| innerWidth := 412; ontouchstart := true; webkit := None;
                  AndroidInterface := false |};
     navigator := {| userAgent := "Mozilla/5.0 (Linux; Android 13; SM-S918B) AppleWebKit/537.36 (KHTML, like Gecko) SamsungBrowser/23.0 Mobile Safari/537.36";
                     platform := "Linux armv8l"; vendor := "";
                     maxTouchPoints := 5; xr := None |};
     location := {| protocol := "https:"; hostname := "shop.example" |} |}.

(** A desktop browser with WebXR, on a secure page. *)
Definition desktop_webxr_browser : Browser :=
  {| window := {| innerWidth := 1920; ontouchstart := false; webkit := None;
                  AndroidInterface := false |};
     navigator := {| userAgent := "Mozilla/5.0 (Windows NT 10.0; Win64; x64) AppleWebKit/537.36 (KHTML, like Gecko) Edg/120.0.0.0";
                     platform := "Win32"; vendor := "";
                     maxTouchPoints := 0; xr := Some {| xr_requestSession := true |} |};
     location := {| protocol := "https:"; hostname := "shop.example" |} |}.

(** The suspensions of a solo run. *)
Fixpoint suspensions {A} (o : Outcome A) : nat :=
  match o with
  | Return _ _ => 0
  | Raise _ _ => 0
  | Suspend e k => S (suspensions (k e))
  end.

(** ** Vocabulary of the statements *)

Definition color_ids (cfg : Configuration) : list jsstr :=
  map (fun c => Some (color_id c)) (colors cfg).

Definition strap_ids (cfg : Configuration) : list jsstr :=
  map (fun s => Some (strap_id s)) (straps cfg).

Definition environment_ids (cfg : Configuration) : list jsstr :=
  map (fun x => Some (env_id x)) (environments cfg).

(** The events a call has emitted: those of [e'] that [e] did not have. *)
Definition emitted_since (e e' : Engine) : list (string * Payload) :=
  drop (length (emitted e)) (emitted e').

(** A call reports a failure exactly by emitting an [error] event. *)
Definition reports_error (e e' : Engine) : Prop :=
  exists p, ("error", p) ∈ emitted_since e e'.

(** Texture application can go through: the three material slots are
    resolved, the colour has a texture record, and the texture-info objects
    written to are present. *)
Definition can_apply (ms : option Materials) (c : ColorOption) : bool :=
  match ms, textures c with
  | Some {| m_primary := Some p; m_secondary := Some s; m_accent := Some a |}, Some _ =>
      baseColorTexture p && baseColorTexture s && baseColorTexture a
      && metallicRoughnessTexture p
  | _, _ => false
  end.

(** [e'] differs from [e] at most in the texture cache and in the request,
    application and console traces. *)
Record texture_side (e e' : Engine) : Prop := {
  ts_config : config e' = config e;
  ts_modelViewer : modelViewer e' = modelViewer e;
  ts_materials : materials e' = materials e;
  ts_currentState : currentState e' = currentState e;
  ts_eventListeners : eventListeners e' = eventListeners e;
  ts_isReady : isReady e' = isReady e;
  ts_stage : stage e' = stage e;
  ts_timers : timers e' = timers e;
  ts_emitted : emitted e' = emitted e;
  ts_invoked : invoked e' = invoked e
}.

(** A method all of whose solo runs stay on the texture side. *)
Definition on_texture_side {A} (m : M A) : Prop :=
  forall e, texture_side e (settle (m e)).1.

(** The listeners of an event, in subscription order. *)
Definition listeners (event : string) (e : Engine) : list Callback :=
  default [] (eventListeners e !! event).

(** What [notifyListeners event data] leaves behind: one emitted event, one
    invocation per listener, one console line per listener that threw. *)
Definition notified (event : string) (data : Payload) (e : Engine) : Engine :=
  with_console_error
    (console_error e ++
     map (fun _ => "Error in event listener for " +:+ event)
         (List.filter (fun cb => bool_decide (is_Some (cb_run cb data))) (listeners event e)))
    (with_invoked
       (invoked e ++ map (fun cb => (cb_id cb, data)) (listeners event e))
       (with_emitted (emitted e ++ [(event, data)]) e)).

(** The engine right after the optimistic update of [changeColor] and the
    [colorChanged] event that announces it. *)
Definition optimistic (colorId : jsstr) (e : Engine) : Engine :=
  notified "colorChanged" (PId colorId)
    (with_currentState
       {| color := colorId; strap := strap (currentState e);
          environment := environment (currentState e) |} e).

(** The texture-apply step of [changeColor]: its [try] block up to the
    [strapChanged] event. *)
Definition texture_apply (c : ColorOption) : M unit :=
  (await (ConfiguratorEngine.applyColorTextures c) ;;
   ConfiguratorEngine.set_strap (Some "selected") ;;
   await (ConfiguratorEngine.applyStrapConfiguration (Some "selected")))%js.

(** What the [catch] block of [changeColor] leaves behind. *)
Definition rolled_back (colorId previousColor : jsstr) (c : ColorOption)
    (error : JsError) (e : Engine) : Engine :=
  notified "error"
    (PError "user" ("Failed to change color to " +:+ color_name c) (Some error))
    (notified "colorChanged" (PId previousColor)
       (with_currentState
          {| color := previousColor; strap := strap (currentState e);
             environment := environment (currentState e) |}
          (with_console_error
             (console_error e ++ ["Failed to change color to " +:+ to_String colorId]) e))).

(** ** Interleaved runs: rely and guarantee

    Methods that run interleaved with other jobs are specified by what they
    guarantee between two of their suspensions and what they rely on the
    other jobs to preserve while they are suspended. *)

(** The configuration and the material references are the same. *)
Definition same_model (e e' : Engine) : Prop :=
  config e' = config e /\ materials e' = materials e.

(** Nothing of the selection has changed. *)
Definition quiet (e e' : Engine) : Prop :=
  same_model e e' /\ currentState e' = currentState e.

Definition keeps_color (e e' : Engine) : Prop :=
  same_model e e' /\ color (currentState e') = color (currentState e).

Definition keeps_color_and_environment (e e' : Engine) : Prop :=
  keeps_color e e' /\ environment (currentState e') = environment (currentState e).

Section Interleaving.

(** What the other jobs may do to the engine during the first suspension of
    a method, [Rw], and during its later ones, [Rs]; what the method does to
    it between two suspensions, [G]. *)
Variables Rw Rs G : Engine -> Engine -> Prop.

Definition rely (first : bool) : Engine -> Engine -> Prop :=
  if first then Rw else Rs.

(** [wpm first e0 o Q]: the run [o], whose current stretch started on [e0],
    keeps the guarantee up to each suspension, whatever the engine it is
    resumed on, and ends in [Q]; [first] tells whether the method has not
    been suspended yet. *)
Fixpoint wpm {A} (first : bool) (e0 : Engine) (o : Outcome A)
    (Q : bool -> Engine -> Engine -> A + JsError -> Prop) : Prop :=
  match o with
  | Return e a => Q first e0 e (inl a)
  | Raise e x => Q first e0 e (inr x)
  | Suspend e k => G e0 e /\ forall e', rely first e e' -> wpm false e' (k e') Q
  end.

(** An assertion that survives the interference of the other jobs and the
    method's own quiet steps. *)
Definition stable (first : bool) (I : Engine -> Prop) : Prop :=
  forall e e', rely first e e' \/ Rs e e' \/ quiet e e' -> I e -> I e'.

End Interleaving.

(** ** Vocabulary of the further properties *)

(** Every solo run of the method relates the engine it starts on to the one
    it ends on by [T]. *)
Definition maintains {A} (T : Engine -> Engine -> Prop) (m : M A) : Prop :=
  forall e, T e (settle (m e)).1.

(** No texture leaves the cache. *)
Definition cache_grows (e e' : Engine) : Prop :=
  forall url, is_Some (textureCache e !! url) -> is_Some (textureCache e' !! url).

(** Every cached handle is still the one cached under its URL. *)
Definition handles_kept (e e' : Engine) : Prop :=
  forall url t, textureCache e !! url = Some t -> textureCache e' !! url = Some t.

(** What a change of the selection leaves alone: the configuration, the
    viewer and its materials, the subscriptions, the readiness flag, the
    timers, and every cached texture. *)
Record setup_untouched (e e' : Engine) : Prop := {
  su_config : config e' = config e;
  su_modelViewer : modelViewer e' = modelViewer e;
  su_materials : materials e' = materials e;
  su_eventListeners : eventListeners e' = eventListeners e;
  su_isReady : isReady e' = isReady e;
  su_isIdleRotating : isIdleRotating e' = isIdleRotating e;
  su_timers : timers e' = timers e;
  su_cache : cache_grows e e'
}.

(** The selection names a configured colour and environment, and a
    configured strap or the dynamic one. *)
Definition valid_selection (cfg : Configuration) (st : SelectionState) : Prop :=
  color st ∈ color_ids cfg
  /\ (strap st ∈ strap_ids cfg \/ strap st = Some "selected")
  /\ environment st ∈ environment_ids cfg.



(** What [initialize] needs from the page: the viewer library, a container
    with dimensions, and a model that loads. *)
Definition prerequisites (h : Host) (container : option Container) : bool :=
  (library_defined h || library_arrives h)
  && match container with
     | Some c => has_dimensions c || gets_dimensions c
     | None => false
     end
  && match mv_load (viewer_element h) with
     | AlreadyLoaded | LoadFires => true
     | LoadFails _ | LoadTimesOut => false
     end.

(** ** The monad: solo runs *)

Lemma settle_bindO {A B} (o : Outcome A) (f : A -> M B) :
  settle (bindO o f) =
  match settle o with
  | (e, inl a) => settle (f a e)
  | (e, inr x) => (e, inr x)
  end.
Proof. induction o as [e a|e x|e k IH]; simpl; auto. Qed.

Lemma settle_catchO {A} (o : Outcome A) (h : JsError -> M A) :
  settle (catchO o h) =
  match settle o with
  | (e, inl a) => (e, inl a)
  | (e, inr x) => settle (h x e)
  end.
Proof. induction o as [e a|e x|e k IH]; simpl; auto. Qed.

Lemma settle_awaitO {A} (o : Outcome A) : settle (awaitO o) = settle o.
Proof. induction o as [e a|e x|e k IH]; simpl; auto. Qed.

Lemma settle_bind {A B} (m : M A) (f : A -> M B) (e : Engine) :
  settle (bind m f e) =
  match settle (m e) with
  | (e', inl a) => settle (f a e')
  | (e', inr x) => (e', inr x)
  end.
Proof. apply settle_bindO. Qed.

Lemma settle_try_catch {A} (m : M A) (h : JsError -> M A) (e : Engine) :
  settle (try_catch m h e) =
  match settle (m e) with
  | (e', inl a) => (e', inl a)
  | (e', inr x) => settle (h x e')
  end.
Proof. apply settle_catchO. Qed.

Lemma settle_await {A} (m : M A) (e : Engine) : settle (await m e) = settle (m e).
Proof. apply settle_awaitO. Qed.

(** ** Lookups in the configuration *)

Lemma find_color_absent (id : jsstr) (cfg : Configuration) :
  id ∉ color_ids cfg -> find_color id cfg = None.
Proof.
  unfold find_color, color_ids. induction (colors cfg) as [|c l IH]; simpl; [done|].
  intros Hn. unfold strict_eq at 1. case_bool_decide as Hc.
  - exfalso. apply Hn. rewrite Hc. left.
  - apply IH. intros Hin. apply Hn. by right.
Qed.

Lemma find_color_present (id : jsstr) (cfg : Configuration) :
  id ∈ color_ids cfg -> exists c, find_color id cfg = Some c /\ id = Some (color_id c).
Proof.
  unfold find_color, color_ids. induction (colors cfg) as [|c l IH]; simpl.
  - intros H. inversion H.
  - intros Hin. unfold strict_eq at 1. case_bool_decide as Hc.
    + exists c. auto.
    + apply IH. apply elem_of_cons in Hin as [->|Hin]; [done|exact Hin].
Qed.

Lemma find_strap_absent (id : jsstr) (cfg : Configuration) :
  id ∉ strap_ids cfg -> find_strap id cfg = None.
Proof.
  unfold find_strap, strap_ids. induction (straps cfg) as [|c l IH]; simpl; [done|].
  intros Hn. unfold strict_eq at 1. case_bool_decide as Hc.
  - exfalso. apply Hn. rewrite Hc. left.
  - apply IH. intros Hin. apply Hn. by right.
Qed.

Lemma find_environment_absent (id : jsstr) (cfg : Configuration) :
  id ∉ environment_ids cfg -> find_environment id cfg = None.
Proof.
  unfold find_environment, environment_ids.
  induction (environments cfg) as [|c l IH]; simpl; [done|].
  intros Hn. unfold strict_eq at 1. case_bool_decide as Hc.
  - exfalso. apply Hn. rewrite Hc. left.
  - apply IH. intros Hin. apply Hn. by right.
Qed.

(** ** The event bus *)

Section EventBus.

Import ConfiguratorEngine.

Lemma forEach_guarded (event : string) (data : Payload) (cbs : list Callback) (e : Engine) :
  forEach (fun callback =>
             try_catch (call callback data)
               (fun error => Logger_error ("Error in event listener for " +:+ event)))
          cbs e
  = Return
      (with_console_error
         (console_error e ++
          map (fun _ => "Error in event listener for " +:+ event)
              (List.filter (fun cb => bool_decide (is_Some (cb_run cb data))) cbs))
         (with_invoked (invoked e ++ map (fun cb => (cb_id cb, data)) cbs) e))
      tt.
Proof.
  revert e. induction cbs as [|cb cbs IH]; intros e.
  - destruct e; simpl. by rewrite !app_nil_r.
  - cbn [forEach]. unfold bind, try_catch, call, bind, modify.
    cbn [bindO catchO]. destruct (cb_run cb data) as [err|] eqn:Hrun.
    + cbn [throw catchO bindO Logger_error modify]. rewrite IH.
      destruct e; cbn. rewrite Hrun. cbn.
      by rewrite <- !app_assoc.
    + cbn [ret catchO bindO]. rewrite IH.
      destruct e; cbn. rewrite Hrun. cbn.
      by rewrite <- !app_assoc.
Qed.

Lemma notifyListeners_returns (event : string) (data : Payload) (e : Engine) :
  notifyListeners event data e = Return (notified event data e) tt.
Proof.
  unfold notifyListeners, bind, modify, get. cbn [bindO].
  unfold notified, listeners.
  change (eventListeners (with_emitted (emitted e ++ [(event, data)]) e))
    with (eventListeners e).
  destruct (eventListeners e !! event) as [cbs|]; cbn [default].
  - by rewrite forEach_guarded.
  - destruct e; cbn. by rewrite !app_nil_r.
Qed.

Lemma subscribe_returns (event : string) (callback : Callback) (e : Engine) :
  exists e', subscribe event callback e = Return e' tt
             /\ listeners event e' = listeners event e ++ [callback]
             /\ invoked e' = invoked e /\ emitted e' = emitted e
             /\ console_error e' = console_error e.
Proof.
  unfold subscribe, bind, get, listeners. cbn [bindO].
  case_bool_decide as Hs.
  - destruct Hs as [l Hl]. eexists. split; [reflexivity|]. cbn.
    rewrite lookup_alter_eq, Hl. by cbn.
  - eexists. split; [reflexivity|]. cbn.
    rewrite lookup_alter_eq, lookup_insert_eq.
    destruct (eventListeners e !! event) eqn:Hl; [|by cbn].
    exfalso. apply Hs. by eexists.
Qed.

End EventBus.

(** ** Methods that stay on the texture side *)

Section TextureSide.

Import ConfiguratorEngine.

Lemma texture_side_refl (e : Engine) : texture_side e e.
Proof. by constructor. Qed.

Lemma texture_side_trans (e1 e2 e3 : Engine) :
  texture_side e1 e2 -> texture_side e2 e3 -> texture_side e1 e3.
Proof.
  intros [] []. constructor; etransitivity; eassumption.
Qed.

Lemma side_ret {A} (a : A) : on_texture_side (ret a).
Proof. intros e. apply texture_side_refl. Qed.

Lemma side_throw {A} (x : JsError) : on_texture_side (@throw A x).
Proof. intros e. apply texture_side_refl. Qed.

Lemma side_get : on_texture_side get.
Proof. intros e. apply texture_side_refl. Qed.

Lemma side_modify (f : Engine -> Engine) :
  (forall e, texture_side e (f e)) -> on_texture_side (modify f).
Proof. intros H e. apply H. Qed.

Lemma side_bind {A B} (m : M A) (f : A -> M B) :
  on_texture_side m -> (forall a, on_texture_side (f a)) -> on_texture_side (bind m f).
Proof.
  intros Hm Hf e. rewrite settle_bind. specialize (Hm e).
  destruct (settle (m e)) as [e1 [a|x]]; cbn in *; [|done].
  eapply texture_side_trans; [exact Hm|apply Hf].
Qed.

Lemma side_try_catch {A} (m : M A) (h : JsError -> M A) :
  on_texture_side m -> (forall x, on_texture_side (h x)) -> on_texture_side (try_catch m h).
Proof.
  intros Hm Hh e. rewrite settle_try_catch. specialize (Hm e).
  destruct (settle (m e)) as [e1 [a|x]]; cbn in *; [done|].
  eapply texture_side_trans; [exact Hm|apply Hh].
Qed.

Lemma side_await {A} (m : M A) : on_texture_side m -> on_texture_side (await m).
Proof. intros Hm e. rewrite settle_await. apply Hm. Qed.

Lemma side_Logger_error (message : string) : on_texture_side (Logger_error message).
Proof. apply side_modify. intros e. by constructor. Qed.

Lemma side_createTexture (url : jsstr) : on_texture_side (createTexture url).
Proof.
  intros e. unfold createTexture. destruct (modelViewer e) as [v|]; cbn.
  - destruct (mv_createTexture v _ url); cbn; by constructor.
  - apply texture_side_refl.
Qed.

Lemma side_preloadTexture (url : jsstr) : on_texture_side (preloadTexture url).
Proof.
  unfold preloadTexture. apply side_bind; [apply side_get|]. intros e0.
  destruct (textureCache e0 !! url); [apply side_ret|].
  apply side_try_catch.
  - apply side_bind; [apply side_await, side_createTexture|]. intros t.
    apply side_bind; [|intros; apply side_ret].
    apply side_modify. intros e. by constructor.
  - intros x. apply side_bind; [apply side_Logger_error|intros; apply side_ret].
Qed.

Lemma side_getTexture (url : jsstr) : on_texture_side (getTexture url).
Proof.
  unfold getTexture. apply side_bind; [apply side_get|]. intros e0.
  destruct (textureCache e0 !! url); [apply side_ret|].
  apply side_await, side_preloadTexture.
Qed.

Lemma side_setTexture (m : Material) (ch : Channel) (t : option Texture) :
  on_texture_side (setTexture m ch t).
Proof.
  unfold setTexture.
  destruct (match ch with BaseColor => _ | MetallicRoughness => _ end).
  - apply side_modify. intros e. by constructor.
  - apply side_throw.
Qed.

Lemma side_applyColorTextures (c : ColorOption) : on_texture_side (applyColorTextures c).
Proof.
  unfold applyColorTextures. apply side_bind; [apply side_get|]. intros e0.
  destruct (materials e0) as [[[p|] [s|] [a|]]|]; try apply side_throw.
  destruct (textures c) as [tx|]; [|apply side_throw].
  repeat (apply side_bind; [first [apply side_await, side_getTexture
                                  |apply side_setTexture]|intros ?]).
  apply side_setTexture.
Qed.

Lemma side_applyStrapConfiguration (strapId : jsstr) :
  on_texture_side (applyStrapConfiguration strapId).
Proof.
  unfold applyStrapConfiguration. apply side_bind; [apply side_get|]. intros e0.
  destruct (materials e0) as [ms|]; [|apply side_throw].
  destruct (m_accent ms) as [a|].
  - apply side_bind.
    + destruct (strict_eq strapId (Some "selected")).
      * destruct (find_color _ _) as [cc|]; [|apply side_ret].
        destruct (textures cc); apply side_ret.
      * destruct (find_strap _ _) as [s|].
        -- destruct (truthy (texture s)); apply side_ret.
        -- apply side_bind; [apply side_Logger_error|intros; apply side_ret].
    + intros strapTexture. destruct (truthy strapTexture); [|apply side_ret].
      apply side_bind; [apply side_await, side_getTexture|intros; apply side_setTexture].
  - apply side_bind; [apply side_Logger_error|intros; apply side_throw].
Qed.

(** A texture request always settles with a value: a handle or [null]. *)
Lemma preloadTexture_settles (url : jsstr) (e : Engine) :
  exists e' t, settle (preloadTexture url e) = (e', inl t).
Proof.
  unfold preloadTexture. rewrite settle_bind. cbn.
  destruct (textureCache e !! url); [by eexists _, _|].
  rewrite settle_try_catch, settle_bind, settle_await.
  unfold createTexture. destruct (modelViewer e) as [v|]; cbn.
  - destruct (mv_createTexture v _ url); cbn; by eexists _, _.
  - by eexists _, _.
Qed.

Lemma getTexture_settles (url : jsstr) (e : Engine) :
  exists e' t, settle (getTexture url e) = (e', inl t) /\ texture_side e e'.
Proof.
  pose proof (side_getTexture url e) as Hs.
  unfold getTexture in *. rewrite settle_bind in *. cbn in *.
  destruct (textureCache e !! url); [by eexists _, _|].
  rewrite settle_await in *.
  destruct (preloadTexture_settles url e) as (e' & t & H). rewrite H in *.
  by eexists _, _.
Qed.

Lemma getTexture_cached (url : jsstr) (t : Texture) (e : Engine) :
  textureCache e !! url = Some t -> getTexture url e = Return e (Some t).
Proof. intros H. unfold getTexture, bind, get. cbn. by rewrite H. Qed.

End TextureSide.

(** ** Texture application and colour changes, run alone *)

Section ColorChange.

Import ConfiguratorEngine.

Ltac next_texture :=
  rewrite settle_bind, settle_await;
  match goal with
  | |- context [settle (getTexture ?u ?e)] =>
      let e1 := fresh "e" in
      let t := fresh "t" in
      let H := fresh "H" in
      destruct (getTexture_settles u e) as (e1 & t & H & _); rewrite H; clear H;
      cbv beta iota
  end.

Lemma applyColorTextures_ok (c : ColorOption) (e : Engine) :
  can_apply (materials e) c = true ->
  (settle (applyColorTextures c e)).2 = inl tt.
Proof.
  unfold can_apply, applyColorTextures. rewrite settle_bind. cbn [get settle].
  destruct (materials e) as [[[p|] [s|] [a|]]|]; try discriminate.
  destruct (textures c) as [tx|]; [|discriminate].
  intros H. apply andb_prop in H as [H Hr]. apply andb_prop in H as [H Ha].
  apply andb_prop in H as [Hp Hs].
  cbn [m_primary m_secondary m_accent].
  do 3 next_texture.
  unfold setTexture. rewrite Hp, Hs, Ha, Hr. reflexivity.
Qed.

Lemma applyColorTextures_fails (c : ColorOption) (e : Engine) :
  can_apply (materials e) c = false ->
  exists error, (settle (applyColorTextures c e)).2 = inr error.
Proof.
  unfold can_apply, applyColorTextures. rewrite settle_bind. cbn [get settle].
  destruct (materials e) as [[[p|] [s|] [a|]]|]; try (by eexists).
  destruct (textures c) as [tx|]; [|by eexists].
  intros H. cbn [m_primary m_secondary m_accent].
  do 3 next_texture. unfold setTexture.
  destruct (baseColorTexture p); [|by eexists].
  destruct (baseColorTexture s); [|by eexists].
  destruct (baseColorTexture a); [|by eexists].
  destruct (metallicRoughnessTexture p); [discriminate|by eexists].
Qed.

Lemma applyStrapConfiguration_ok (strapId : jsstr) (c : ColorOption) (e : Engine) :
  can_apply (materials e) c = true ->
  (settle (applyStrapConfiguration strapId e)).2 = inl tt.
Proof.
  unfold can_apply, applyStrapConfiguration. rewrite settle_bind. cbn [get settle].
  destruct (materials e) as [[[p|] [s|] [a|]]|]; try discriminate.
  destruct (textures c) as [tx|]; [|discriminate].
  intros H. apply andb_prop in H as [H _]. apply andb_prop in H as [_ Ha].
  cbn [m_accent]. rewrite settle_bind.
  assert (forall (m : M jsstr) v e1,
             settle (m e) = (e1, inl v) ->
             (match settle (m e) with
              | (e', inl strapTexture) =>
                  settle ((if truthy strapTexture
                           then bind (await (getTexture strapTexture))
                                  (fun t => setTexture a BaseColor t)
                           else ret tt) e')
              | (e', inr x) => (e', inr x)
              end).2 = inl tt) as Hk.
  { intros m v e1 Hm. rewrite Hm. destruct (truthy v); [|reflexivity].
    next_texture. unfold setTexture. rewrite Ha. reflexivity. }
  destruct (strict_eq strapId (Some "selected")).
  - destruct (find_color _ _) as [cc|]; [destruct (textures cc)|]; by eapply Hk.
  - destruct (find_strap _ _) as [st|].
    + destruct (truthy (texture st)); by eapply Hk.
    + by eapply Hk.
Qed.

(** [changeColor] on a known colour, in terms of its texture-apply step. *)
Lemma changeColor_settles (colorId : jsstr) (c : ColorOption) (e : Engine) :
  find_color colorId (config e) = Some c ->
  settle (changeColor colorId e) =
  match settle (texture_apply c (optimistic colorId e)) with
  | (e2, inl _) => (notified "strapChanged" (PId (Some "selected")) e2, inl tt)
  | (e2, inr error) =>
      (rolled_back colorId (color (currentState e)) c error e2, inl tt)
  end.
Proof.
  intros Hc. unfold changeColor. rewrite settle_bind. cbn [get settle]. rewrite Hc.
  rewrite settle_bind. cbn [set_color modify settle].
  rewrite settle_bind, notifyListeners_returns. cbn [settle].
  fold (optimistic colorId e).
  rewrite settle_try_catch. unfold texture_apply.
  rewrite !settle_bind.
  destruct (settle (await (applyColorTextures c) (optimistic colorId e))) as [e1 [[]|x]].
  - repeat first [rewrite settle_bind | progress cbn [set_strap modify settle]].
    destruct (settle (await (applyStrapConfiguration (Some "selected")) _)) as [e2 [[]|x]].
    + by rewrite notifyListeners_returns.
    + unfold bind, Logger_error, set_color, modify. cbn [bindO].
      rewrite notifyListeners_returns. cbn [bindO].
      by rewrite notifyListeners_returns.
  - unfold bind, Logger_error, set_color, modify. cbn [bindO].
    rewrite notifyListeners_returns. cbn [bindO].
    by rewrite notifyListeners_returns.
Qed.

Lemma side_texture_apply (c : ColorOption) (e : Engine) :
  let e' := (settle (texture_apply c e)).1 in
  config e' = config e /\ materials e' = materials e /\ emitted e' = emitted e
  /\ color (currentState e') = color (currentState e)
  /\ environment (currentState e') = environment (currentState e)
  /\ eventListeners e' = eventListeners e
  /\ (forall u, (settle (texture_apply c e)).2 = inl u ->
      strap (currentState e') = Some "selected").
Proof.
  unfold texture_apply. rewrite settle_bind, settle_await.
  pose proof (side_applyColorTextures c e) as H1.
  destruct (settle (applyColorTextures c e)) as [e1 [[]|x]]; cbn [fst] in *.
  - rewrite settle_bind. cbn [set_strap modify settle]. rewrite settle_await.
    match goal with
    | |- context [settle (applyStrapConfiguration ?i ?e0)] =>
        pose proof (side_applyStrapConfiguration i e0) as H2;
        destruct (settle (applyStrapConfiguration i e0)) as [e2 r]
    end.
    destruct H1, H2; cbn [fst] in *. cbn in *.
    assert (config e2 = config e /\ materials e2 = materials e /\ emitted e2 = emitted e
            /\ color (currentState e2) = color (currentState e)
            /\ environment (currentState e2) = environment (currentState e)
            /\ eventListeners e2 = eventListeners e
            /\ strap (currentState e2) = Some "selected") as Hall.
    { repeat split; try congruence.
      - rewrite ts_currentState1. cbn. congruence.
      - rewrite ts_currentState1. cbn. congruence.
      - by rewrite ts_currentState1. }
    destruct Hall as (?&?&?&?&?&?&?).
    destruct r as [[]|x]; repeat split; try assumption; intros; assumption || discriminate.
  - destruct H1. repeat split; try congruence. intros; discriminate.
Qed.

End ColorChange.

(** ** Properties of the change operations *)

Section ChangeOperations.

Import ConfiguratorEngine.

(** C1. For every colour identifier of the configuration, a call
    [changeColor(colorId)] that settles successfully, that is, settles without
    having emitted an [error] event, leaves [getState().color] equal to
    [colorId] and [getState().strap] equal to the dynamic strap identifier
    ['selected'], and has emitted exactly [colorChanged(colorId)] followed by
    [strapChanged('selected')]. *)
Theorem changeColor_selects_color_and_dynamic_strap
    (e e' : Engine) (colorId : jsstr) (r : unit + JsError) :
  colorId ∈ color_ids (config e) ->
  settle (changeColor colorId e) = (e', r) ->
  ~ reports_error e e' ->
  r = inl tt
  /\ color (getState e') = colorId
  /\ strap (getState e') = Some "selected"
  /\ environment (getState e') = environment (getState e)
  /\ emitted e' = emitted e ++ [("colorChanged", PId colorId);
                                ("strapChanged", PId (Some "selected"))].
Proof.
  intros Hin Hrun Hok.
  destruct (find_color_present _ _ Hin) as (c & Hc & _).
  rewrite (changeColor_settles _ _ _ Hc) in Hrun.
  pose proof (side_texture_apply c (optimistic colorId e)) as Hside.
  destruct (settle (texture_apply c (optimistic colorId e))) as [e2 [[]|x]];
    cbn [fst snd] in Hside; destruct Hside as (_ & _ & Hem & Hcol & Henv & _ & Hstrap);
    injection Hrun as <- <-.
  - cbn in *. rewrite Hem, Hcol, Henv, (Hstrap tt eq_refl).
    rewrite <- app_assoc. done.
  - exfalso. apply Hok. eexists. unfold emitted_since, rolled_back. cbn.
    rewrite Hem. cbn. rewrite <- !app_assoc. rewrite drop_app_length. cbn.
    do 2 right. left.
Qed.

(** C5. If the texture-apply step fails during [changeColor(X)] when the
    current colour was [Y], then after the call settles [getState().color] is
    [Y], [colorChanged] has been emitted again carrying [Y], and an [error]
    event carrying the failure has been emitted. *)
Theorem changeColor_rolls_back_on_failure
    (e e2 : Engine) (X Y : jsstr) (c : ColorOption) (failure : JsError) :
  find_color X (config e) = Some c ->
  color (getState e) = Y ->
  settle (texture_apply c (optimistic X e)) = (e2, inr failure) ->
  exists e',
    settle (changeColor X e) = (e', inl tt)
    /\ color (getState e') = Y
    /\ emitted e' =
       emitted e ++ [("colorChanged", PId X);
                     ("colorChanged", PId Y);
                     ("error", PError "user" ("Failed to change color to " +:+ color_name c)
                                 (Some failure))].
Proof.
  intros Hc HY Hfail.
  rewrite (changeColor_settles _ _ _ Hc), Hfail.
  pose proof (side_texture_apply c (optimistic X e)) as Hside.
  rewrite Hfail in Hside. cbn [fst snd] in Hside.
  destruct Hside as (_ & _ & Hem & _).
  eexists. split; [reflexivity|]. cbn in *. subst Y. split; [done|].
  rewrite Hem. cbn. by rewrite <- !app_assoc.
Qed.

(** C7. For every identifier that is not in the configuration,
    [changeColor], [changeStrap] and [changeEnvironment] return without
    throwing, leave the selection state unchanged and emit no event (they
    write a console line and nothing else). *)
Theorem unknown_identifiers_are_ignored (e : Engine) (id : jsstr) :
  (id ∉ color_ids (config e) ->
   exists line,
     changeColor id e = Return (with_console_error (console_error e ++ [line]) e) tt)
  /\ (id ∉ strap_ids (config e) ->
      exists line,
        changeStrap id e = Return (with_console_error (console_error e ++ [line]) e) tt)
  /\ (id ∉ environment_ids (config e) ->
      exists line,
        changeEnvironment id e
        = Return (with_console_error (console_error e ++ [line]) e) tt)
  /\ (forall lines,
        getState (with_console_error lines e) = getState e
        /\ emitted (with_console_error lines e) = emitted e
        /\ invoked (with_console_error lines e) = invoked e
        /\ requested (with_console_error lines e) = requested e
        /\ applied (with_console_error lines e) = applied e).
Proof.
  repeat split.
  - intros H. eexists. unfold changeColor, bind, get. cbn [bindO].
    by rewrite (find_color_absent _ _ H).
  - intros H. eexists. unfold changeStrap, bind, get. cbn [bindO].
    by rewrite (find_strap_absent _ _ H).
  - intros H. eexists. unfold changeEnvironment, bind, get. cbn [bindO].
    by rewrite (find_environment_absent _ _ H).
Qed.

End ChangeOperations.

Section ChangeOperationsWitnesses.

Import ConfiguratorEngine.

Lemma changeColor_selects_witness :
  let e' := (settle (changeColor (Some "blue") Sample.ready)).1 in
  color (getState e') = Some "blue"
  /\ strap (getState e') = Some "selected"
  /\ emitted e' = emitted Sample.ready ++ [("colorChanged", PId (Some "blue"));
                                           ("strapChanged", PId (Some "selected"))].
Proof.
  intros e'.
  destruct (changeColor_selects_color_and_dynamic_strap
              Sample.ready e' (Some "blue")
              (settle (changeColor (Some "blue") Sample.ready)).2)
    as (_ & Hc & Hs & _ & He).
  - apply list_elem_of_In. vm_compute. auto.
  - subst e'. apply surjective_pairing.
  - intros [p Hp]. apply list_elem_of_In in Hp. vm_compute in Hp.
    destruct Hp as [Hp|[Hp|[]]]; discriminate Hp.
  - auto.
Defined.

Lemma changeColor_rolls_back_witness :
  exists e',
    settle (changeColor (Some "blue") Sample.unresolved) = (e', inl tt)
    /\ color (getState e') = Some "red"
    /\ emitted e' =
       emitted Sample.unresolved ++
       [("colorChanged", PId (Some "blue"));
        ("colorChanged", PId (Some "red"));
        ("error", PError "user" "Failed to change color to Blue"
                    (Some (TypeError "Cannot read properties of null (reading 'primary')")))].
Proof.
  apply (changeColor_rolls_back_on_failure
           Sample.unresolved
           (settle (texture_apply Sample.blue (optimistic (Some "blue") Sample.unresolved))).1
           (Some "blue") (Some "red") Sample.blue
           (TypeError "Cannot read properties of null (reading 'primary')")).
  - vm_compute. reflexivity.
  - vm_compute. reflexivity.
  - vm_compute. reflexivity.
Defined.

Lemma unknown_identifiers_witness :
  (exists line,
     changeColor (Some "nonexistent") Sample.ready
     = Return (with_console_error (console_error Sample.ready ++ [line]) Sample.ready) tt)
  /\ (exists line,
        changeStrap (Some "nonexistent") Sample.ready
        = Return (with_console_error (console_error Sample.ready ++ [line]) Sample.ready) tt)
  /\ (exists line,
        changeEnvironment (Some "nonexistent") Sample.ready
        = Return (with_console_error (console_error Sample.ready ++ [line]) Sample.ready) tt).
Proof.
  destruct (unknown_identifiers_are_ignored Sample.ready (Some "nonexistent"))
    as (Hc & Hs & He & _).
  repeat split.
  - apply Hc. intros H. apply list_elem_of_In in H. vm_compute in H.
    destruct H as [H|[H|[]]]; discriminate H.
  - apply Hs. intros H. apply list_elem_of_In in H. vm_compute in H.
    destruct H as [H|[H|[]]]; discriminate H.
  - apply He. intros H. apply list_elem_of_In in H. vm_compute in H.
    destruct H as [H|[H|[]]]; discriminate H.
Defined.

End ChangeOperationsWitnesses.

(** ** Properties of the texture cache and of the event bus *)

Section CacheAndEvents.

Import ConfiguratorEngine.

(** C9. When the underlying texture load fails, [preloadTexture], and hence
    [getTexture], returns [null] instead of propagating the error; nothing
    is stored in the texture cache, so the next request for the same URL asks
    the viewer again; and [applyColorTextures] returns normally whatever the
    texture requests do, as long as the materials can take a texture. *)
Theorem failed_texture_load_is_absorbed
    (e : Engine) (viewer : ModelViewer) (url : jsstr) :
  modelViewer e = Some viewer ->
  textureCache e !! url = None ->
  mv_createTexture viewer (length (requested e)) url = None ->
  (exists e',
     settle (preloadTexture url e) = (e', inl None)
     /\ settle (getTexture url e) = (e', inl None)
     /\ textureCache e' = textureCache e
     /\ requested e' = requested e ++ [url]
     /\ requested (settle (getTexture url e')).1 = requested e ++ [url; url])
  /\ (forall c e0, can_apply (materials e0) c = true ->
                   (settle (applyColorTextures c e0)).2 = inl tt).
Proof.
  intros Hv Hcache Hfail. split; [|intros c e0; apply applyColorTextures_ok].
  assert (settle (preloadTexture url e)
          = (with_console_error
               (console_error e ++ ["Failed to preload texture " +:+ to_String url])
               (with_requested (requested e ++ [url]) e), inl None)) as Hpre.
  { unfold preloadTexture. rewrite settle_bind. cbn [get settle]. rewrite Hcache.
    rewrite settle_try_catch, settle_bind, settle_await.
    unfold createTexture. rewrite Hv, Hfail. reflexivity. }
  eexists. split; [exact Hpre|]. split; [|split; [reflexivity|split; [reflexivity|]]].
  - unfold getTexture. rewrite settle_bind. cbn [get settle]. rewrite Hcache.
    by rewrite settle_await.
  - unfold getTexture. rewrite settle_bind.
    cbn [get settle textureCache with_console_error with_requested].
    rewrite Hcache, settle_await.
    unfold preloadTexture. rewrite settle_bind.
    cbn [get settle textureCache with_console_error with_requested].
    rewrite Hcache, settle_try_catch, settle_bind, settle_await.
    unfold createTexture. cbn [modelViewer requested with_console_error with_requested].
    rewrite Hv.
    destruct (mv_createTexture viewer (length (requested e ++ [url])) url);
      cbn; by rewrite <- app_assoc.
Qed.

Lemma failed_texture_load_witness :
  (exists e',
     settle (getTexture (Some "blue_primary.jpg") Sample.offline) = (e', inl None)
     /\ textureCache e' = textureCache Sample.offline
     /\ requested (settle (getTexture (Some "blue_primary.jpg") e')).1
        = requested Sample.offline ++ [Some "blue_primary.jpg"; Some "blue_primary.jpg"])
  /\ (settle (applyColorTextures Sample.blue Sample.offline)).2 = inl tt.
Proof.
  destruct (failed_texture_load_is_absorbed
              Sample.offline Sample.viewer_offline (Some "blue_primary.jpg"))
    as ((e' & _ & Hget & Hcache & _ & Hagain) & Happly).
  - vm_compute. reflexivity.
  - vm_compute. reflexivity.
  - reflexivity.
  - split; [exists e'; auto|]. apply Happly. vm_compute. reflexivity.
Defined.

Lemma forEach_subscribe (event : string) (cbs : list Callback) (e : Engine) :
  exists e',
    forEach (subscribe event) cbs e = Return e' tt
    /\ listeners event e' = listeners event e ++ cbs
    /\ invoked e' = invoked e /\ emitted e' = emitted e
    /\ console_error e' = console_error e.
Proof.
  revert e. induction cbs as [|cb cbs IH]; intros e.
  - exists e. by rewrite app_nil_r.
  - destruct (subscribe_returns event cb e) as (e1 & H1 & Hl & Hi & He & Hc).
    destruct (IH e1) as (e2 & H2 & Hl2 & Hi2 & He2 & Hc2).
    exists e2. cbn [forEach]. unfold bind. rewrite H1. cbn [bindO]. rewrite H2.
    rewrite Hl2, Hl, Hi2, He2, Hc2, <- app_assoc. auto.
Qed.

(** Listeners that only observe: after the callbacks [cbs] have been
    subscribed to [event] in list order, [notifyListeners] returns normally,
    has invoked every listener of the event exactly once, earlier
    subscriptions first, whether or not earlier listeners threw, and has
    written one console line per listener that threw. *)
Lemma notifyListeners_of_observers
    (event : string) (data : Payload) (cbs : list Callback) (e : Engine) :
  exists e1 e2,
    forEach (subscribe event) cbs e = Return e1 tt
    /\ notifyListeners event data e1 = Return e2 tt
    /\ invoked e2
       = invoked e ++ map (fun cb => (cb_id cb, data)) (listeners event e ++ cbs)
    /\ emitted e2 = emitted e ++ [(event, data)]
    /\ length (console_error e2)
       = length (console_error e)
         + length (List.filter (fun cb => bool_decide (is_Some (cb_run cb data)))
                               (listeners event e ++ cbs)).
Proof.
  destruct (forEach_subscribe event cbs e) as (e1 & H1 & Hl & Hi & He & Hc).
  exists e1, (notified event data e1).
  split; [exact H1|]. split; [apply notifyListeners_returns|].
  unfold notified. cbn. rewrite Hl, Hi, He, Hc.
  repeat split. by rewrite length_app, length_map.
Qed.

End CacheAndEvents.

(** ** Repeating a colour change *)

Section RepeatedChange.

Import ConfiguratorEngine.

Lemma texture_apply_ok (c : ColorOption) (e : Engine) :
  can_apply (materials e) c = true ->
  (settle (texture_apply c e)).2 = inl tt.
Proof.
  intros H. unfold texture_apply. rewrite settle_bind, settle_await.
  pose proof (applyColorTextures_ok c e H) as Hok.
  pose proof (side_applyColorTextures c e) as Hside.
  destruct (settle (applyColorTextures c e)) as [e1 [[]|x]]; cbn [fst snd] in *;
    [|discriminate].
  rewrite settle_bind. cbn [set_strap modify settle]. rewrite settle_await.
  match goal with
  | |- context [settle (applyStrapConfiguration ?i ?e0)] =>
      pose proof (applyStrapConfiguration_ok i c e0) as Hs;
      destruct (settle (applyStrapConfiguration i e0)) as [e2 [[]|x]]
  end; cbn [fst snd] in *; [reflexivity|].
  apply Hs. cbn. by rewrite (ts_materials _ _ Hside).
Qed.

(** Success is not an empty case: whenever texture application can go
    through, [changeColor] on a known colour settles without an [error]
    event. *)
Lemma changeColor_succeeds_when_materials_ready
    (e : Engine) (colorId : jsstr) (c : ColorOption) :
  find_color colorId (config e) = Some c ->
  can_apply (materials e) c = true ->
  ~ reports_error e (settle (changeColor colorId e)).1.
Proof.
  intros Hc Hcan [p Hp]. rewrite (changeColor_settles _ _ _ Hc) in Hp.
  pose proof (texture_apply_ok c (optimistic colorId e) Hcan) as Hok.
  pose proof (side_texture_apply c (optimistic colorId e)) as Hside.
  destruct (settle (texture_apply c (optimistic colorId e))) as [e2 [[]|x]];
    cbn [fst snd] in *; [|discriminate].
  destruct Hside as (_ & _ & Hem & _).
  unfold emitted_since in Hp. cbn in Hp. rewrite Hem in Hp. cbn in Hp.
  rewrite <- app_assoc, drop_app_length in Hp.
  apply list_elem_of_In in Hp. destruct Hp as [Hp|[Hp|[]]]; discriminate Hp.
Qed.

Lemma texture_apply_fails (c : ColorOption) (e : Engine) :
  can_apply (materials e) c = false ->
  exists error, (settle (texture_apply c e)).2 = inr error.
Proof.
  intros H. destruct (applyColorTextures_fails c e H) as (x & Hx).
  exists x. unfold texture_apply. rewrite settle_bind, settle_await.
  destruct (settle (applyColorTextures c e)) as [e1 [[]|y]]; cbn in *; congruence.
Qed.

Lemma changeColor_success_needs_materials
    (e e' : Engine) (colorId : jsstr) (c : ColorOption) (r : unit + JsError) :
  find_color colorId (config e) = Some c ->
  settle (changeColor colorId e) = (e', r) ->
  ~ reports_error e e' ->
  can_apply (materials e) c = true /\ config e' = config e /\ materials e' = materials e
  /\ color (currentState e') = colorId /\ strap (currentState e') = Some "selected".
Proof.
  intros Hc Hrun Hok. rewrite (changeColor_settles _ _ _ Hc) in Hrun.
  pose proof (side_texture_apply c (optimistic colorId e)) as Hside.
  destruct (can_apply (materials e) c) eqn:Hcan.
  - destruct (settle (texture_apply c (optimistic colorId e))) as [e2 [[]|x]];
      cbn [fst snd] in Hside;
      destruct Hside as (Hcfg & Hmat & Hem & Hcol & _ & _ & Hstrap);
      injection Hrun as <- <-.
    + cbn. rewrite (Hstrap tt eq_refl). auto.
    + exfalso. apply Hok. eexists. unfold emitted_since, rolled_back. cbn.
      rewrite Hem. cbn. rewrite <- !app_assoc. rewrite drop_app_length. cbn.
      do 2 right. left.
  - exfalso. destruct (texture_apply_fails c (optimistic colorId e) Hcan) as (x & Hx).
    destruct (settle (texture_apply c (optimistic colorId e))) as [e2 [[]|y]];
      cbn [fst snd] in *; [discriminate|].
    destruct Hside as (_ & _ & Hem & _). injection Hrun as <- <-.
    apply Hok. eexists. unfold emitted_since, rolled_back. cbn.
    rewrite Hem. cbn. rewrite <- !app_assoc. rewrite drop_app_length. cbn.
    do 2 right. left.
Qed.

(** With the textures in the cache, texture application asks the viewer
    for nothing: it only writes to the material slots. *)
Lemma applyColorTextures_from_cache (c : ColorOption) (tx : Textures) (e : Engine) :
  can_apply (materials e) c = true ->
  textures c = Some tx ->
  is_Some (textureCache e !! tx_primary tx) ->
  is_Some (textureCache e !! tx_accent tx) ->
  is_Some (textureCache e !! tx_roughness tx) ->
  exists l, settle (applyColorTextures c e) = (with_applied l e, inl tt).
Proof.
  intros Hcan Htx [tp Hp] [ta Ha] [tr Hr].
  unfold can_apply in Hcan. rewrite Htx in Hcan.
  unfold applyColorTextures. rewrite settle_bind. cbn [get settle].
  destruct (materials e) as [[[p|] [s|] [a|]]|] eqn:Hm; try discriminate.
  apply andb_prop in Hcan as [Hcan Hpr]. apply andb_prop in Hcan as [Hcan Hab].
  apply andb_prop in Hcan as [Hpb Hsb].
  cbn [m_primary m_secondary m_accent]. rewrite Htx.
  rewrite settle_bind, settle_await, (getTexture_cached _ _ _ Hp). cbn [settle].
  rewrite settle_bind, settle_await, (getTexture_cached _ _ _ Ha). cbn [settle].
  rewrite settle_bind, settle_await, (getTexture_cached _ _ _ Hr). cbn [settle].
  unfold setTexture. rewrite Hpb, Hsb, Hab, Hpr.
  unfold bind, modify. cbn. eexists. reflexivity.
Qed.

Lemma applyStrapConfiguration_from_cache (c : ColorOption) (tx : Textures) (e : Engine) :
  can_apply (materials e) c = true ->
  find_color (color (currentState e)) (config e) = Some c ->
  textures c = Some tx ->
  is_Some (textureCache e !! tx_accent tx) ->
  exists l, settle (applyStrapConfiguration (Some "selected") e) = (with_applied l e, inl tt).
Proof.
  intros Hcan Hfind Htx [ta Ha].
  unfold can_apply in Hcan. rewrite Htx in Hcan.
  unfold applyStrapConfiguration. rewrite settle_bind. cbn [get settle].
  destruct (materials e) as [[[p|] [s|] [a|]]|] eqn:Hm; try discriminate.
  apply andb_prop in Hcan as [Hcan _]. apply andb_prop in Hcan as [_ Hab].
  cbn [m_accent]. unfold strict_eq. rewrite bool_decide_eq_true_2 by reflexivity.
  rewrite Hfind, Htx. rewrite settle_bind. cbn [ret settle].
  destruct (truthy (tx_accent tx)).
  - rewrite settle_bind, settle_await, (getTexture_cached _ _ _ Ha). cbn [settle].
    unfold setTexture. rewrite Hab. cbn. eexists. reflexivity.
  - cbn. exists (applied e). by destruct e.
Qed.

Lemma texture_apply_from_cache (c : ColorOption) (tx : Textures) (e : Engine) :
  can_apply (materials e) c = true ->
  find_color (color (currentState e)) (config e) = Some c ->
  textures c = Some tx ->
  is_Some (textureCache e !! tx_primary tx) ->
  is_Some (textureCache e !! tx_accent tx) ->
  is_Some (textureCache e !! tx_roughness tx) ->
  exists e',
    settle (texture_apply c e) = (e', inl tt)
    /\ requested e' = requested e
    /\ textureCache e' = textureCache e
    /\ emitted e' = emitted e
    /\ eventListeners e' = eventListeners e
    /\ currentState e' =
       {| color := color (currentState e); strap := Some "selected";
          environment := environment (currentState e) |}.
Proof.
  intros Hcan Hfind Htx Hp Ha Hr.
  destruct (applyColorTextures_from_cache c tx e Hcan Htx Hp Ha Hr) as (l1 & H1).
  unfold texture_apply. rewrite settle_bind, settle_await, H1.
  rewrite settle_bind. cbn [set_strap modify settle]. rewrite settle_await.
  match goal with
  | |- context [settle (applyStrapConfiguration _ ?e1)] =>
      destruct (applyStrapConfiguration_from_cache c tx e1) as (l2 & H2); auto
  end.
  rewrite H2. eexists. split; [reflexivity|]. cbn. auto.
Qed.

(** C4, as the code has it.  When [changeColor] is called again with the
    identifier that a successful first call has just made current, and that
    call has left the colour's textures in the cache, the second call leaves
    [getState()] unchanged and triggers no further texture load; it is not a
    no-op, though: it emits [colorChanged(colorId)] and
    [strapChanged('selected')] a second time. *)
Theorem changeColor_again_reemits_from_cache
    (e0 e1 : Engine) (colorId : jsstr) (c : ColorOption) (tx : Textures)
    (r : unit + JsError) :
  find_color colorId (config e0) = Some c ->
  textures c = Some tx ->
  settle (changeColor colorId e0) = (e1, r) ->
  ~ reports_error e0 e1 ->
  is_Some (textureCache e1 !! tx_primary tx) ->
  is_Some (textureCache e1 !! tx_accent tx) ->
  is_Some (textureCache e1 !! tx_roughness tx) ->
  exists e2,
    settle (changeColor colorId e1) = (e2, inl tt)
    /\ getState e2 = getState e1
    /\ requested e2 = requested e1
    /\ textureCache e2 = textureCache e1
    /\ emitted e2 = emitted e1 ++ [("colorChanged", PId colorId);
                                   ("strapChanged", PId (Some "selected"))].
Proof.
  intros Hc Htx Hrun Hok Hp Ha Hr.
  destruct (changeColor_success_needs_materials _ _ _ _ _ Hc Hrun Hok)
    as (Hcan & Hcfg & Hmat & Hcol & Hstrap).
  assert (find_color colorId (config e1) = Some c) as Hc1 by (by rewrite Hcfg).
  rewrite (changeColor_settles _ _ _ Hc1).
  assert (exists e2,
             settle (texture_apply c (optimistic colorId e1)) = (e2, inl tt)
             /\ requested e2 = requested (optimistic colorId e1)
             /\ textureCache e2 = textureCache (optimistic colorId e1)
             /\ emitted e2 = emitted (optimistic colorId e1)
             /\ eventListeners e2 = eventListeners (optimistic colorId e1)
             /\ currentState e2 =
                {| color := color (currentState (optimistic colorId e1));
                   strap := Some "selected";
                   environment := environment (currentState (optimistic colorId e1)) |})
    as (e2 & H2 & Hreq & Hcache & Hem & Hl & Hst).
  { apply (texture_apply_from_cache c tx); auto.
    cbn. by rewrite Hmat. }
  rewrite H2. eexists. split; [reflexivity|]. clear H2 Hrun.
  unfold getState in *. cbn in *. rewrite Hreq, Hcache, Hem, Hst. cbn.
  repeat split.
  - by rewrite Hcol, Hstrap.
  - by rewrite <- app_assoc.
Qed.

End RepeatedChange.

Section RepeatedChangeExamples.

Import ConfiguratorEngine.

(** C4 fails as stated: on the sample product, a second [changeColor('blue')]
    right after a successful first one emits [colorChanged('blue')] and
    [strapChanged('selected')] again. *)
Lemma changeColor_again_is_not_a_noop :
  let e1 := (settle (changeColor (Some "blue") Sample.ready)).1 in
  let e2 := (settle (changeColor (Some "blue") e1)).1 in
  color (getState e1) = Some "blue"
  /\ emitted_since e1 e2 = [("colorChanged", PId (Some "blue"));
                            ("strapChanged", PId (Some "selected"))]
  /\ emitted e2 <> emitted e1.
Proof.
  vm_compute. repeat split. discriminate.
Qed.

Lemma changeColor_again_witness :
  let e1 := (settle (changeColor (Some "blue") Sample.ready)).1 in
  exists e2,
    settle (changeColor (Some "blue") e1) = (e2, inl tt)
    /\ getState e2 = getState e1
    /\ requested e2 = requested e1
    /\ textureCache e2 = textureCache e1
    /\ emitted e2 = emitted e1 ++ [("colorChanged", PId (Some "blue"));
                                   ("strapChanged", PId (Some "selected"))].
Proof.
  intros e1.
  apply (changeColor_again_reemits_from_cache
           Sample.ready e1 (Some "blue") Sample.blue
           {| tx_primary := Some "blue_primary.jpg"; tx_accent := Some "blue_accent.jpg";
              tx_roughness := Some "rough.jpg" |}
           (settle (changeColor (Some "blue") Sample.ready)).2).
  - vm_compute. reflexivity.
  - reflexivity.
  - subst e1. apply surjective_pairing.
  - intros [p Hp]. apply list_elem_of_In in Hp. vm_compute in Hp.
    destruct Hp as [Hp|[Hp|[]]]; discriminate Hp.
  - eexists. vm_compute. reflexivity.
  - eexists. vm_compute. reflexivity.
  - eexists. vm_compute. reflexivity.
Defined.

End RepeatedChangeExamples.

(** ** Initialization with unresolved materials *)

Section Initialization.

Import ConfiguratorEngine.

(** One step of a solo run. *)
Ltac run_step :=
  first [ rewrite settle_bind
        | rewrite settle_await
        | rewrite settle_try_catch
        | rewrite notifyListeners_returns
        | progress cbn [settle ret get modify yield throw Logger_error] ].

(** [setupMaterialReferences] either stores all three materials or none. *)
Lemma setupMaterialReferences_unresolved (e : Engine) (v : ModelViewer) (model : list Material) :
  modelViewer e = Some v ->
  mv_model v = Some model ->
  getMaterialByName model (name_primary (product_materials (config e))) = None
  \/ getMaterialByName model (name_secondary (product_materials (config e))) = None
  \/ getMaterialByName model (name_accent (product_materials (config e))) = None ->
  setupMaterialReferences e
  = Return (with_console_error
              (console_error e ++ ["Failed to find required materials"]) e) tt.
Proof.
  intros Hv Hm Hmiss. unfold setupMaterialReferences, try_catch, bind, get.
  cbn [bindO catchO]. rewrite Hv, Hm.
  destruct (getMaterialByName model (name_primary _)) as [p|];
    destruct (getMaterialByName model (name_secondary _)) as [s|];
    destruct (getMaterialByName model (name_accent _)) as [a|];
    try reflexivity.
  exfalso. destruct Hmiss as [H|[H|H]]; discriminate H.
Qed.

(** C3, as the code has it.  When the library, the container and the model
    load are in order but one of the three named material slots cannot be
    resolved against the loaded model, [initialize] does not throw: the
    failure is written to the console, the material references stay unset,
    the initial configuration is skipped (no texture is applied), and the
    engine still sets [isReady] and emits [initialized]. *)
Theorem initialize_continues_without_materials
    (h : Host) (c : Container) (e : Engine) (model : list Material) :
  library_defined h = true ->
  has_dimensions c = true ->
  mv_load (viewer_element h) = LoadFires \/ mv_load (viewer_element h) = AlreadyLoaded ->
  mv_model (viewer_element h) = Some model ->
  getMaterialByName model (name_primary (product_materials (config e))) = None
  \/ getMaterialByName model (name_secondary (product_materials (config e))) = None
  \/ getMaterialByName model (name_accent (product_materials (config e))) = None ->
  materials e = None ->
  exists e',
    settle (initialize h (Some c) e) = (e', inl tt)
    /\ materials e' = None
    /\ isReady e' = true
    /\ last (emitted e') = Some ("initialized", PEngine)
    /\ applied e' = applied e
    /\ "Failed to find required materials" ∈ console_error e'.
Proof.
  intros Hlib Hdim Hload Hmodel Hmiss Hmat.
  unfold initialize. rewrite settle_try_catch.
  unfold ensureModelViewerLoaded at 1. rewrite Hlib. repeat run_step.
  unfold ensureContainerReady. rewrite Hdim. repeat run_step.
  unfold createModelViewer, ensureModelViewerLoaded. rewrite Hlib. repeat run_step.
  unfold waitForModelLoad. repeat run_step. cbn [modelViewer with_modelViewer].
  assert (forall e0 : Engine,
             modelViewer e0 = Some (viewer_element h) ->
             config e0 = config e ->
             materials e0 = None ->
             applied e0 = applied e ->
             exists e',
               match settle (setupMaterialReferences e0) with
               | (e1, inl _) =>
                   settle
                     ((setupEnvironments ;; startTexturePreloading ;;
                       await applyInitialConfiguration ;; modify (with_isReady true) ;;
                       notifyListeners "initialized" PEngine) e1)
               | (e1, inr x) => (e1, inr x)
               end = (e', inl tt)
               /\ materials e' = None /\ isReady e' = true
               /\ last (emitted e') = Some ("initialized", PEngine)
               /\ applied e' = applied e
               /\ "Failed to find required materials" ∈ console_error e') as Hrest.
  { intros e0 Hv0 Hcfg0 Hmat0 Happ0.
    rewrite (setupMaterialReferences_unresolved e0 _ model Hv0 Hmodel)
      by (by rewrite Hcfg0).
    repeat run_step. unfold setupEnvironments. repeat run_step.
    unfold startTexturePreloading. repeat run_step.
    cbn [isReady with_stage with_console_error].
    destruct (isReady e0); repeat run_step;
      unfold applyInitialConfiguration; repeat run_step;
      cbn [materials with_stage with_console_error with_isReady with_timers];
      rewrite Hmat0; repeat run_step;
      (eexists; split; [reflexivity|]); cbn;
      rewrite last_snoc, Hmat0, Happ0; repeat split;
      apply elem_of_app; left; apply elem_of_app; right; left. }
  destruct Hload as [Hload|Hload]; rewrite Hload; repeat run_step.
  - unfold onModelLoad. repeat run_step.
    match goal with
    | |- context [settle (setupMaterialReferences ?e0)] =>
        destruct (Hrest e0) as (e' & Hr & Hprops); [reflexivity || exact Hmat..|]
    end.
    rewrite Hr. eexists. split; [reflexivity|]. exact Hprops.
  - match goal with
    | |- context [settle (setupMaterialReferences ?e0)] =>
        destruct (Hrest e0) as (e' & Hr & Hprops); [reflexivity || exact Hmat..|]
    end.
    rewrite Hr. eexists. split; [reflexivity|]. exact Hprops.
Qed.

(** A failed or timed-out model load, by contrast, is thrown out of
    [initialize]: the engine is not ready and [initialized] is not emitted. *)
Lemma initialize_propagates_load_failure (h : Host) (c : Container) (e : Engine) :
  library_defined h = true ->
  has_dimensions c = true ->
  mv_load (viewer_element h) = LoadTimesOut
  \/ (exists detail, mv_load (viewer_element h) = LoadFails detail) ->
  exists e' error,
    settle (initialize h (Some c) e) = (e', inr error)
    /\ isReady e' = false
    /\ forall p, ("initialized", p) ∉ emitted_since e e'.
Proof.
  intros Hlib Hdim Hload.
  unfold initialize. rewrite settle_try_catch.
  unfold ensureModelViewerLoaded at 1. rewrite Hlib. repeat run_step.
  unfold ensureContainerReady. rewrite Hdim. repeat run_step.
  unfold createModelViewer, ensureModelViewerLoaded. rewrite Hlib. repeat run_step.
  unfold waitForModelLoad. repeat run_step. cbn [modelViewer with_modelViewer].
  destruct Hload as [Hload|[detail Hload]]; rewrite Hload; repeat run_step.
  - eexists _, _. split; [reflexivity|]. split; [reflexivity|].
    intros p Hp. unfold emitted_since in Hp. cbn in Hp.
    rewrite drop_all in Hp. inversion Hp.
  - unfold onModelError. repeat run_step.
    eexists _, _. split; [reflexivity|]. split; [reflexivity|].
    intros p Hp. unfold emitted_since in Hp. cbn in Hp.
    rewrite drop_app_length in Hp.
    apply list_elem_of_In in Hp. destruct Hp as [Hp|[]]. discriminate Hp.
Qed.

End Initialization.

Section InitializationExamples.

Import ConfiguratorEngine.

(** C3 fails as stated: on a model without the accent material,
    [initialize] returns normally, sets [isReady] and emits [initialized]. *)
Lemma initialize_signals_ready_without_accent_material :
  let r := settle (initialize (Sample.host Sample.viewer_no_accent)
                     (Some Sample.container) (constructor Sample.product)) in
  getMaterialByName [Sample.material "TkaninaMat"; Sample.material "PodlogaMat"]
                    (name_accent (product_materials Sample.product)) = None
  /\ r.2 = inl tt
  /\ materials r.1 = None
  /\ isReady r.1 = true
  /\ emitted r.1 = [("modelLoaded", PModelLoaded); ("initialized", PEngine)].
Proof.
  vm_compute. repeat split.
Qed.

Lemma initialize_continues_witness :
  exists e',
    settle (initialize (Sample.host Sample.viewer_no_accent)
              (Some Sample.container) (constructor Sample.product)) = (e', inl tt)
    /\ materials e' = None
    /\ isReady e' = true
    /\ last (emitted e') = Some ("initialized", PEngine)
    /\ applied e' = []
    /\ "Failed to find required materials" ∈ console_error e'.
Proof.
  apply (initialize_continues_without_materials
           (Sample.host Sample.viewer_no_accent) Sample.container
           (constructor Sample.product)
           [Sample.material "TkaninaMat"; Sample.material "PodlogaMat"]).
  - reflexivity.
  - reflexivity.
  - left. reflexivity.
  - reflexivity.
  - right. right. vm_compute. reflexivity.
  - reflexivity.
Defined.

End InitializationExamples.

(** ** Capability probes *)

Section Capabilities.

Variable parseFloat : string -> Q.

(** C8. On an insecure transport (neither [https:] nor the [localhost]
    host) [checkARSupport] resolves to [supported: false] with the reason
    ['AR requires HTTPS connection']; whenever it resolves to
    [supported: false] it carries a reason, which is not [null] and not
    empty; it is a total function of the browser state, so it never throws;
    and [getDeviceType] on a viewport of width 400 is ['mobile']. *)
Theorem checkARSupport_fails_closed_with_reason (b : Browser) :
  let r := DeviceDetection.checkARSupport parseFloat b in
  (protocol (location b) <> "https:" -> hostname (location b) <> "localhost" ->
   supported r = false /\ mode r = None
   /\ reason r = Some "AR requires HTTPS connection")
  /\ (supported r = false -> exists why, reason r = Some why /\ why <> "")
  /\ (innerWidth (window b) = 400%Z -> DeviceDetection.getDeviceType b = "mobile").
Proof.
  cbv zeta. split; [|split].
  - intros Hp Hh. unfold DeviceDetection.checkARSupport.
    cbn [cap_isHTTPS DeviceDetection.getCapabilities].
    unfold DeviceDetection.isHTTPS.
    apply String.eqb_neq in Hp, Hh. rewrite Hp, Hh. cbn. auto.
  - unfold DeviceDetection.checkARSupport.
    repeat match goal with
           | |- context [if ?c then _ else _] => destruct c
           end; cbn; intros H; try discriminate H; eexists; (split; [reflexivity|discriminate]).
  - intros Hw. unfold DeviceDetection.getDeviceType, DeviceDetection.isMobile.
    rewrite Hw. reflexivity.
Qed.

End Capabilities.

Lemma checkARSupport_witness :
  let r := DeviceDetection.checkARSupport decimal sample_browser in
  supported r = false
  /\ reason r = Some "AR requires HTTPS connection"
  /\ DeviceDetection.getDeviceType sample_browser = "mobile".
Proof.
  destruct (checkARSupport_fails_closed_with_reason decimal sample_browser)
    as (Hhttps & Hreason & Hmobile).
  destruct Hhttps as (Hs & _ & Hr); [discriminate|discriminate|].
  destruct (Hreason Hs) as (why & _ & _).
  split; [exact Hs|]. split; [exact Hr|]. apply Hmobile. reflexivity.
Defined.

(** ** Calls that are not awaited: [reset] and URL parameters *)

Section Detached.

Import ConfiguratorEngine.

(** A method that is started alone and then run from the job queue ends
    where its solo run ends. *)
Lemma run_jobs_alone (k : Job) (e : Engine) (classes : list string) :
  run_jobs (S (suspensions (k e)))
    {| rt_engine := e; rt_jobs := [k]; rt_body_classes := classes |}
  = {| rt_engine := (settle (k e)).1; rt_jobs := []; rt_body_classes := classes |}.
Proof.
  remember (k e) as o eqn:Ho. revert k e Ho.
  induction o as [e1 a|e1 x|e1 k1 IH]; intros k e Ho.
  - cbn. by rewrite <- Ho.
  - cbn. by rewrite <- Ho.
  - cbn [suspensions settle]. rewrite <- (IH e1 k1 e1 eq_refl).
    cbn [run_jobs rt_jobs rt_engine]. rewrite <- Ho. reflexivity.
Qed.

(** C2 fails on the code.  [reset] does not await [changeColor]: the
    continuation of [changeColor] sets the strap to ['selected'] after
    [changeStrap] has stored the default strap.  On the product whose default
    strap is ['orange'], from every prior selection, the state after [reset]
    and all the work it started is red / selected / studio, not the declared
    defaults red / orange / studio.  Every texture involved is in the cache
    (no request is made), so each [await] is on a settled promise and the
    jobs run in the order of the queue. *)
Theorem reset_ends_with_the_dynamic_strap (prior : SelectionState) :
  let rt := run_jobs 64 (reset (idle (with_currentState prior Sample.shop_orange))).1 in
  XRUpgradeConfigurator.validateConfiguration Sample.product_orange = inl tt
  /\ settled rt
  /\ defaultStrap (config (rt_engine rt)) = Some "orange"
  /\ getState (rt_engine rt)
     = {| color := Some "red"; strap := Some "selected"; environment := Some "studio" |}
  /\ requested (rt_engine rt) = requested Sample.shop_orange
  /\ emitted_since Sample.shop_orange (rt_engine rt)
     = [("colorChanged", PId (Some "red"));
        ("environmentChanged", PId (Some "studio"));
        ("reset", PState {| color := Some "red"; strap := Some "orange";
                            environment := Some "studio" |});
        ("strapChanged", PId (Some "orange"));
        ("strapChanged", PId (Some "selected"))].
Proof.
  vm_compute. repeat split.
Qed.

(** When texture application fails instead, the rollback of [changeColor]
    restores the colour that was current before [reset]. *)
Lemma reset_without_materials_keeps_the_prior_color :
  let prior := {| color := Some "blue"; strap := Some "selected";
                  environment := Some "beach" |} in
  let rt := run_jobs 64 (reset (idle (with_currentState prior Sample.unresolved))).1 in
  settled rt
  /\ materials (rt_engine rt) = None
  /\ getState (rt_engine rt)
     = {| color := Some "blue"; strap := Some "selected"; environment := Some "studio" |}.
Proof.
  vm_compute. repeat split.
Qed.

(** C6 fails on the code, for the same reason.  The selection
    red / orange / beach is serialized by [getShareURL]; applying the query
    parameters of that URL on a freshly initialized page ends, once all work
    has settled, in red / selected / beach. *)
Theorem share_url_round_trip_loses_the_strap :
  let url := getShareURL "https://example.com/" Sample.sharing in
  let rt := run_jobs 64
              (XRUpgradeConfigurator.applyURLParameters (url_search url) false
                 (idle Sample.shop_orange)).1 in
  url_search url = [("color", "red"); ("strap", "orange"); ("environment", "beach")]
  /\ getState Sample.sharing
     = {| color := Some "red"; strap := Some "orange"; environment := Some "beach" |}
  /\ settled rt
  /\ requested (rt_engine rt) = requested Sample.shop_orange
  /\ getState (rt_engine rt)
     = {| color := Some "red"; strap := Some "selected"; environment := Some "beach" |}
  /\ getState (rt_engine rt) <> getState Sample.sharing.
Proof.
  vm_compute. repeat split. discriminate.
Qed.

End Detached.

(** ** Interleaved runs of the texture methods *)

Section InterleavedMethods.

Import ConfiguratorEngine.

Variables Rw Rs G : Engine -> Engine -> Prop.
Hypothesis G_refl : forall e, G e e.
Hypothesis G_quiet : forall e0 e e', G e0 e -> quiet e e' -> G e0 e'.

Local Abbreviation wpm := (wpm Rw Rs G).
Local Abbreviation stable := (stable Rw Rs).

Lemma wpm_mono {A} (b : bool) (e0 : Engine) (o : Outcome A)
    (Q Q' : bool -> Engine -> Engine -> A + JsError -> Prop) :
  (forall b' e0' e' r, Q b' e0' e' r -> Q' b' e0' e' r) ->
  wpm b e0 o Q -> wpm b e0 o Q'.
Proof.
  intros HQ. revert b e0. induction o as [e a|e x|e k IH]; intros b e0; cbn; auto.
  intros [Hg Hk]. split; [exact Hg|]. intros e' Hr. apply IH, Hk, Hr.
Qed.

Lemma wpm_bindO {A B} (b : bool) (e0 : Engine) (o : Outcome A) (f : A -> M B)
    (Q : bool -> Engine -> Engine -> B + JsError -> Prop) :
  wpm b e0 o (fun b' e0' e' r =>
                match r with
                | inl a => wpm b' e0' (f a e') Q
                | inr x => Q b' e0' e' (inr x)
                end) ->
  wpm b e0 (bindO o f) Q.
Proof.
  revert b e0. induction o as [e a|e x|e k IH]; intros b e0; cbn; auto.
  intros [Hg Hk]. split; [exact Hg|]. intros e' Hr. apply IH, Hk, Hr.
Qed.

Lemma wpm_catchO {A} (b : bool) (e0 : Engine) (o : Outcome A) (h : JsError -> M A)
    (Q : bool -> Engine -> Engine -> A + JsError -> Prop) :
  wpm b e0 o (fun b' e0' e' r =>
                match r with
                | inl a => Q b' e0' e' (inl a)
                | inr x => wpm b' e0' (h x e') Q
                end) ->
  wpm b e0 (catchO o h) Q.
Proof.
  revert b e0. induction o as [e a|e x|e k IH]; intros b e0; cbn; auto.
  intros [Hg Hk]. split; [exact Hg|]. intros e' Hr. apply IH, Hk, Hr.
Qed.

Lemma wpm_awaitO {A} (b : bool) (e0 : Engine) (o : Outcome A)
    (Q : bool -> Engine -> Engine -> A + JsError -> Prop) :
  wpm b e0 o (fun b' e0' e' r =>
                G e0' e' /\ forall e'', rely Rw Rs b' e' e'' -> Q false e'' e'' r) ->
  wpm b e0 (awaitO o) Q.
Proof.
  revert b e0. induction o as [e a|e x|e k IH]; intros b e0; cbn; auto.
  intros [Hg Hk]. split; [exact Hg|]. intros e' Hr. apply IH, Hk, Hr.
Qed.

Lemma stable_later (b : bool) (I : Engine -> Prop) : stable b I -> stable false I.
Proof. intros H e e' [Hr|[Hr|Hq]]; apply H; auto. Qed.

Lemma quiet_refl (e : Engine) : quiet e e.
Proof. by repeat split. Qed.

(** A texture request, interleaved: it always produces a value. *)
Lemma wpm_getTexture (b : bool) (I : Engine -> Prop) (url : jsstr) (e0 e : Engine)
    (Q : bool -> Engine -> Engine -> option Texture + JsError -> Prop) :
  stable b I -> G e0 e -> I e ->
  (forall b' e0' e' t, stable b' I -> G e0' e' -> I e' -> Q b' e0' e' (inl t)) ->
  wpm b e0 (getTexture url e) Q.
Proof.
  intros HI Hg Hi HQ.
  pose proof (stable_later _ _ HI) as HI'.
  unfold getTexture, bind, get. cbn [bindO].
  destruct (textureCache e !! url) as [t|] eqn:Hc; [by apply HQ|].
  apply wpm_awaitO. unfold preloadTexture, bind, get. cbn [bindO]. rewrite Hc.
  apply wpm_catchO, wpm_bindO, wpm_awaitO.
  unfold createTexture. destruct (modelViewer e) as [v|].
  - destruct (mv_createTexture v (length (requested e)) url) as [t|]; cbn [wpm].
    + split; [apply (G_quiet _ _ _ Hg); by repeat split|].
      intros e1 Hr1. cbn. split; [apply G_quiet with e1; [apply G_refl|by repeat split]|].
      intros e2 Hr2. apply HQ; [exact HI'|apply G_refl|].
      apply (HI' _ _ (or_introl Hr2)).
      eapply HI'; [right; right|]; [|eapply HI; [left; exact Hr1|]];
        [by repeat split|].
      eapply HI; [right; right|exact Hi]. by repeat split.
    + split; [apply (G_quiet _ _ _ Hg); by repeat split|].
      intros e1 Hr1. cbn. split; [apply G_quiet with e1; [apply G_refl|by repeat split]|].
      intros e2 Hr2. apply HQ; [exact HI'|apply G_refl|].
      apply (HI' _ _ (or_introl Hr2)).
      eapply HI'; [right; right|]; [|eapply HI; [left; exact Hr1|]];
        [by repeat split|].
      eapply HI; [right; right|exact Hi]. by repeat split.
  - cbn [wpm]. split; [exact Hg|].
    intros e1 Hr1. cbn. split; [apply G_quiet with e1; [apply G_refl|by repeat split]|].
    intros e2 Hr2. apply HQ; [exact HI'|apply G_refl|].
    apply (HI' _ _ (or_introl Hr2)).
    eapply HI'; [right; right|]; [|eapply HI; [left; exact Hr1|exact Hi]].
    by repeat split.
Qed.

(** An awaited texture request, as the methods use it. *)
Lemma wpm_await_getTexture (b : bool) (I : Engine -> Prop) (url : jsstr) (e0 e : Engine)
    (Q : bool -> Engine -> Engine -> option Texture + JsError -> Prop) :
  stable b I -> G e0 e -> I e ->
  (forall e' t, I e' -> Q false e' e' (inl t)) ->
  wpm b e0 (await (getTexture url) e) Q.
Proof.
  intros HI Hg Hi HQ. apply wpm_awaitO.
  apply (wpm_getTexture b I); auto. intros b1 e1 e1' t1 HI1 Hg1 Hi1.
  split; [exact Hg1|]. intros e2 Hr2. apply HQ.
  eapply HI1; [left; exact Hr2|exact Hi1].
Qed.

(** Texture application, interleaved: with materials that can take a
    texture it returns normally, whatever the other jobs do to the cache. *)
Lemma wpm_applyColorTextures (b : bool) (I : Engine -> Prop) (c : ColorOption)
    (e0 e : Engine) (Q : bool -> Engine -> Engine -> unit + JsError -> Prop) :
  stable b I -> G e0 e -> I e ->
  can_apply (materials e) c = true ->
  (forall e0' e', G e0' e' -> I e' -> Q false e0' e' (inl tt)) ->
  wpm b e0 (applyColorTextures c e) Q.
Proof.
  intros HI Hg Hi Hcan HQ.
  pose proof (stable_later _ _ HI) as HI'.
  unfold can_apply in Hcan. unfold applyColorTextures, bind, get. cbn [bindO].
  destruct (materials e) as [[[p|] [s|] [a|]]|]; try discriminate.
  destruct (textures c) as [tx|]; [|discriminate].
  apply andb_prop in Hcan as [Hcan Hpr]. apply andb_prop in Hcan as [Hcan Hab].
  apply andb_prop in Hcan as [Hpb Hsb].
  cbn [m_primary m_secondary m_accent].
  apply wpm_bindO, (wpm_await_getTexture b I); auto. intros e1 t1 Hi1.
  apply wpm_bindO, (wpm_await_getTexture false I); auto. intros e2 t2 Hi2.
  apply wpm_bindO, (wpm_await_getTexture false I); auto. intros e3 t3 Hi3.
  unfold setTexture. rewrite Hpb, Hsb, Hab, Hpr.
  unfold bind, modify. cbn [bindO wpm].
  apply HQ.
  - apply G_quiet with e3; [apply G_refl|]. by repeat split.
  - eapply HI'; [right; right|exact Hi3]. by repeat split.
Qed.

Lemma wpm_applyStrapConfiguration (b : bool) (I : Engine -> Prop) (strapId : jsstr)
    (c : ColorOption) (e0 e : Engine)
    (Q : bool -> Engine -> Engine -> unit + JsError -> Prop) :
  stable b I -> G e0 e -> I e ->
  can_apply (materials e) c = true ->
  (forall b' e0' e', stable b' I -> G e0' e' -> I e' -> Q b' e0' e' (inl tt)) ->
  wpm b e0 (applyStrapConfiguration strapId e) Q.
Proof.
  intros HI Hg Hi Hcan HQ.
  pose proof (stable_later _ _ HI) as HI'.
  unfold can_apply in Hcan. unfold applyStrapConfiguration, bind, get. cbn [bindO].
  destruct (materials e) as [[[p|] [s|] [a|]]|]; try discriminate.
  destruct (textures c) as [tx|]; [|discriminate].
  apply andb_prop in Hcan as [Hcan _]. apply andb_prop in Hcan as [_ Hab].
  cbn [m_accent].
  assert (forall (strapTexture : jsstr) e1,
             G e0 e1 -> I e1 ->
             wpm b e0
               ((if truthy strapTexture
                 then fun e2 => bindO (await (getTexture strapTexture) e2)
                                  (fun t => setTexture a BaseColor t)
                 else ret tt) e1) Q) as Hk.
  { intros st e1 Hg1 Hi1. destruct (truthy st); [|by apply HQ].
    apply wpm_bindO, (wpm_await_getTexture b I); auto. intros e2 t2 Hi2.
    unfold setTexture. rewrite Hab. cbn. apply HQ; [exact HI'| |].
    - apply G_quiet with e2; [apply G_refl|]. by repeat split.
    - eapply HI'; [right; right|exact Hi2]. by repeat split. }
  destruct (strict_eq strapId (Some "selected")).
  - destruct (find_color _ _) as [cc|]; [destruct (textures cc)|]; cbn [ret bindO];
      by apply Hk.
  - destruct (find_strap _ _) as [st|].
    + destruct (truthy (texture st)); cbn [ret bindO]; by apply Hk.
    + cbn [Logger_error modify bindO ret]. apply Hk.
      * apply (G_quiet _ _ _ Hg). by repeat split.
      * eapply HI; [right; right|exact Hi]. by repeat split.
Qed.

End InterleavedMethods.

(** ** Two interleaved jobs on the FIFO queue *)

Section TwoJobs.

Variables Rw1 Rs1 G1 Rw2 Rs2 G2 F : Engine -> Engine -> Prop.
Variables Q1 Q2 : Engine -> Prop.

Hypothesis Rs1_refl : forall e, Rs1 e e.
Hypothesis Rs2_refl : forall e, Rs2 e e.
Hypothesis G2_in_Rs1 : forall e e', G2 e e' -> Rs1 e e'.
Hypothesis G1_in_Rs2 : forall e e', G1 e e' -> Rs2 e e'.
Hypothesis Q1_stable : forall e e', Q1 e -> G2 e e' -> Q1 e'.
Hypothesis Q2_stable : forall e e', Q2 e -> G1 e e' -> Q2 e'.
Hypothesis F_refl : forall e, F e e.
Hypothesis F_trans : forall e1 e2 e3, F e1 e2 -> F e2 e3 -> F e1 e3.
Hypothesis G1_in_F : forall e e', G1 e e' -> F e e'.
Hypothesis G2_in_F : forall e e', G2 e e' -> F e e'.

(** The last job of the queue runs to its end. *)
Lemma last_job (Rw Rs G : Engine -> Engine -> Prop) (Q : Engine -> Prop)
    (o : Outcome unit) :
  (forall e, Rs e e) ->
  forall (k : Job) (e : Engine) (classes : list string),
    k e = o ->
    wpm Rw Rs G false e o (fun _ e0 e' _ => G e0 e' /\ Q e') ->
    exists fuel ef,
      run_jobs fuel {| rt_engine := e; rt_jobs := [k]; rt_body_classes := classes |}
      = {| rt_engine := ef; rt_jobs := []; rt_body_classes := classes |}
      /\ Q ef /\ rtc G e ef.
Proof.
  intros Hrefl. induction o as [e1 a|e1 x|e1 k1 IH]; intros k e classes Hk Hwp.
  - destruct Hwp as [Hg Hq]. exists 1, e1. cbn. rewrite Hk. cbn.
    split; [reflexivity|]. split; [exact Hq|by apply rtc_once].
  - destruct Hwp as [Hg Hq]. exists 1, e1. cbn. rewrite Hk. cbn.
    split; [reflexivity|]. split; [exact Hq|by apply rtc_once].
  - destruct Hwp as [Hg Hnext].
    destruct (IH e1 k1 e1 classes eq_refl (Hnext e1 (Hrefl e1)))
      as (fuel & ef & Hrun & Hq & Hrtc).
    exists (S fuel), ef. cbn [run_jobs rt_jobs rt_engine]. rewrite Hk.
    split; [exact Hrun|]. split; [exact Hq|].
    eapply rtc_l; [exact Hg|exact Hrtc].
Qed.

Lemma rtc_in (R T : Engine -> Engine -> Prop) (e e' : Engine) :
  (forall a, T a a) -> (forall a b c, T a b -> T b c -> T a c) ->
  (forall a b, R a b -> T a b) ->
  rtc R e e' -> T e e'.
Proof.
  intros Hr Ht Hin H. induction H as [|a b c Hab _ IH]; [apply Hr|].
  eapply Ht; [apply Hin, Hab|exact IH].
Qed.

Lemma rtc_keeps (R : Engine -> Engine -> Prop) (Q : Engine -> Prop) (e e' : Engine) :
  (forall a b, Q a -> R a b -> Q b) -> rtc R e e' -> Q e -> Q e'.
Proof. intros Hs H. induction H; eauto. Qed.

(** Two jobs, the first about to run: both run to their ends, each keeping
    its guarantee and relying on the other's. *)
Lemma two_jobs (o1 : Outcome unit) :
  forall (k1 k2 : Job) (e : Engine) (classes : list string),
    k1 e = o1 ->
    wpm Rw1 Rs1 G1 false e o1 (fun _ e0 e' _ => G1 e0 e' /\ Q1 e') ->
    (forall e', Rs2 e e' ->
                wpm Rw2 Rs2 G2 false e' (k2 e') (fun _ e0 e'' _ => G2 e0 e'' /\ Q2 e'')) ->
    exists fuel ef,
      run_jobs fuel {| rt_engine := e; rt_jobs := [k1; k2]; rt_body_classes := classes |}
      = {| rt_engine := ef; rt_jobs := []; rt_body_classes := classes |}
      /\ Q1 ef /\ Q2 ef /\ F e ef.
Proof.
  induction o1 as [e1 a|e1 x|e1 k1' IH]; intros k1 k2 e classes Hk1 Hwp1 Hwp2.
  - destruct Hwp1 as [Hg1 Hq1].
    destruct (last_job Rw2 Rs2 G2 Q2 (k2 e1) Rs2_refl k2 e1 classes eq_refl
                (Hwp2 e1 (G1_in_Rs2 _ _ Hg1))) as (fuel & ef & Hrun & Hq2 & Hrtc).
    exists (S fuel), ef. cbn [run_jobs rt_jobs rt_engine]. rewrite Hk1.
    split; [exact Hrun|]. split; [exact (rtc_keeps _ _ _ _ Q1_stable Hrtc Hq1)|].
    split; [exact Hq2|].
    eapply F_trans; [apply G1_in_F, Hg1|exact (rtc_in _ _ _ _ F_refl F_trans G2_in_F Hrtc)].
  - destruct Hwp1 as [Hg1 Hq1].
    destruct (last_job Rw2 Rs2 G2 Q2 (k2 e1) Rs2_refl k2 e1 classes eq_refl
                (Hwp2 e1 (G1_in_Rs2 _ _ Hg1))) as (fuel & ef & Hrun & Hq2 & Hrtc).
    exists (S fuel), ef. cbn [run_jobs rt_jobs rt_engine]. rewrite Hk1.
    split; [exact Hrun|]. split; [exact (rtc_keeps _ _ _ _ Q1_stable Hrtc Hq1)|].
    split; [exact Hq2|].
    eapply F_trans; [apply G1_in_F, Hg1|exact (rtc_in _ _ _ _ F_refl F_trans G2_in_F Hrtc)].
  - destruct Hwp1 as [Hg1 Hnext1].
    pose proof (Hwp2 e1 (G1_in_Rs2 _ _ Hg1)) as Hwp2'.
    destruct (k2 e1) as [e2 a|e2 x|e2 k2'] eqn:Hk2.
    + destruct Hwp2' as [Hg2 Hq2].
      destruct (last_job Rw1 Rs1 G1 Q1 (k1' e2) Rs1_refl k1' e2 classes eq_refl
                  (Hnext1 e2 (G2_in_Rs1 _ _ Hg2))) as (fuel & ef & Hrun & Hq1 & Hrtc).
      exists (S (S fuel)), ef. cbn [run_jobs rt_jobs rt_engine]. rewrite Hk1.
      cbn [with_jobs rt_jobs rt_engine app]. rewrite Hk2.
      split; [exact Hrun|]. split; [exact Hq1|].
      split; [exact (rtc_keeps _ _ _ _ Q2_stable Hrtc Hq2)|].
      eapply F_trans; [apply G1_in_F, Hg1|].
      eapply F_trans; [apply G2_in_F, Hg2|].
      exact (rtc_in _ _ _ _ F_refl F_trans G1_in_F Hrtc).
    + destruct Hwp2' as [Hg2 Hq2].
      destruct (last_job Rw1 Rs1 G1 Q1 (k1' e2) Rs1_refl k1' e2 classes eq_refl
                  (Hnext1 e2 (G2_in_Rs1 _ _ Hg2))) as (fuel & ef & Hrun & Hq1 & Hrtc).
      exists (S (S fuel)), ef. cbn [run_jobs rt_jobs rt_engine]. rewrite Hk1.
      cbn [with_jobs rt_jobs rt_engine app]. rewrite Hk2.
      split; [exact Hrun|]. split; [exact Hq1|].
      split; [exact (rtc_keeps _ _ _ _ Q2_stable Hrtc Hq2)|].
      eapply F_trans; [apply G1_in_F, Hg1|].
      eapply F_trans; [apply G2_in_F, Hg2|].
      exact (rtc_in _ _ _ _ F_refl F_trans G1_in_F Hrtc).
    + destruct Hwp2' as [Hg2 Hnext2].
      destruct (IH e2 k1' k2' e2 classes eq_refl (Hnext1 e2 (G2_in_Rs1 _ _ Hg2)) Hnext2)
        as (fuel & ef & Hrun & Hq1 & Hq2 & Hf).
      exists (S (S fuel)), ef. cbn [run_jobs rt_jobs rt_engine]. rewrite Hk1.
      cbn [with_jobs rt_jobs rt_engine app]. rewrite Hk2.
      split; [exact Hrun|]. split; [exact Hq1|]. split; [exact Hq2|].
      eapply F_trans; [apply G1_in_F, Hg1|].
      eapply F_trans; [apply G2_in_F, Hg2|exact Hf].
Qed.

End TwoJobs.

(** ** The change operations as jobs *)

Section Jobs.

Import ConfiguratorEngine.

Lemma awaitO_suspends {A} (o : Outcome A) : exists e k, awaitO o = Suspend e k.
Proof. destruct o; eexists _, _; reflexivity. Qed.

Lemma keeps_color_and_environment_refl (e : Engine) : keeps_color_and_environment e e.
Proof. by repeat split. Qed.

Lemma keeps_color_and_environment_trans (e1 e2 e3 : Engine) :
  keeps_color_and_environment e1 e2 -> keeps_color_and_environment e2 e3 ->
  keeps_color_and_environment e1 e3.
Proof.
  intros [[[? ?] ?] ?] [[[? ?] ?] ?]. repeat split; congruence.
Qed.

Lemma quiet_keeps_color_and_environment (e e' : Engine) :
  quiet e e' -> keeps_color_and_environment e e'.
Proof. intros [[? ?] Hsel]. repeat split; congruence. Qed.

Lemma keeps_then_quiet (e0 e e' : Engine) :
  keeps_color_and_environment e0 e -> quiet e e' -> keeps_color_and_environment e0 e'.
Proof.
  intros H Hq. eapply keeps_color_and_environment_trans; [exact H|].
  by apply quiet_keeps_color_and_environment.
Qed.

Lemma quiet_trans (e1 e2 e3 : Engine) : quiet e1 e2 -> quiet e2 e3 -> quiet e1 e3.
Proof. intros [[? ?] ?] [[? ?] ?]. repeat split; congruence. Qed.

(** [changeColor] on a colour it can apply: it suspends, and what is left of
    it, resumed after jobs that kept the colour and run among jobs that keep
    the whole selection, keeps colour and environment and ends with the
    dynamic strap selected. *)
Lemma changeColor_job (e : Engine) (colorId : jsstr) (c : ColorOption) :
  find_color colorId (config e) = Some c ->
  can_apply (materials e) c = true ->
  exists e1 k1,
    changeColor colorId e = Suspend e1 k1
    /\ keeps_color_and_environment (optimistic colorId e) e1
    /\ forall e',
         keeps_color e1 e' ->
         wpm keeps_color quiet keeps_color_and_environment false e' (k1 e')
           (fun _ e0 e2 _ =>
              keeps_color_and_environment e0 e2
              /\ strap (currentState e2) = Some "selected").
Proof.
  intros Hc Hcan.
  unfold changeColor, bind, get, try_catch, await. cbn [bindO]. rewrite Hc.
  unfold set_color, modify. cbn [bindO]. rewrite notifyListeners_returns. cbn [bindO].
  fold (optimistic colorId e).
  match goal with
  | |- context [catchO (bindO (awaitO ?X) ?f) ?h] =>
      assert (wpm keeps_color quiet keeps_color_and_environment true
                (optimistic colorId e) (catchO (bindO (awaitO X) f) h)
                (fun _ e0 e2 _ =>
                   keeps_color_and_environment e0 e2
                   /\ strap (currentState e2) = Some "selected")) as Hwp;
        [|destruct (awaitO_suspends X) as (e1 & k1 & Hs); rewrite Hs in *;
          cbn [bindO catchO wpm] in *; destruct Hwp as [Hg Hnext];
          eexists _, _; split; [reflexivity|]; split; [exact Hg|exact Hnext]]
  end.
  apply wpm_catchO, wpm_bindO, wpm_awaitO.
  apply (wpm_applyColorTextures keeps_color quiet keeps_color_and_environment
           keeps_color_and_environment_refl keeps_then_quiet
           true (fun e' => materials e' = materials e)); auto.
  { intros a b [[[_ H] _]|[[[_ H] _]|[[_ H] _]]] Ha; congruence. }
  { apply keeps_color_and_environment_refl. }
  intros e0' e2 Hg2 Hm2. split; [exact Hg2|]. intros e3 Hq3. cbn in Hq3.
  assert (materials e3 = materials e) as Hm3
    by (destruct Hq3 as [[_ H] _]; congruence).
  unfold set_strap, modify. cbn [bindO].
  apply wpm_bindO, wpm_awaitO.
  apply (wpm_applyStrapConfiguration keeps_color quiet keeps_color_and_environment
           keeps_color_and_environment_refl keeps_then_quiet
           false (fun e' => materials e' = materials e
                            /\ strap (currentState e') = Some "selected")
           (Some "selected") c).
  { intros a b [[[_ H1] H2]|[[[_ H1] H2]|[[_ H1] H2]]] [Ha Hb]; split; congruence. }
  { by repeat split. }
  { by split. }
  { cbn. by rewrite Hm3. }
  intros b' e0'' e4 Hst Hg4 [Hm4 Hs4]. split; [exact Hg4|]. intros e5 Hq5.
  assert (strap (currentState e5) = Some "selected") as Hs5.
  { eapply (Hst e4 e5 (or_introl Hq5)); by split. }
  rewrite notifyListeners_returns. cbn [wpm].
  split; [by repeat split|exact Hs5].
Qed.

(** [changeStrap] on a known strap: it suspends, and what is left of it
    never touches the selection, whatever the other jobs do to it. *)
Lemma changeStrap_job (e : Engine) (strapId : jsstr) (s : StrapOption) (c : ColorOption) :
  find_strap strapId (config e) = Some s ->
  can_apply (materials e) c = true ->
  exists e2 k2,
    changeStrap strapId e = Suspend e2 k2
    /\ keeps_color_and_environment e e2
    /\ forall e',
         same_model e2 e' ->
         wpm same_model same_model quiet false e' (k2 e')
           (fun _ e0 e3 _ => quiet e0 e3 /\ True).
Proof.
  intros Hs Hcan.
  unfold changeStrap, bind, get, try_catch, await. cbn [bindO]. rewrite Hs.
  unfold set_strap, modify. cbn [bindO].
  match goal with
  | |- context [catchO (bindO (awaitO (applyStrapConfiguration strapId ?e1)) ?f) ?h] =>
      assert (wpm same_model same_model quiet true e1
                (catchO (bindO (awaitO (applyStrapConfiguration strapId e1)) f) h)
                (fun _ e0 e3 _ => quiet e0 e3 /\ True)) as Hwp;
        [|destruct (awaitO_suspends (applyStrapConfiguration strapId e1))
            as (e2 & k2 & Hsus); rewrite Hsus in *;
          cbn [bindO catchO wpm] in *; destruct Hwp as [Hg Hnext];
          eexists _, _; split; [reflexivity|]; split; [|exact Hnext]]
  end.
  - apply wpm_catchO, wpm_bindO, wpm_awaitO.
    apply (wpm_applyStrapConfiguration same_model same_model quiet
             quiet_refl quiet_trans
             true (fun e' => materials e' = materials e) strapId c); auto.
    { intros a b [[_ H]|[[_ H]|[[_ H] _]]] Ha; congruence. }
    { apply quiet_refl. }
    intros b' e0' e3 Hst Hg3 Hm3. split; [exact Hg3|]. intros e4 Hq4.
    rewrite notifyListeners_returns. cbn [wpm]. split; [by repeat split|exact I].
  - apply quiet_keeps_color_and_environment in Hg.
    eapply keeps_color_and_environment_trans; [|exact Hg]. by repeat split.
Qed.

Lemma changeEnvironment_returns (e : Engine) (environmentId : jsstr) :
  exists e3,
    changeEnvironment environmentId e = Return e3 tt
    /\ keeps_color e e3
    /\ strap (currentState e3) = strap (currentState e)
    /\ environment (currentState e3)
       = match find_environment environmentId (config e) with
         | Some _ => environmentId
         | None => environment (currentState e)
         end.
Proof.
  unfold changeEnvironment, bind, get. cbn [bindO].
  destruct (find_environment environmentId (config e)).
  - unfold set_environment, modify. cbn [bindO].
    match goal with
    | |- context [list_find ?P ?l] => destruct (list_find P l) as [[i el]|]
    end; rewrite notifyListeners_returns; eexists; (split; [reflexivity|]);
      by repeat split.
  - eexists. split; [reflexivity|]. by repeat split.
Qed.

End Jobs.

(** ** What [reset] and the URL parameters do to the strap, in general *)

Section DetachedInGeneral.

Import ConfiguratorEngine.

(** Two started change operations and the synchronous tail of their caller:
    once the queue is empty, the colour is the one [changeColor] was given,
    the strap is the dynamic one, and the environment is the caller's. *)
Lemma color_then_strap_ends_dynamic
    (e1 e2 e4 : Engine) (k1 k2 : Job) (colorId : jsstr) (classes : list string) :
  (forall e',
     keeps_color e1 e' ->
     wpm keeps_color quiet keeps_color_and_environment false e' (k1 e')
       (fun _ e0 e2 _ =>
          keeps_color_and_environment e0 e2
          /\ strap (currentState e2) = Some "selected")) ->
  (forall e',
     same_model e2 e' ->
     wpm same_model same_model quiet false e' (k2 e')
       (fun _ e0 e3 _ => quiet e0 e3 /\ True)) ->
  keeps_color e1 e4 ->
  same_model e2 e4 ->
  exists fuel ef,
    run_jobs fuel {| rt_engine := e4; rt_jobs := [k1; k2]; rt_body_classes := classes |}
    = {| rt_engine := ef; rt_jobs := []; rt_body_classes := classes |}
    /\ strap (currentState ef) = Some "selected"
    /\ keeps_color_and_environment e4 ef.
Proof.
  intros H1 H2 H14 H24.
  destruct (two_jobs keeps_color quiet keeps_color_and_environment
              same_model same_model quiet keeps_color_and_environment
              (fun e => strap (currentState e) = Some "selected") (fun _ => True))
    with (o1 := k1 e4) (k1 := k1) (k2 := k2) (e := e4) (classes := classes)
    as (fuel & ef & Hrun & Hq1 & _ & Hf); auto.
  - apply quiet_refl.
  - by intros; split.
  - intros a b [[[? ?] ?] ?]. by split.
  - intros a b Ha [_ Hb]. congruence.
  - apply keeps_color_and_environment_refl.
  - apply keeps_color_and_environment_trans.
  - apply quiet_keeps_color_and_environment.
  - intros e' [Hc Hm]. apply H2. destruct H24. split; congruence.
  - exists fuel, ef. auto.
Qed.

(** X18. What [reset] does, for every configuration and every engine: whenever
    the default colour is known and can be applied and the default strap is
    known, the state after [reset] and all the work it started has the
    default colour, the default environment (if known), and the dynamic strap
    ['selected'], whatever the default strap is.  The argument does not
    depend on which texture requests hit the cache or fail. *)
Theorem reset_always_ends_with_the_dynamic_strap
    (e : Engine) (c : ColorOption) (s : StrapOption) :
  let cfg := config e in
  let dc := js_or (defaultColor cfg) (defaults_color cfg) in
  let ds := js_or (defaultStrap cfg) (defaults_strap cfg) in
  let de := js_or (defaultEnvironment cfg) (defaults_environment cfg) in
  find_color dc cfg = Some c ->
  can_apply (materials e) c = true ->
  find_strap ds cfg = Some s ->
  exists fuel ef,
    run_jobs fuel (reset (idle e)).1 = idle ef
    /\ color (getState ef) = dc
    /\ strap (getState ef) = Some "selected"
    /\ environment (getState ef)
       = match find_environment de cfg with
         | Some _ => de
         | None => environment (getState e)
         end.
Proof.
  intros cfg dc ds de Hc Hcan Hs.
  destruct (changeColor_job e dc c Hc Hcan) as (e1 & k1 & Hk1 & Hg1 & Hjob1).
  assert (config e1 = cfg /\ materials e1 = materials e
          /\ color (currentState e1) = dc
          /\ environment (currentState e1) = environment (currentState e))
    as (Hcfg1 & Hm1 & Hcol1 & Henv1).
  { destruct Hg1 as [[[? ?] ?] ?]. cbn in *. auto. }
  destruct (changeStrap_job e1 ds s c) as (e2 & k2 & Hk2 & Hg2 & Hjob2);
    [by rewrite Hcfg1|by rewrite Hm1|].
  destruct (changeEnvironment_returns e2 de) as (e3 & Hk3 & Hg3 & Hs3 & Henv3).
  unfold reset, bindR, call_sync, call_async, idle.
  cbn [settle bind bindO get ret rt_engine rt_jobs rt_body_classes with_engine with_jobs].
  fold cfg. fold dc ds de. rewrite Hk1.
  cbn [settle bind bindO get ret rt_engine rt_jobs rt_body_classes with_engine with_jobs].
  rewrite Hk2.
  cbn [settle bind bindO get ret rt_engine rt_jobs rt_body_classes with_engine with_jobs app].
  rewrite Hk3.
  cbn [settle bind bindO get ret rt_engine rt_jobs rt_body_classes with_engine with_jobs].
  rewrite notifyListeners_returns.
  cbn [settle fst rt_engine rt_jobs rt_body_classes with_engine with_jobs].
  destruct (color_then_strap_ends_dynamic e1 e2
              (notified "reset" (PState (currentState e3)) e3) k1 k2 dc [])
    as (fuel & ef & Hrun & Hstrap & Hf); auto.
  - destruct Hg2 as [[[? ?] ?] ?], Hg3 as [[? ?] ?]. repeat split; cbn; congruence.
  - destruct Hg3 as [[? ?] ?]. by split.
  - exists fuel, ef. split; [exact Hrun|].
    destruct Hf as [[[? ?] Hcolf] Henvf]. cbn in Hcolf, Henvf.
    destruct Hg2 as [[[Hcfg2 ?] Hcol2] Henv2], Hg3 as [[? ?] Hcol3].
    unfold getState. cbn. repeat split.
    + congruence.
    + exact Hstrap.
    + rewrite Henvf, Henv3, Hcfg2, Hcfg1. fold cfg. fold de.
      destruct (find_environment de cfg); congruence.
Qed.

Lemma share_params (a b c : string) :
  let params := [("color", a); ("strap", b); ("environment", c)] in
  params_has params "mobile" = false
  /\ params_has params "ar" = false
  /\ params_has params "color" = true /\ params_get params "color" = Some a
  /\ params_has params "strap" = true /\ params_get params "strap" = Some b
  /\ params_has params "environment" = true
  /\ params_get params "environment" = Some c.
Proof. cbv zeta. repeat split; by vm_compute. Qed.

(** X19. What the URL parameters do, for every configuration and every engine:
    applying the query parameters of a share URL, when the serialized colour
    is known and can be applied and the serialized strap is known, ends with
    the dynamic strap ['selected'], whatever strap was serialized. *)
Theorem share_url_always_ends_with_the_dynamic_strap
    (source e : Engine) (prefix : string) (isMobile : bool)
    (c : ColorOption) (s : StrapOption) :
  let url := getShareURL prefix source in
  let colorId := Some (to_String (color (getState source))) in
  let strapId := Some (to_String (strap (getState source))) in
  let environmentId := Some (to_String (environment (getState source))) in
  find_color colorId (config e) = Some c ->
  can_apply (materials e) c = true ->
  find_strap strapId (config e) = Some s ->
  exists fuel ef,
    run_jobs fuel
      (XRUpgradeConfigurator.applyURLParameters (url_search url) isMobile (idle e)).1
    = idle ef
    /\ color (getState ef) = colorId
    /\ strap (getState ef) = Some "selected"
    /\ environment (getState ef)
       = match find_environment environmentId (config e) with
         | Some _ => environmentId
         | None => environment (getState e)
         end.
Proof.
  intros url colorId strapId environmentId Hc Hcan Hs.
  subst url colorId strapId environmentId.
  unfold getState in *. cbn [color strap environment] in *.
  set (colorId := Some (to_String (color (currentState source)))) in *.
  set (strapId := Some (to_String (strap (currentState source)))) in *.
  set (environmentId := Some (to_String (environment (currentState source)))) in *.
  destruct (changeColor_job e colorId c Hc Hcan) as (e1 & k1 & Hk1 & Hg1 & Hjob1).
  assert (config e1 = config e /\ materials e1 = materials e
          /\ color (currentState e1) = colorId
          /\ environment (currentState e1) = environment (currentState e))
    as (Hcfg1 & Hm1 & Hcol1 & Henv1).
  { destruct Hg1 as [[[? ?] ?] ?]. cbn in *. auto. }
  destruct (changeStrap_job e1 strapId s c) as (e2 & k2 & Hk2 & Hg2 & Hjob2);
    [by rewrite Hcfg1|by rewrite Hm1|].
  destruct (changeEnvironment_returns e2 environmentId)
    as (e3 & Hk3 & Hg3 & Hs3 & Henv3).
  unfold XRUpgradeConfigurator.applyURLParameters, getShareURL.
  cbn [url_search].
  destruct (share_params (to_String (color (currentState source)))
              (to_String (strap (currentState source)))
              (to_String (environment (currentState source))))
    as (-> & -> & -> & -> & -> & -> & -> & ->).
  fold colorId strapId environmentId.
  unfold bindR, call_sync, call_async, idle, retR.
  cbn [andb rt_engine rt_jobs rt_body_classes with_engine with_jobs].
  rewrite Hk1.
  cbn [rt_engine rt_jobs rt_body_classes with_engine with_jobs app].
  rewrite Hk2.
  cbn [rt_engine rt_jobs rt_body_classes with_engine with_jobs app].
  rewrite Hk3.
  cbn [settle fst rt_engine rt_jobs rt_body_classes with_engine with_jobs].
  destruct (color_then_strap_ends_dynamic e1 e2 e3 k1 k2 colorId [])
    as (fuel & ef & Hrun & Hstrap & Hf); auto.
  - destruct Hg2 as [[[? ?] ?] ?], Hg3 as [[? ?] ?]. repeat split; congruence.
  - destruct Hg3 as [[? ?] ?]. by split.
  - exists fuel, ef. split; [exact Hrun|].
    destruct Hf as [[[? ?] Hcolf] Henvf].
    destruct Hg2 as [[[Hcfg2 ?] Hcol2] Henv2], Hg3 as [[? ?] Hcol3].
    cbn. repeat split.
    + congruence.
    + exact Hstrap.
    + rewrite Henvf, Henv3, Hcfg2, Hcfg1.
      destruct (find_environment environmentId (config e)); congruence.
Qed.

End DetachedInGeneral.

(** * Further properties of the engine

    The sections below cover the methods around the change operations: the
    texture cache, the material slots, the strap, the environments, the
    subscriptions, preloading, cleanup and initialization. *)

(** ** Relations that every run of a method maintains *)

Section Maintained.

Import ConfiguratorEngine.

Variable T : Engine -> Engine -> Prop.
Hypothesis T_refl : forall e, T e e.
Hypothesis T_trans : forall e1 e2 e3, T e1 e2 -> T e2 e3 -> T e1 e3.

Lemma maintains_ret {A} (a : A) : maintains T (ret a).
Proof. intros e. apply T_refl. Qed.

Lemma maintains_throw {A} (x : JsError) : maintains T (@throw A x).
Proof. intros e. apply T_refl. Qed.

Lemma maintains_get : maintains T get.
Proof. intros e. apply T_refl. Qed.

Lemma maintains_modify (f : Engine -> Engine) :
  (forall e, T e (f e)) -> maintains T (modify f).
Proof. intros H e. apply H. Qed.

Lemma maintains_bind {A B} (m : M A) (f : A -> M B) :
  maintains T m -> (forall a, maintains T (f a)) -> maintains T (bind m f).
Proof.
  intros Hm Hf e. rewrite settle_bind. specialize (Hm e).
  destruct (settle (m e)) as [e1 [a|x]]; [|exact Hm].
  eapply T_trans; [exact Hm|apply Hf].
Qed.

Lemma maintains_try_catch {A} (m : M A) (h : JsError -> M A) :
  maintains T m -> (forall x, maintains T (h x)) -> maintains T (try_catch m h).
Proof.
  intros Hm Hh e. rewrite settle_try_catch. specialize (Hm e).
  destruct (settle (m e)) as [e1 [a|x]]; [exact Hm|].
  eapply T_trans; [exact Hm|apply Hh].
Qed.

Lemma maintains_await {A} (m : M A) : maintains T m -> maintains T (await m).
Proof. intros Hm e. rewrite settle_await. apply Hm. Qed.

(** The traces, the texture cache, the selection and the stage are free. *)
Hypothesis T_console : forall e l, T e (with_console_error l e).
Hypothesis T_requested : forall e l, T e (with_requested l e).
Hypothesis T_applied : forall e l, T e (with_applied l e).
Hypothesis T_emitted : forall e l, T e (with_emitted l e).
Hypothesis T_invoked : forall e l, T e (with_invoked l e).
Hypothesis T_cache :
  forall e url t, T e (with_textureCache (<[url := t]> (textureCache e)) e).
Hypothesis T_state : forall e s, T e (with_currentState s e).
Hypothesis T_stage : forall e l, T e (with_stage l e).

Lemma maintains_Logger_error (message : string) : maintains T (Logger_error message).
Proof. intros e. apply T_console. Qed.

Lemma maintains_notifyListeners (event : string) (data : Payload) :
  maintains T (notifyListeners event data).
Proof.
  intros e. rewrite notifyListeners_returns. unfold notified. cbn [settle fst].
  eapply T_trans; [apply T_emitted|]. eapply T_trans; [apply T_invoked|]. apply T_console.
Qed.

Lemma maintains_createTexture (url : jsstr) : maintains T (createTexture url).
Proof.
  intros e. unfold createTexture. destruct (modelViewer e) as [v|]; [|apply T_refl].
  destruct (mv_createTexture _ _ _); apply T_requested.
Qed.

Lemma maintains_preloadTexture (url : jsstr) : maintains T (preloadTexture url).
Proof.
  unfold preloadTexture. apply maintains_bind; [apply maintains_get|]. intros e0.
  destruct (textureCache e0 !! url); [apply maintains_ret|].
  apply maintains_try_catch.
  - apply maintains_bind; [apply maintains_await, maintains_createTexture|]. intros t.
    apply maintains_bind; [|intros; apply maintains_ret].
    apply maintains_modify. intros e. apply T_cache.
  - intros x. apply maintains_bind; [apply maintains_Logger_error|intros; apply maintains_ret].
Qed.

Lemma maintains_getTexture (url : jsstr) : maintains T (getTexture url).
Proof.
  unfold getTexture. apply maintains_bind; [apply maintains_get|]. intros e0.
  destruct (textureCache e0 !! url); [apply maintains_ret|].
  apply maintains_await, maintains_preloadTexture.
Qed.

Lemma maintains_setTexture (m : Material) (ch : Channel) (t : option Texture) :
  maintains T (setTexture m ch t).
Proof.
  unfold setTexture.
  destruct (match ch with BaseColor => _ | MetallicRoughness => _ end);
    [|apply maintains_throw].
  apply maintains_modify. intros e. apply T_applied.
Qed.

Lemma maintains_applyColorTextures (c : ColorOption) : maintains T (applyColorTextures c).
Proof.
  unfold applyColorTextures. apply maintains_bind; [apply maintains_get|]. intros e0.
  destruct (materials e0) as [ms|]; [|apply maintains_throw].
  destruct (m_primary ms), (m_secondary ms), (m_accent ms); try apply maintains_throw.
  destruct (textures c); [|apply maintains_throw].
  repeat (apply maintains_bind; [apply maintains_await, maintains_getTexture|intros ?]).
  repeat (apply maintains_bind; [apply maintains_setTexture|intros ?]).
  apply maintains_setTexture.
Qed.

Lemma maintains_applyStrapConfiguration (strapId : jsstr) :
  maintains T (applyStrapConfiguration strapId).
Proof.
  unfold applyStrapConfiguration. apply maintains_bind; [apply maintains_get|]. intros e0.
  destruct (materials e0) as [ms|]; [|apply maintains_throw].
  destruct (m_accent ms) as [a|].
  - apply maintains_bind.
    + destruct (strict_eq strapId (Some "selected")).
      * destruct (find_color _ _) as [cc|]; [|apply maintains_ret].
        destruct (textures cc); apply maintains_ret.
      * destruct (find_strap _ _) as [s|].
        -- destruct (truthy (texture s)); apply maintains_ret.
        -- apply maintains_bind; [apply maintains_Logger_error|intros; apply maintains_ret].
    + intros strapTexture. destruct (truthy strapTexture); [|apply maintains_ret].
      apply maintains_bind;
        [apply maintains_await, maintains_getTexture|intros; apply maintains_setTexture].
  - apply maintains_bind; [apply maintains_Logger_error|intros; apply maintains_throw].
Qed.

Lemma maintains_changeColor (colorId : jsstr) : maintains T (changeColor colorId).
Proof.
  unfold changeColor. apply maintains_bind; [apply maintains_get|]. intros e0.
  destruct (find_color _ _) as [c|]; [|apply maintains_Logger_error].
  apply maintains_bind; [apply maintains_modify; intros; apply T_state|intros _].
  apply maintains_bind; [apply maintains_notifyListeners|intros _].
  apply maintains_try_catch.
  - apply maintains_bind; [apply maintains_await, maintains_applyColorTextures|intros _].
    apply maintains_bind; [apply maintains_modify; intros; apply T_state|intros _].
    apply maintains_bind; [apply maintains_await, maintains_applyStrapConfiguration|intros _].
    apply maintains_notifyListeners.
  - intros x. apply maintains_bind; [apply maintains_Logger_error|intros _].
    apply maintains_bind; [apply maintains_modify; intros; apply T_state|intros _].
    apply maintains_bind; [apply maintains_notifyListeners|intros _].
    apply maintains_notifyListeners.
Qed.

Lemma maintains_changeStrap (strapId : jsstr) : maintains T (changeStrap strapId).
Proof.
  unfold changeStrap. apply maintains_bind; [apply maintains_get|]. intros e0.
  destruct (find_strap _ _) as [s|]; [|apply maintains_Logger_error].
  apply maintains_bind; [apply maintains_modify; intros; apply T_state|intros _].
  apply maintains_try_catch; [|intros; apply maintains_Logger_error].
  apply maintains_bind; [apply maintains_await, maintains_applyStrapConfiguration|intros _].
  apply maintains_notifyListeners.
Qed.

Lemma maintains_changeEnvironment (environmentId : jsstr) :
  maintains T (changeEnvironment environmentId).
Proof.
  unfold changeEnvironment. apply maintains_bind; [apply maintains_get|]. intros e0.
  destruct (find_environment _ _) as [s|]; [|apply maintains_Logger_error].
  apply maintains_bind; [apply maintains_modify; intros; apply T_state|intros _].
  apply maintains_bind; [apply maintains_modify; intros; apply T_stage|intros _].
  apply maintains_bind; [|intros _; apply maintains_notifyListeners].
  apply maintains_modify. intros e. cbv zeta.
  destruct (list_find _ _) as [[i el]|]; [apply T_stage|apply T_refl].
Qed.

End Maintained.

Section SetupUntouched.

Import ConfiguratorEngine.

Lemma setup_untouched_refl (e : Engine) : setup_untouched e e.
Proof. by split; try intros ? ?. Qed.

Lemma setup_untouched_trans (e1 e2 e3 : Engine) :
  setup_untouched e1 e2 -> setup_untouched e2 e3 -> setup_untouched e1 e3.
Proof.
  intros [? ? ? ? ? ? ? Hc1] [? ? ? ? ? ? ? Hc2]. split; try congruence.
  intros u Hu. by apply Hc2, Hc1.
Qed.

Lemma setup_untouched_cache (e : Engine) (url : jsstr) (t : Texture) :
  setup_untouched e (with_textureCache (<[url := t]> (textureCache e)) e).
Proof.
  split; try reflexivity. intros u Hu. cbn [textureCache with_textureCache].
  destruct (decide (url = u)) as [->|Hne].
  - rewrite lookup_insert_eq. by eexists.
  - by rewrite lookup_insert_ne.
Qed.

(** X2. A change of the selection, whether it succeeds, rolls back or is
    ignored, leaves the setup of the engine alone: [changeColor],
    [changeStrap], [changeEnvironment] and [getTexture] never change the
    configuration, the viewer, the material references, the subscriptions,
    the readiness flag or the timers, and never remove a texture from the
    cache. *)
Theorem change_operations_leave_the_setup_untouched (e : Engine) (id url : jsstr) :
  setup_untouched e (settle (changeColor id e)).1
  /\ setup_untouched e (settle (changeStrap id e)).1
  /\ setup_untouched e (settle (changeEnvironment id e)).1
  /\ setup_untouched e (settle (getTexture url e)).1.
Proof.
  assert (forall e0 l, setup_untouched e0 (with_console_error l e0)) as H1
    by (intros; by split; try intros ? ?).
  assert (forall e0 l, setup_untouched e0 (with_requested l e0)) as H2
    by (intros; by split; try intros ? ?).
  assert (forall e0 l, setup_untouched e0 (with_applied l e0)) as H3
    by (intros; by split; try intros ? ?).
  assert (forall e0 l, setup_untouched e0 (with_emitted l e0)) as H4
    by (intros; by split; try intros ? ?).
  assert (forall e0 l, setup_untouched e0 (with_invoked l e0)) as H5
    by (intros; by split; try intros ? ?).
  assert (forall e0 s, setup_untouched e0 (with_currentState s e0)) as H6
    by (intros; by split; try intros ? ?).
  assert (forall e0 l, setup_untouched e0 (with_stage l e0)) as H7
    by (intros; by split; try intros ? ?).
  pose proof setup_untouched_refl as Hr.
  pose proof setup_untouched_trans as Ht.
  pose proof setup_untouched_cache as Hc.
  split; [|split; [|split]].
  - by apply maintains_changeColor.
  - by apply maintains_changeStrap.
  - by apply maintains_changeEnvironment.
  - by apply maintains_getTexture.
Qed.

End SetupUntouched.

(** ** The texture cache *)

Section TextureCache.

Import ConfiguratorEngine.

Lemma handles_kept_refl (e : Engine) : handles_kept e e.
Proof. by intros ? ?. Qed.

(** The solo run of [getTexture], case by case. *)
Lemma getTexture_run (url : jsstr) (e : Engine) :
  exists e' r,
    settle (getTexture url e) = (e', inl r)
    /\ texture_side e e'
    /\ handles_kept e e'
    /\ applied e' = applied e
    /\ (forall t, textureCache e !! url = Some t -> e' = e /\ r = Some t)
    /\ (forall t, r = Some t -> textureCache e' !! url = Some t).
Proof.
  destruct (getTexture_settles url e) as (e' & r & Hrun & Hside).
  exists e', r. split; [exact Hrun|]. split; [exact Hside|].
  revert Hrun. unfold getTexture. rewrite settle_bind. cbn [get settle].
  destruct (textureCache e !! url) as [t0|] eqn:Hc.
  - cbn [ret settle]. intros [= <- <-]. repeat apply conj; try done.
    + apply handles_kept_refl.
    + by intros t [= <-].
  - rewrite settle_await. unfold preloadTexture. rewrite settle_bind. cbn [get settle].
    rewrite Hc, settle_try_catch, settle_bind, settle_await.
    unfold createTexture. destruct (modelViewer e) as [v|].
    + destruct (mv_createTexture v _ url) as [t|]; cbn [settle].
      * rewrite settle_bind. cbn [modify settle ret]. intros [= <- <-].
        repeat apply conj; try done.
        -- intros u t' Hu. cbn [textureCache with_textureCache with_requested].
           rewrite lookup_insert_ne; [done|]. intros ->. congruence.
        -- intros t' [= <-]. cbn [textureCache with_textureCache]. apply lookup_insert_eq.
      * rewrite settle_bind. cbn [Logger_error modify settle ret]. intros [= <- <-].
        repeat apply conj; try done. intros u t Hu. exact Hu.
    + cbn [settle]. rewrite settle_bind. cbn [Logger_error modify settle ret].
      intros [= <- <-]. repeat apply conj; try done. intros u t Hu. exact Hu.
Qed.

(** X1. The texture cache round trip: a first [getTexture(url)] whose load
    succeeds issues one request and stores the handle under [url]; from then
    on [getTexture(url)] and [preloadTexture(url)] return that same handle at
    once, without a request and without changing the engine. *)
Theorem getTexture_loads_once_then_reuses
    (e : Engine) (viewer : ModelViewer) (url : jsstr) (t : Texture) :
  modelViewer e = Some viewer ->
  textureCache e !! url = None ->
  mv_createTexture viewer (length (requested e)) url = Some t ->
  exists e1,
    settle (getTexture url e) = (e1, inl (Some t))
    /\ textureCache e1 = <[url := t]> (textureCache e)
    /\ requested e1 = requested e ++ [url]
    /\ getTexture url e1 = Return e1 (Some t)
    /\ preloadTexture url e1 = Return e1 (Some t).
Proof.
  intros Hv Hc Ht.
  unfold getTexture at 1. rewrite settle_bind. cbn [get settle]. rewrite Hc.
  rewrite settle_await. unfold preloadTexture at 1. rewrite settle_bind. cbn [get settle].
  rewrite Hc, settle_try_catch, settle_bind, settle_await.
  unfold createTexture at 1. rewrite Hv, Ht. cbn [settle].
  rewrite settle_bind. cbn [modify settle ret].
  eexists. split; [reflexivity|].
  split; [reflexivity|]. split; [reflexivity|].
  unfold getTexture, preloadTexture, bind, get.
  cbn [bindO textureCache with_textureCache with_requested].
  rewrite lookup_insert_eq. by split.
Qed.

(** X3. Which texture goes to which slot: with the three materials resolved
    and their texture-info objects present, [applyColorTextures] returns
    normally and applies exactly four textures, in this order: the primary
    texture to the primary material, the accent texture to the secondary and
    to the accent material, the roughness texture to the metallic-roughness
    channel of the primary material.  A texture that was cached is the one
    applied, and every texture that was applied is cached under its URL
    afterwards. *)
Theorem applyColorTextures_fills_the_four_slots
    (c : ColorOption) (tx : Textures) (p s a : Material) (e : Engine) :
  materials e = Some {| m_primary := Some p; m_secondary := Some s; m_accent := Some a |} ->
  textures c = Some tx ->
  can_apply (materials e) c = true ->
  exists e' primaryTexture accentTexture roughnessTexture,
    settle (applyColorTextures c e) = (e', inl tt)
    /\ applied e' = applied e ++
         [(mat_name p, BaseColor, primaryTexture);
          (mat_name s, BaseColor, accentTexture);
          (mat_name a, BaseColor, accentTexture);
          (mat_name p, MetallicRoughness, roughnessTexture)]
    /\ (forall t, textureCache e !! tx_primary tx = Some t -> primaryTexture = Some t)
    /\ (forall t, textureCache e !! tx_accent tx = Some t -> accentTexture = Some t)
    /\ (forall t, textureCache e !! tx_roughness tx = Some t -> roughnessTexture = Some t)
    /\ (forall t, primaryTexture = Some t -> textureCache e' !! tx_primary tx = Some t)
    /\ (forall t, accentTexture = Some t -> textureCache e' !! tx_accent tx = Some t)
    /\ (forall t, roughnessTexture = Some t -> textureCache e' !! tx_roughness tx = Some t).
Proof.
  intros Hms Htx Hcan. unfold can_apply in Hcan. rewrite Hms, Htx in Hcan.
  apply andb_prop in Hcan as [Hcan Hpr]. apply andb_prop in Hcan as [Hcan Ha].
  apply andb_prop in Hcan as [Hp Hs].
  unfold applyColorTextures. rewrite settle_bind. cbn [get settle]. rewrite Hms.
  cbn [m_primary m_secondary m_accent]. rewrite Htx.
  destruct (getTexture_run (tx_primary tx) e) as (e1 & t1 & H1 & S1 & K1 & A1 & C1 & I1).
  rewrite settle_bind, settle_await, H1.
  destruct (getTexture_run (tx_accent tx) e1) as (e2 & t2 & H2 & S2 & K2 & A2 & C2 & I2).
  rewrite settle_bind, settle_await, H2.
  destruct (getTexture_run (tx_roughness tx) e2) as (e3 & t3 & H3 & S3 & K3 & A3 & C3 & I3).
  rewrite settle_bind, settle_await, H3.
  unfold setTexture. rewrite Hp, Hs, Ha, Hpr.
  repeat rewrite settle_bind. cbn [modify settle].
  eexists _, t1, t2, t3. split; [reflexivity|].
  cbn [applied with_applied textureCache]. rewrite A3, A2, A1, <- !app_assoc. cbn [app].
  split; [reflexivity|].
  repeat apply conj.
  - intros t Ht. by destruct (C1 t Ht).
  - intros t Ht. apply K1 in Ht. by destruct (C2 t Ht).
  - intros t Ht. apply K1, K2 in Ht. by destruct (C3 t Ht).
  - intros t Ht. apply K3. apply K2. by apply I1.
  - intros t Ht. apply K3. by apply I2.
  - intros t Ht. by apply I3.
Qed.

(** X6. A failed colour change is not undone on the model: when the load
    of the primary texture has been applied and the next slot cannot take a
    texture, [changeColor] rolls the selection back and reports the error,
    but the primary material keeps the texture of the colour that was
    refused. *)
Theorem failed_color_change_keeps_applied_textures
    (e : Engine) (colorId : jsstr) (c : ColorOption) (tx : Textures) (p s a : Material) :
  find_color colorId (config e) = Some c ->
  textures c = Some tx ->
  materials e = Some {| m_primary := Some p; m_secondary := Some s; m_accent := Some a |} ->
  baseColorTexture p = true ->
  baseColorTexture s = false ->
  exists e' t,
    settle (changeColor colorId e) = (e', inl tt)
    /\ getState e' = getState e
    /\ reports_error e e'
    /\ applied e' = applied e ++ [(mat_name p, BaseColor, t)]
    /\ forall t', textureCache e !! tx_primary tx = Some t' -> t = Some t'.
Proof.
  intros Hc Htx Hms Hp Hs.
  rewrite (changeColor_settles colorId c e Hc).
  unfold texture_apply. rewrite settle_bind, settle_await.
  unfold applyColorTextures. rewrite settle_bind. cbn [get settle].
  assert (materials (optimistic colorId e) = materials e) as -> by reflexivity.
  rewrite Hms. cbn [m_primary m_secondary m_accent]. rewrite Htx.
  destruct (getTexture_run (tx_primary tx) (optimistic colorId e))
    as (e1 & t1 & H1 & S1 & K1 & A1 & C1 & I1).
  rewrite settle_bind, settle_await, H1.
  destruct (getTexture_run (tx_accent tx) e1) as (e2 & t2 & H2 & S2 & K2 & A2 & C2 & I2).
  rewrite settle_bind, settle_await, H2.
  destruct (getTexture_run (tx_roughness tx) e2) as (e3 & t3 & H3 & S3 & K3 & A3 & C3 & I3).
  rewrite settle_bind, settle_await, H3.
  unfold setTexture. rewrite Hp, Hs. rewrite !settle_bind. cbn [modify settle throw].
  eexists _, t1. split; [reflexivity|].
  pose proof (texture_side_trans _ _ _ (texture_side_trans _ _ _ S1 S2) S3)
    as [_ _ _ Hst _ _ _ _ Hem _].
  unfold getState, rolled_back, notified, reports_error, emitted_since.
  cbn [currentState emitted applied with_console_error with_invoked with_emitted
       with_currentState with_applied color strap environment].
  rewrite Hst, Hem, A3, A2, A1.
  unfold optimistic, notified.
  cbn [currentState emitted applied with_console_error with_invoked with_emitted
       with_currentState with_applied color strap environment].
  split; [reflexivity|]. split.
  - eexists. rewrite <- !app_assoc, drop_app_length. cbn [app].
    apply list_elem_of_In. right. right. left. reflexivity.
  - split; [reflexivity|]. intros t' Ht'. by destruct (C1 t' Ht').
Qed.

End TextureCache.

Lemma getTexture_loads_once_witness :
  exists e1,
    settle (ConfiguratorEngine.getTexture (Some "blue_primary.jpg") Sample.ready)
    = (e1, inl (Some {| tex_url := Some "blue_primary.jpg"; tex_serial := 3 |}))
    /\ requested e1 = requested Sample.ready ++ [Some "blue_primary.jpg"]
    /\ ConfiguratorEngine.getTexture (Some "blue_primary.jpg") e1
       = Return e1 (Some {| tex_url := Some "blue_primary.jpg"; tex_serial := 3 |}).
Proof.
  destruct (getTexture_loads_once_then_reuses
              Sample.ready Sample.viewer (Some "blue_primary.jpg")
              {| tex_url := Some "blue_primary.jpg"; tex_serial := 3 |})
    as (e1 & Hrun & _ & Hreq & Hagain & _).
  - vm_compute. reflexivity.
  - vm_compute. reflexivity.
  - vm_compute. reflexivity.
  - exists e1. auto.
Defined.

Lemma applyColorTextures_fills_witness :
  exists e' primaryTexture accentTexture roughnessTexture,
    settle (ConfiguratorEngine.applyColorTextures Sample.blue Sample.ready) = (e', inl tt)
    /\ applied e' = applied Sample.ready ++
         [("TkaninaMat", BaseColor, primaryTexture);
          ("PodlogaMat", BaseColor, accentTexture);
          ("KaiseviMat", BaseColor, accentTexture);
          ("TkaninaMat", MetallicRoughness, roughnessTexture)].
Proof.
  destruct (applyColorTextures_fills_the_four_slots
              Sample.blue
              {| tx_primary := Some "blue_primary.jpg"; tx_accent := Some "blue_accent.jpg";
                 tx_roughness := Some "rough.jpg" |}
              (Sample.material "TkaninaMat") (Sample.material "PodlogaMat")
              (Sample.material "KaiseviMat") Sample.ready)
    as (e' & t1 & t2 & t3 & Hrun & Happ & _).
  - vm_compute. reflexivity.
  - reflexivity.
  - vm_compute. reflexivity.
  - exists e', t1, t2, t3. auto.
Defined.

Lemma failed_color_change_witness :
  exists e' t,
    settle (ConfiguratorEngine.changeColor (Some "blue") Sample.bare_floor) = (e', inl tt)
    /\ ConfiguratorEngine.getState e' = ConfiguratorEngine.getState Sample.bare_floor
    /\ reports_error Sample.bare_floor e'
    /\ applied e' = applied Sample.bare_floor ++ [("TkaninaMat", BaseColor, t)].
Proof.
  destruct (failed_color_change_keeps_applied_textures
              Sample.bare_floor (Some "blue") Sample.blue
              {| tx_primary := Some "blue_primary.jpg"; tx_accent := Some "blue_accent.jpg";
                 tx_roughness := Some "rough.jpg" |}
              (Sample.material "TkaninaMat")
              {| mat_name := "PodlogaMat"; baseColorTexture := false;
                 metallicRoughnessTexture := false |}
              (Sample.material "KaiseviMat"))
    as (e' & t & Hrun & Hst & Herr & Happ & _).
  - vm_compute. reflexivity.
  - reflexivity.
  - vm_compute. reflexivity.
  - reflexivity.
  - reflexivity.
  - exists e', t. auto.
Defined.

(** ** The strap *)

Section Strap.

Import ConfiguratorEngine.

(** The texture [applyStrapConfiguration] selects for a strap, and what it
    does with it, when the accent slot can take a texture. *)
Lemma applyStrapConfiguration_run (strapId : jsstr) (ms : Materials) (a : Material) (e : Engine) :
  materials e = Some ms -> m_accent ms = Some a -> baseColorTexture a = true ->
  exists e',
    settle (applyStrapConfiguration strapId e) = (e', inl tt)
    /\ texture_side e e'
    /\ (forall s, strapId <> Some "selected" ->
                  find_strap strapId (config e) = Some s ->
                  if truthy (texture s)
                  then exists t, applied e' = applied e ++ [(mat_name a, BaseColor, t)]
                                 /\ forall t', t = Some t' ->
                                               textureCache e' !! texture s = Some t'
                  else e' = e)
    /\ (forall c tx, strapId = Some "selected" ->
                     find_color (color (currentState e)) (config e) = Some c ->
                     textures c = Some tx ->
                     truthy (tx_accent tx) = true ->
                     exists t, applied e' = applied e ++ [(mat_name a, BaseColor, t)]
                               /\ forall t', t = Some t' ->
                                             textureCache e' !! tx_accent tx = Some t').
Proof.
  intros Hms Ha Hflag.
  pose proof (side_applyStrapConfiguration strapId e) as Hside.
  revert Hside.
  unfold applyStrapConfiguration. rewrite settle_bind. cbn [get settle]. rewrite Hms, Ha.
  rewrite settle_bind.
  assert (forall url e0,
             exists e' t,
               settle ((if truthy url
                        then bind (await (getTexture url))
                               (fun t => setTexture a BaseColor t)
                        else ret tt) e0) = (e', inl tt)
               /\ if truthy url
                  then applied e' = applied e0 ++ [(mat_name a, BaseColor, t)]
                       /\ forall t', t = Some t' -> textureCache e' !! url = Some t'
                  else e' = e0) as Hk.
  { intros url e0. destruct (truthy url).
    - destruct (getTexture_run url e0) as (e1 & t & H1 & S1 & K1 & A1 & C1 & I1).
      rewrite settle_bind, settle_await, H1. unfold setTexture. rewrite Hflag.
      cbn [modify settle]. eexists _, t. split; [reflexivity|].
      cbn [applied with_applied textureCache]. rewrite A1. split; [reflexivity|exact I1].
    - exists e0, None. by split. }
  unfold strict_eq. case_bool_decide as Hsel.
  - destruct (find_color _ _) as [cc|] eqn:Hcc; [destruct (textures cc) as [tx|] eqn:Htx|];
      cbn [ret settle].
    all: match goal with
         | |- context [truthy ?u] =>
             destruct (Hk u e) as (e' & t & Hrun & Hres); rewrite Hrun
         end; intros Hside; exists e'; (split; [reflexivity|]); (split; [exact Hside|]).
    all: split; [intros s Hne; by destruct Hne|].
    + intros c tx' _ [= <-] Htx' Htr. rewrite Htx in Htx'. injection Htx' as <-.
      rewrite Htr in Hres. by exists t.
    + intros c tx' _ [= <-] Htx'. congruence.
    + intros c tx' _ [=].
  - destruct (find_strap _ _) as [s|] eqn:Hs.
    + assert (settle ((if truthy (texture s) then ret (texture s) else ret undefined) e)
              = (e, inl (if truthy (texture s) then texture s else undefined))) as ->
        by (by destruct (truthy (texture s))).
      destruct (Hk (if truthy (texture s) then texture s else undefined) e)
        as (e' & t & Hrun & Hres).
      rewrite Hrun. intros Hside. exists e'. split; [reflexivity|]. split; [exact Hside|].
      split; [|intros; congruence].
      intros s' _ [= <-]. destruct (truthy (texture s)) eqn:Htr.
      * rewrite Htr in Hres. by exists t.
      * exact Hres.
    + rewrite settle_bind. cbn [Logger_error modify settle ret].
      intros Hside. eexists. split; [reflexivity|]. split; [exact Hside|].
      split; [intros s _ [=]|intros; congruence].
Qed.

(** X4. [changeStrap] on a configured strap, when the accent material can
    take a texture: the call returns normally, the strap of the selection is
    the new one, colour and environment are as before, and exactly
    [strapChanged(strapId)] is emitted.  A fixed strap gets its own texture;
    a strap without a texture changes nothing on the model and requests
    nothing; the dynamic strap ['selected'] gets the accent texture of the
    current colour. *)
Theorem changeStrap_selects_and_textures_the_strap
    (e : Engine) (strapId : jsstr) (s : StrapOption) (ms : Materials) (a : Material) :
  find_strap strapId (config e) = Some s ->
  materials e = Some ms -> m_accent ms = Some a -> baseColorTexture a = true ->
  exists e',
    settle (changeStrap strapId e) = (e', inl tt)
    /\ getState e' = {| color := color (getState e); strap := strapId;
                        environment := environment (getState e) |}
    /\ emitted e' = emitted e ++ [("strapChanged", PId strapId)]
    /\ (strapId <> Some "selected" ->
        if truthy (texture s)
        then exists t, applied e' = applied e ++ [(mat_name a, BaseColor, t)]
                       /\ forall t', t = Some t' -> textureCache e' !! texture s = Some t'
        else applied e' = applied e /\ requested e' = requested e)
    /\ (forall c tx, strapId = Some "selected" ->
                     find_color (color (getState e)) (config e) = Some c ->
                     textures c = Some tx ->
                     truthy (tx_accent tx) = true ->
                     exists t, applied e' = applied e ++ [(mat_name a, BaseColor, t)]
                               /\ forall t', t = Some t' ->
                                             textureCache e' !! tx_accent tx = Some t').
Proof.
  intros Hs Hms Ha Hflag.
  unfold changeStrap. rewrite settle_bind. cbn [get settle]. rewrite Hs.
  rewrite settle_bind. unfold set_strap at 1. cbn [modify settle].
  set (e0 := with_currentState _ e).
  destruct (applyStrapConfiguration_run strapId ms a e0 Hms Ha Hflag)
    as (e' & Hrun & Hside & Hfixed & Hdyn).
  rewrite settle_try_catch, settle_bind, settle_await, Hrun.
  rewrite notifyListeners_returns. cbn [settle].
  eexists. split; [reflexivity|].
  destruct Hside as [_ _ _ Hst _ _ _ _ Hem _]. unfold getState, notified.
  cbn [currentState emitted applied requested textureCache with_console_error
       with_invoked with_emitted color strap environment].
  rewrite Hst, Hem. subst e0.
  cbn [currentState with_currentState emitted color strap environment].
  split; [reflexivity|]. split; [reflexivity|]. split.
  - intros Hne. specialize (Hfixed s Hne Hs). destruct (truthy (texture s)); [exact Hfixed|].
    by rewrite Hfixed.
  - intros c tx Hsel Hc Htx Htr. exact (Hdyn c tx Hsel Hc Htx Htr).
Qed.

(** X5. [changeStrap] when the strap cannot be textured (the material
    references are unset, or the accent material is missing): unlike
    [changeColor], the call does not roll back and does not report.  It
    returns normally, the selection keeps the new strap, no event is emitted
    and no listener is called; the failure goes to the console only. *)
Theorem changeStrap_failure_is_silent
    (e : Engine) (strapId : jsstr) (s : StrapOption) :
  find_strap strapId (config e) = Some s ->
  materials e = None \/ (exists ms, materials e = Some ms /\ m_accent ms = None) ->
  exists e',
    settle (changeStrap strapId e) = (e', inl tt)
    /\ getState e' = {| color := color (getState e); strap := strapId;
                        environment := environment (getState e) |}
    /\ emitted e' = emitted e
    /\ invoked e' = invoked e
    /\ applied e' = applied e
    /\ last (console_error e') = Some ("Failed to change strap to " +:+ to_String strapId).
Proof.
  intros Hs Hm.
  unfold changeStrap. rewrite settle_bind. cbn [get settle]. rewrite Hs.
  rewrite settle_bind. unfold set_strap at 1. cbn [modify settle].
  rewrite settle_try_catch, settle_bind, settle_await.
  unfold applyStrapConfiguration. rewrite settle_bind.
  cbn [get settle materials with_currentState].
  destruct Hm as [->|(ms & -> & ->)].
  - cbn [throw settle Logger_error modify]. eexists. split; [reflexivity|].
    unfold getState.
    cbn [currentState emitted invoked applied console_error with_console_error
         with_currentState color strap environment].
    rewrite last_snoc. by repeat split.
  - rewrite settle_bind. cbn [throw settle Logger_error modify].
    eexists. split; [reflexivity|]. unfold getState.
    cbn [currentState emitted invoked applied console_error with_console_error
         with_currentState color strap environment].
    rewrite last_snoc. by repeat split.
Qed.

End Strap.

Lemma changeStrap_selects_witness :
  exists e' t,
    settle (ConfiguratorEngine.changeStrap (Some "orange") Sample.ready) = (e', inl tt)
    /\ ConfiguratorEngine.getState e'
       = {| color := Some "red"; strap := Some "orange"; environment := Some "studio" |}
    /\ emitted e' = emitted Sample.ready ++ [("strapChanged", PId (Some "orange"))]
    /\ applied e' = applied Sample.ready ++ [("KaiseviMat", BaseColor, t)].
Proof.
  destruct (changeStrap_selects_and_textures_the_strap
              Sample.ready (Some "orange") Sample.orange_strap
              {| m_primary := Some (Sample.material "TkaninaMat");
                 m_secondary := Some (Sample.material "PodlogaMat");
                 m_accent := Some (Sample.material "KaiseviMat") |}
              (Sample.material "KaiseviMat"))
    as (e' & Hrun & Hst & Hem & Hfixed & _).
  - vm_compute. reflexivity.
  - vm_compute. reflexivity.
  - reflexivity.
  - reflexivity.
  - destruct Hfixed as (t & Happ & _); [discriminate|].
    exists e', t. auto.
Defined.

Lemma changeStrap_failure_witness :
  exists e',
    settle (ConfiguratorEngine.changeStrap (Some "orange") Sample.unresolved) = (e', inl tt)
    /\ strap (ConfiguratorEngine.getState e') = Some "orange"
    /\ emitted e' = emitted Sample.unresolved.
Proof.
  destruct (changeStrap_failure_is_silent
              Sample.unresolved (Some "orange") Sample.orange_strap)
    as (e' & Hrun & Hst & Hem & _).
  - vm_compute. reflexivity.
  - left. vm_compute. reflexivity.
  - exists e'. rewrite Hst. auto.
Defined.

(** ** The environments *)

Section Environments.

Import ConfiguratorEngine.

Lemma filter_inactive (l : list EnvElement) :
  List.filter el_active (map (fun el => {| el_id := el_id el; el_active := false |}) l) = [].
Proof. induction l as [|x l IH]; [reflexivity|exact IH]. Qed.

Lemma el_id_inactive (l : list EnvElement) :
  map el_id (map (fun el => {| el_id := el_id el; el_active := false |}) l) = map el_id l.
Proof. rewrite map_map. reflexivity. Qed.

Lemma activate_first (target : string) (l : list EnvElement) :
  let l0 := map (fun el => {| el_id := el_id el; el_active := false |}) l in
  match list_find (fun el => el_id el = target) l0 with
  | Some (i, el) =>
      List.filter el_active (<[i := {| el_id := el_id el; el_active := true |}]> l0)
      = [{| el_id := target; el_active := true |}]
      /\ map el_id (<[i := {| el_id := el_id el; el_active := true |}]> l0) = map el_id l
      /\ target ∈ map el_id l
  | None => (target ∉ map el_id l) /\ map el_id l0 = map el_id l
  end.
Proof.
  induction l as [|x l IH]; cbn.
  - split; [|reflexivity]. apply not_elem_of_nil.
  - destruct (decide (el_id x = target)) as [Hx|Hx]; cbn.
    + rewrite filter_inactive, el_id_inactive, Hx.
      split; [reflexivity|]. split; [reflexivity|]. apply elem_of_cons. by left.
    + cbv zeta in IH. destruct (list_find _ _) as [[i el]|]; cbn.
      * destruct IH as (IH1 & IH2 & IH3).
        split; [exact IH1|]. split; [f_equal; exact IH2|]. apply elem_of_cons. by right.
      * destruct IH as [IH1 IH2]. split; [|f_equal; exact IH2].
        intros [?|?]%elem_of_cons; [by apply Hx|by apply IH1].
Qed.

Lemma changeEnvironment_stage
    (e : Engine) (environmentId : jsstr) (x : EnvironmentOption) :
  find_environment environmentId (config e) = Some x ->
  let e' := (settle (changeEnvironment environmentId e)).1 in
  let target := to_String environmentId +:+ "Env" in
  environment (getState e') = environmentId
  /\ map el_id (stage e') = map el_id (stage e)
  /\ List.filter el_active (stage e')
     = if bool_decide (target ∈ map el_id (stage e))
       then [{| el_id := target; el_active := true |}]
       else [].
Proof.
  intros Hx. unfold changeEnvironment, bind, get. cbn [bindO]. rewrite Hx.
  unfold set_environment, modify. cbn [bindO]. rewrite notifyListeners_returns.
  cbn [settle fst]. unfold notified, getState.
  cbn [stage currentState with_console_error with_invoked with_emitted with_stage
       with_currentState environment].
  pose proof (activate_first (to_String environmentId +:+ "Env") (stage e)) as H.
  cbv zeta in H.
  destruct (list_find _ _) as [[i el]|];
    cbn [stage currentState with_stage with_currentState environment].
  - destruct H as (H1 & H2 & H3). rewrite bool_decide_eq_true_2 by exact H3. done.
  - destruct H as (H1 & H2). rewrite bool_decide_eq_false_2 by exact H1.
    rewrite filter_inactive. done.
Qed.

(** Which element is active afterwards, index by index. *)
Lemma activate_first_at (target : string) (l : list EnvElement) :
  let l0 := map (fun el => {| el_id := el_id el; el_active := false |}) l in
  forall j x,
    l !! j = Some x ->
    match list_find (fun el => el_id el = target) l0 with
    | Some (i, el) => <[i := {| el_id := el_id el; el_active := true |}]> l0
    | None => l0
    end !! j
    = Some {| el_id := el_id x;
              el_active := bool_decide (el_id x = target
                                        /\ target ∉ map el_id (take j l)) |}.
Proof.
  intros l0 j x Hx.
  assert (forall k y, l !! k = Some y ->
                      l0 !! k = Some {| el_id := el_id y; el_active := false |}) as Hl0.
  { intros k y Hy. subst l0.
    change (map ?f l) with (f <$> l). by rewrite list_lookup_fmap, Hy. }
  destruct (list_find _ l0) as [[i el]|] eqn:Hfind.
  - apply list_find_Some in Hfind as (Hi & Hid & Hmin).
    assert (exists xi, l !! i = Some xi
                       /\ el = {| el_id := el_id xi; el_active := false |})
      as (xi & Hxi & ->).
    { destruct (l !! i) as [xi|] eqn:Hli.
      - exists xi. split; [reflexivity|]. rewrite (Hl0 _ _ Hli) in Hi. by injection Hi.
      - exfalso. apply lookup_lt_Some in Hi. apply lookup_ge_None in Hli.
        subst l0. rewrite length_map in Hi. lia. }
    cbn [el_id] in Hid.
    destruct (decide (j = i)) as [->|Hne].
    + rewrite list_lookup_insert_eq by (by eapply lookup_lt_Some).
      rewrite Hx in Hxi. injection Hxi as <-. cbn [el_id]. f_equal. f_equal.
      symmetry. apply bool_decide_eq_true_2. split; [exact Hid|].
      intros Hin. apply list_elem_of_fmap in Hin as (y & Hy & Hin).
      apply list_elem_of_lookup in Hin as (k & Hk).
      pose proof (lookup_lt_Some _ _ _ Hk) as Hlt. rewrite length_take in Hlt.
      rewrite lookup_take_lt in Hk by lia.
      apply (Hmin k _ (Hl0 _ _ Hk)); [lia|]. cbn [el_id]. congruence.
    + rewrite list_lookup_insert_ne by congruence. rewrite (Hl0 _ _ Hx).
      f_equal. f_equal. symmetry. apply bool_decide_eq_false_2. intros [Hid' Hnot].
      destruct (decide (j < i)) as [Hlt|Hge].
      * by apply (Hmin j _ (Hl0 _ _ Hx) Hlt).
      * apply Hnot. apply list_elem_of_fmap. exists xi. split; [congruence|].
        apply list_elem_of_lookup. exists i. rewrite lookup_take_lt by lia. exact Hxi.
  - rewrite (Hl0 _ _ Hx). f_equal. f_equal. symmetry.
    apply bool_decide_eq_false_2. intros [Hid' _].
    apply list_find_None in Hfind. rewrite Forall_forall in Hfind.
    apply (Hfind {| el_id := el_id x; el_active := false |}); [|exact Hid'].
    eapply list_elem_of_lookup_2. by apply Hl0.
Qed.

(** X7. [changeEnvironment] on a configured environment keeps the staging
    elements, their ids and their order, and leaves at most one of them
    active: the first element whose id is the environment's id followed by
    [Env].  Index by index, an element is active afterwards exactly when it
    has that id and no element before it has. *)
Theorem changeEnvironment_marks_exactly_one_element
    (e : Engine) (environmentId : jsstr) (x : EnvironmentOption) :
  find_environment environmentId (config e) = Some x ->
  let e' := (settle (changeEnvironment environmentId e)).1 in
  let target := to_String environmentId +:+ "Env" in
  environment (getState e') = environmentId
  /\ length (stage e') = length (stage e)
  /\ (forall i el,
        stage e !! i = Some el ->
        stage e' !! i
        = Some {| el_id := el_id el;
                  el_active := bool_decide (el_id el = target
                                            /\ target ∉ map el_id (take i (stage e))) |})
  /\ List.filter el_active (stage e')
     = if bool_decide (target ∈ map el_id (stage e))
       then [{| el_id := target; el_active := true |}]
       else [].
Proof.
  intros Hx e' target.
  destruct (changeEnvironment_stage e environmentId x Hx) as (Henv & Hids & Hact).
  split; [exact Henv|]. split; [|split; [|exact Hact]].
  - fold e' in Hids. apply (f_equal length) in Hids. by rewrite !length_map in Hids.
  - subst e' target. unfold changeEnvironment, bind, get. cbn [bindO]. rewrite Hx.
    unfold set_environment, modify. cbn [bindO]. rewrite notifyListeners_returns.
    cbn [settle fst]. unfold notified.
    cbn [stage currentState with_console_error with_invoked with_emitted with_stage
         with_currentState].
    intros i el Hel.
    pose proof (activate_first_at (to_String environmentId +:+ "Env") (stage e) i el Hel)
      as H.
    cbv zeta in H.
    destruct (list_find _ _) as [[k elk]|]; cbn [stage with_stage with_currentState];
      exact H.
Qed.

Lemma find_environment_known (id : jsstr) (x : EnvironmentOption) (cfg : Configuration) :
  find_environment id cfg = Some x -> id ∈ environment_ids cfg.
Proof.
  intros H. destruct (decide (id ∈ environment_ids cfg)) as [Hin|Hin]; [exact Hin|].
  apply find_environment_absent in Hin. congruence.
Qed.

Lemma find_environment_present (id : jsstr) (cfg : Configuration) :
  id ∈ environment_ids cfg -> is_Some (find_environment id cfg).
Proof.
  unfold find_environment, environment_ids.
  induction (environments cfg) as [|y l IH]; cbn.
  - by intros ?%elem_of_nil.
  - unfold strict_eq. case_bool_decide as Hy; [by eexists|].
    intros [?|?]%elem_of_cons; [congruence|by apply IH].
Qed.

(** X8. Every configured environment can be activated on the elements
    that [setupEnvironments] creates: after [setupEnvironments], a
    [changeEnvironment] to a configured environment leaves exactly one
    staging element active, the one of that environment. *)
Theorem setupEnvironments_then_changeEnvironment
    (e : Engine) (environmentId : jsstr) :
  environmentId ∈ environment_ids (config e) ->
  let e1 := (settle (setupEnvironments e)).1 in
  let e2 := (settle (changeEnvironment environmentId e1)).1 in
  List.filter el_active (stage e2)
  = [{| el_id := to_String environmentId +:+ "Env"; el_active := true |}].
Proof.
  intros Hin e1 e2.
  destruct (find_environment_present _ _ Hin) as [x Hx].
  destruct (changeEnvironment_stage e1 environmentId x Hx) as (_ & _ & H).
  subst e2. rewrite H. rewrite bool_decide_eq_true_2; [reflexivity|].
  subst e1. cbn [setupEnvironments modify settle fst stage with_stage].
  rewrite map_app. apply elem_of_app. right. rewrite map_map. cbn [el_id].
  unfold environment_ids in Hin. apply list_elem_of_fmap in Hin as (y & -> & Hy).
  apply list_elem_of_fmap. exists y. by split.
Qed.

End Environments.

Lemma changeEnvironment_marks_witness :
  let e' := (settle (ConfiguratorEngine.changeEnvironment (Some "beach") Sample.ready)).1 in
  environment (ConfiguratorEngine.getState e') = Some "beach"
  /\ stage e' !! 1 = Some {| el_id := "beachEnv"; el_active := true |}
  /\ List.filter el_active (stage e') = [{| el_id := "beachEnv"; el_active := true |}].
Proof.
  destruct (changeEnvironment_marks_exactly_one_element
              Sample.ready (Some "beach") Sample.beach)
    as (Henv & _ & Hat & Hact).
  - vm_compute. reflexivity.
  - split; [exact Henv|]. split; [|exact Hact].
    rewrite (Hat 1 {| el_id := "beachEnv"; el_active := false |}).
    + vm_compute. reflexivity.
    + vm_compute. reflexivity.
Defined.

Lemma setupEnvironments_witness :
  let e1 := (settle (ConfiguratorEngine.setupEnvironments
                       (ConfiguratorEngine.constructor Sample.product))).1 in
  let e2 := (settle (ConfiguratorEngine.changeEnvironment (Some "beach") e1)).1 in
  List.filter el_active (stage e2) = [{| el_id := "beachEnv"; el_active := true |}].
Proof.
  apply (setupEnvironments_then_changeEnvironment
           (ConfiguratorEngine.constructor Sample.product) (Some "beach")).
  apply list_elem_of_In. vm_compute. auto.
Defined.

(** ** The selection stays within the configuration *)

Section ValidSelection.

Import ConfiguratorEngine.

Lemma find_color_known (id : jsstr) (c : ColorOption) (cfg : Configuration) :
  find_color id cfg = Some c -> id ∈ color_ids cfg.
Proof.
  intros H. destruct (decide (id ∈ color_ids cfg)) as [Hin|Hin]; [exact Hin|].
  apply find_color_absent in Hin. congruence.
Qed.

Lemma find_strap_known (id : jsstr) (s : StrapOption) (cfg : Configuration) :
  find_strap id cfg = Some s -> id ∈ strap_ids cfg.
Proof.
  intros H. destruct (decide (id ∈ strap_ids cfg)) as [Hin|Hin]; [exact Hin|].
  apply find_strap_absent in Hin. congruence.
Qed.

(** The strap after the texture-apply step, whether it went through or not. *)
Lemma texture_apply_strap (c : ColorOption) (e : Engine) :
  let e' := (settle (texture_apply c e)).1 in
  strap (currentState e') = strap (currentState e)
  \/ strap (currentState e') = Some "selected".
Proof.
  unfold texture_apply. rewrite settle_bind, settle_await.
  pose proof (side_applyColorTextures c e) as [_ _ _ Hst1 _ _ _ _ _ _].
  destruct (settle (applyColorTextures c e)) as [e1 [[]|x]]; cbn [fst] in *.
  - right. rewrite settle_bind. unfold set_strap at 1. cbn [modify settle].
    rewrite settle_await.
    match goal with
    | |- context [settle (applyStrapConfiguration ?s ?e0)] =>
        pose proof (side_applyStrapConfiguration s e0) as [_ _ _ Hst2 _ _ _ _ _ _];
        destruct (settle (applyStrapConfiguration s e0)) as [e2 [[]|x]]
    end; cbn [fst] in *; by rewrite Hst2.
  - left. by rewrite Hst1.
Qed.

(** X9. The selection stays within the configuration: if the current
    colour and environment are configured ones and the strap is a configured
    one or the dynamic strap ['selected'], the same holds after any
    [changeColor], [changeStrap] or [changeEnvironment], with a known or an
    unknown identifier, whether the call succeeds or fails.  (The dynamic
    strap has to be allowed: [changeColor] selects it even when the
    configuration lists no strap of that id.) *)
Theorem change_operations_keep_the_selection_valid (e : Engine) (id : jsstr) :
  valid_selection (config e) (currentState e) ->
  valid_selection (config e) (currentState (settle (changeColor id e)).1)
  /\ valid_selection (config e) (currentState (settle (changeStrap id e)).1)
  /\ valid_selection (config e) (currentState (settle (changeEnvironment id e)).1).
Proof.
  intros (Hc & Hs & He). split; [|split].
  - destruct (find_color id (config e)) as [c|] eqn:Hfind.
    + rewrite (changeColor_settles id c e Hfind).
      pose proof (side_texture_apply c (optimistic id e))
        as (_ & _ & _ & Hcol & Henv & _ & Hok).
      pose proof (texture_apply_strap c (optimistic id e)) as Hstrap.
      destruct (settle (texture_apply c (optimistic id e))) as [e2 [[]|x]]; cbn [fst] in *.
      * split; [|split].
        -- cbn. rewrite Hcol. cbn. by eapply find_color_known.
        -- right. cbn. by apply (Hok tt).
        -- cbn. by rewrite Henv.
      * split; [|split].
        -- exact Hc.
        -- cbn. destruct Hstrap as [->| ->]; [exact Hs|by right].
        -- cbn. by rewrite Henv.
    + unfold changeColor, bind, get. cbn [bindO]. rewrite Hfind. by split.
  - unfold changeStrap. rewrite settle_bind. cbn [get settle].
    destruct (find_strap id (config e)) as [s|] eqn:Hfind; [|by split].
    rewrite settle_bind. unfold set_strap at 1. cbn [modify settle].
    rewrite settle_try_catch, settle_bind, settle_await.
    match goal with
    | |- context [settle (applyStrapConfiguration ?s ?e0)] =>
        pose proof (side_applyStrapConfiguration s e0) as [_ _ _ Hst _ _ _ _ _ _];
        destruct (settle (applyStrapConfiguration s e0)) as [e2 [[]|x]]
    end; cbn [fst] in *.
    + rewrite notifyListeners_returns. cbn. rewrite Hst. cbn.
      split; [exact Hc|]. split; [|exact He]. left. by eapply find_strap_known.
    + cbn. rewrite Hst. cbn.
      split; [exact Hc|]. split; [|exact He]. left. by eapply find_strap_known.
  - destruct (changeEnvironment_returns e id) as (e3 & -> & ((_ & _) & Hcol) & Hstr & Henv).
    cbn [settle fst]. split; [|split].
    + unfold valid_selection in *. by rewrite Hcol.
    + by rewrite Hstr.
    + rewrite Henv. destruct (find_environment id (config e)) eqn:Hfind; [|exact He].
      by eapply find_environment_known.
Qed.

End ValidSelection.

Lemma change_operations_keep_the_selection_valid_witness :
  valid_selection Sample.product
    (currentState (settle (ConfiguratorEngine.changeColor (Some "blue") Sample.ready)).1)
  /\ valid_selection Sample.product
       (currentState (settle (ConfiguratorEngine.changeStrap (Some "blue") Sample.ready)).1)
  /\ valid_selection Sample.product
       (currentState
          (settle (ConfiguratorEngine.changeEnvironment (Some "blue") Sample.ready)).1).
Proof.
  apply (change_operations_keep_the_selection_valid Sample.ready (Some "blue")).
  repeat split; try left; apply list_elem_of_In; vm_compute; auto.
Defined.

(** ** The preload order *)

Section PreloadOrder.

Import ConfiguratorEngine.

Lemma head_then_others {A} `{EqDecision A} (x : A) (l : list A) :
  x ∈ l -> NoDup l -> x :: filter (fun y => y ≠ x) l ≡ₚ l.
Proof.
  induction l as [|y l IH]; [by intros ?%elem_of_nil|].
  intros Hin Hnd. apply NoDup_cons in Hnd as [Hy Hnd].
  destruct (decide (y = x)) as [->|Hne].
  - rewrite filter_cons_False by (intros H; by apply H).
    f_equiv. clear IH Hin. induction l as [|z l IH]; [reflexivity|].
    apply not_elem_of_cons in Hy as [Hz Hy]. apply NoDup_cons in Hnd as [_ Hnd].
    rewrite filter_cons_True by congruence. f_equiv. by apply IH.
  - rewrite filter_cons_True by exact Hne.
    apply elem_of_cons in Hin as [->|Hin]; [done|].
    rewrite Permutation_swap. f_equiv. by apply IH.
Qed.

(** X10. [startTexturePreloading] is guarded by the readiness flag.  On
    an engine whose flag is set it does nothing.  On an engine whose flag is
    not set it sets the flag and schedules one preload, 500 ms later; the
    preload order starts with the current colour and contains every
    configured colour, and when the current colour is configured and the
    identifiers are distinct it is a permutation of the configured colours.
    What the scheduled preload does to the flag when it runs is not part of
    this statement. *)
Theorem startTexturePreloading_is_guarded_by_isReady (e : Engine) :
  (isReady e = true -> startTexturePreloading e = Return e tt)
  /\ (isReady e = false ->
      exists order e1,
        startTexturePreloading e = Return e1 tt
        /\ isReady e1 = true
        /\ timers e1 = timers e ++ [PreloadTimer 500 order]
        /\ head order = Some (color (currentState e))
        /\ (forall id, id ∈ color_ids (config e) -> id ∈ order)
        /\ (color (currentState e) ∈ color_ids (config e) ->
            NoDup (color_ids (config e)) ->
            order ≡ₚ color_ids (config e))
        /\ getState e1 = getState e
        /\ requested e1 = requested e
        /\ emitted e1 = emitted e).
Proof.
  unfold startTexturePreloading, bind, get. cbn [bindO]. split; intros Hr; rewrite Hr.
  - reflexivity.
  - unfold modify. cbn [bindO]. eexists _, _. split; [reflexivity|].
    cbn [isReady timers with_timers with_isReady]. repeat apply conj; try reflexivity.
    + intros id Hin. destruct (decide (id = color (currentState e))) as [->|Hne].
      * apply elem_of_cons. by left.
      * apply elem_of_cons. right. apply list_elem_of_filter. by split.
    + intros Hin Hnd. by apply head_then_others.
Qed.

End PreloadOrder.

Lemma startTexturePreloading_witness :
  exists e1,
    ConfiguratorEngine.startTexturePreloading (ConfiguratorEngine.constructor Sample.product)
    = Return e1 tt
    /\ timers e1 = [PreloadTimer 500 [Some "red"; Some "blue"]]
    /\ ConfiguratorEngine.startTexturePreloading Sample.ready = Return Sample.ready tt.
Proof.
  destruct (startTexturePreloading_is_guarded_by_isReady
              (ConfiguratorEngine.constructor Sample.product)) as (_ & Hfresh).
  destruct (startTexturePreloading_is_guarded_by_isReady Sample.ready) as (Hset & _).
  destruct Hfresh as (order & e1 & Hrun & _); [reflexivity|].
  exists e1. split; [exact Hrun|]. split.
  - injection Hrun as <-. vm_compute. reflexivity.
  - apply Hset. vm_compute. reflexivity.
Defined.

(** ** Subscriptions and cleanup *)

Section Subscriptions.

Import ConfiguratorEngine.

Lemma indexOf_snoc (callback : Callback) (callbacks : list Callback) :
  cb_id callback ∉ map cb_id callbacks ->
  indexOf callback (callbacks ++ [callback]) = Some (length callbacks).
Proof.
  intros Hnot. unfold indexOf.
  destruct (list_find (fun cb => cb_id cb = cb_id callback) (callbacks ++ [callback]))
    as [[i cb]|] eqn:Hf.
  - apply list_find_Some in Hf as (Hi & Heq & Hmin). cbn. f_equal.
    destruct (decide (i < length callbacks)) as [Hlt|Hge].
    + exfalso. apply Hnot. rewrite lookup_app_l in Hi by exact Hlt.
      rewrite <- Heq. apply list_elem_of_fmap. exists cb. split; [reflexivity|].
      by eapply list_elem_of_lookup_2.
    + apply lookup_lt_Some in Hi. rewrite length_app in Hi. cbn in Hi. lia.
  - exfalso. apply list_find_None in Hf. rewrite Forall_app in Hf. destruct Hf as [_ Hf].
    apply Forall_inv in Hf. by apply Hf.
Qed.

Lemma subscribe_run (event : string) (callback : Callback) (e : Engine) :
  exists e1,
    subscribe event callback e = Return e1 tt
    /\ eventListeners e1 !! event = Some (listeners event e ++ [callback])
    /\ (forall other, other <> event ->
                      eventListeners e1 !! other = eventListeners e !! other)
    /\ invoked e1 = invoked e.
Proof.
  unfold subscribe, bind, get, modify, listeners. cbn [bindO].
  case_bool_decide as Hev; cbn [ret bindO]; eexists; (split; [reflexivity|]);
    cbn [eventListeners with_eventListeners invoked]; rewrite lookup_alter_eq.
  - destruct Hev as [cbs ->]. split; [reflexivity|]. split; [|reflexivity].
    intros other Hne. by rewrite lookup_alter_ne by congruence.
  - rewrite lookup_insert_eq.
    assert (eventListeners e !! event = None) as ->.
    { destruct (eventListeners e !! event) eqn:H; [|reflexivity].
      exfalso. apply Hev. by eexists. }
    split; [reflexivity|]. split; [|reflexivity].
    intros other Hne. rewrite lookup_alter_ne by congruence.
    by rewrite lookup_insert_ne by congruence.
Qed.

Lemma delete_last {A} (l : list A) (x : A) : delete (length l) (l ++ [x]) = l.
Proof. induction l as [|y l IH]; [reflexivity|]. cbn. f_equal. exact IH. Qed.

(** X11. [unsubscribe] undoes [subscribe]: subscribing a listener that is
    not yet subscribed to the event and unsubscribing it again leaves the
    listeners of every event as they were, so that a later notification calls
    exactly the earlier listeners. *)
Theorem unsubscribe_undoes_subscribe (event : string) (callback : Callback) (e : Engine) :
  cb_id callback ∉ map cb_id (listeners event e) ->
  exists e1 e2,
    subscribe event callback e = Return e1 tt
    /\ unsubscribe event callback e1 = Return e2 tt
    /\ listeners event e2 = listeners event e
    /\ (forall other, other <> event -> listeners other e2 = listeners other e)
    /\ forall data,
         invoked (notified event data e2)
         = invoked e ++ map (fun cb => (cb_id cb, data)) (listeners event e).
Proof.
  intros Hnot. destruct (subscribe_run event callback e) as (e1 & Hsub & Hev & Hother & Hinv).
  exists e1. unfold unsubscribe, bind, get. cbn [bindO]. rewrite Hev.
  rewrite (indexOf_snoc _ _ Hnot). unfold modify. eexists. split; [exact Hsub|].
  split; [reflexivity|]. rewrite delete_last. unfold notified, listeners.
  cbn [invoked eventListeners with_console_error with_invoked with_emitted
       with_eventListeners].
  rewrite lookup_insert_eq. cbn [default]. rewrite Hinv.
  repeat apply conj; try reflexivity.
  intros other Hne. rewrite lookup_insert_ne by congruence. by rewrite Hother.
Qed.

(** X12. [unsubscribe] removes one subscription: the first occurrence of
    the listener among the listeners of the event, and nothing else.  A
    listener that is not subscribed leaves the engine unchanged; a listener
    subscribed twice stays subscribed once; the listeners of other events are
    not touched. *)
Theorem unsubscribe_removes_one_subscription
    (event : string) (callback : Callback) (e : Engine) :
  exists e',
    unsubscribe event callback e = Return e' tt
    /\ (cb_id callback ∉ map cb_id (listeners event e) -> e' = e)
    /\ (cb_id callback ∈ map cb_id (listeners event e) ->
        exists before cb after,
          listeners event e = before ++ cb :: after
          /\ cb_id cb = cb_id callback
          /\ (cb_id callback ∉ map cb_id before)
          /\ listeners event e' = before ++ after)
    /\ (forall other, other <> event -> listeners other e' = listeners other e).
Proof.
  unfold unsubscribe, bind, get. cbn [bindO]. unfold listeners.
  destruct (eventListeners e !! event) as [cbs|] eqn:Hcbs; cbn [default].
  - unfold indexOf.
    destruct (list_find (fun cb => cb_id cb = cb_id callback) cbs) as [[i cb]|] eqn:Hf;
      cbn [fmap option_fmap option_map fst].
    + unfold modify. eexists. split; [reflexivity|].
      cbn [eventListeners with_eventListeners]. rewrite lookup_insert_eq. cbn [default].
      apply list_find_Some in Hf as (Hi & Heq & Hmin).
      split; [|split].
      * intros Hnot. exfalso. apply Hnot. rewrite <- Heq.
        apply list_elem_of_fmap. exists cb. split; [reflexivity|].
        by eapply list_elem_of_lookup_2.
      * intros _. exists (take i cbs), cb, (drop (S i) cbs).
        split; [symmetry; by apply take_drop_middle|]. split; [exact Heq|]. split.
        -- intros Hin. apply list_elem_of_fmap in Hin as (cb' & Hid & Hin).
           apply list_elem_of_lookup in Hin as (j & Hj).
           pose proof (lookup_lt_Some _ _ _ Hj) as Hlt. rewrite length_take in Hlt.
           rewrite lookup_take_lt in Hj by lia.
           apply (Hmin j cb' Hj); [lia|congruence].
        -- apply delete_take_drop.
      * intros other Hne. by rewrite lookup_insert_ne by congruence.
    + eexists. split; [reflexivity|]. split; [done|]. split; [|done].
      intros Hin. exfalso. apply list_find_None in Hf.
      apply list_elem_of_fmap in Hin as (cb' & Hid & Hin).
      rewrite Forall_forall in Hf. by apply (Hf cb' Hin).
  - eexists. split; [reflexivity|]. split; [done|]. split; [|done].
    intros Hin. by apply elem_of_nil in Hin.
Qed.

(** X13. [destroy] forgets the listeners and the textures and stops the
    idle interval: afterwards no event has a listener, so a notification
    calls nobody; the cache is empty, so the next [getTexture] of any URL
    issues a request again; the selection, the viewer and the material
    references are kept, and so is every timer that is not the idle interval
    (a scheduled preload is not cancelled). *)
Theorem destroy_forgets_listeners_and_textures (e : Engine) :
  exists e',
    destroy e = Return e' tt
    /\ textureCache e' = ∅
    /\ (forall event, listeners event e' = [])
    /\ (forall event data, invoked (settle (notifyListeners event data e')).1 = invoked e)
    /\ getState e' = getState e
    /\ materials e' = materials e
    /\ modelViewer e' = modelViewer e
    /\ (forall t, t ∈ timers e' <-> t ∈ timers e /\ is_idle_interval t = false)
    /\ (forall url, is_Some (modelViewer e) ->
                    requested (settle (getTexture url e')).1 = requested e ++ [url]).
Proof.
  unfold destroy, bind, modify. cbn [bindO]. eexists. split; [reflexivity|].
  cbn [textureCache with_textureCache with_eventListeners with_timers timers
       materials modelViewer].
  assert (forall event l,
             listeners event (with_eventListeners ∅ l) = []) as Hnone.
  { intros event l. unfold listeners. cbn [eventListeners with_eventListeners].
    by rewrite lookup_empty. }
  split; [reflexivity|]. split; [intros event; apply Hnone|]. split.
  { intros event data. rewrite notifyListeners_returns. cbn [settle fst]. unfold notified.
    cbn [invoked with_console_error with_invoked]. rewrite Hnone. cbn [map].
    by rewrite app_nil_r. }
  do 3 (split; [reflexivity|]). split.
  - intros t. rewrite !list_elem_of_In, filter_In. by rewrite negb_true_iff.
  - intros url [v Hv]. unfold getTexture. rewrite settle_bind. cbn [get settle].
    cbn [textureCache with_textureCache with_eventListeners]. rewrite lookup_empty.
    rewrite settle_await. unfold preloadTexture. rewrite settle_bind. cbn [get settle].
    cbn [textureCache with_textureCache with_eventListeners]. rewrite lookup_empty.
    rewrite settle_try_catch, settle_bind, settle_await.
    unfold createTexture. cbn [modelViewer with_textureCache with_eventListeners with_timers].
    rewrite Hv. destruct (mv_createTexture v _ url); cbn [settle].
    + rewrite settle_bind. cbn [modify settle ret]. reflexivity.
    + rewrite settle_bind. cbn [Logger_error modify settle ret]. reflexivity.
Qed.

End Subscriptions.

Lemma unsubscribe_undoes_subscribe_witness :
  exists e1 e2,
    ConfiguratorEngine.subscribe "colorChanged" Sample.observer Sample.ready = Return e1 tt
    /\ ConfiguratorEngine.unsubscribe "colorChanged" Sample.observer e1 = Return e2 tt
    /\ listeners "colorChanged" e2 = listeners "colorChanged" Sample.ready.
Proof.
  destruct (unsubscribe_undoes_subscribe "colorChanged" Sample.observer Sample.ready)
    as (e1 & e2 & Hsub & Hunsub & Hsame & _).
  - intros Hin. apply list_elem_of_In in Hin. vm_compute in Hin. exact Hin.
  - exists e1, e2. auto.
Defined.

(** ** Initialization, in general *)

Section InitializationInGeneral.

Import ConfiguratorEngine.

Ltac run_step :=
  first [ rewrite settle_bind
        | rewrite settle_await
        | rewrite settle_try_catch
        | rewrite notifyListeners_returns
        | progress cbn [settle ret get modify yield throw Logger_error] ].

Lemma setupMaterialReferences_returns (e : Engine) :
  exists e', setupMaterialReferences e = Return e' tt
             /\ modelViewer e' = modelViewer e
             /\ emitted e' = emitted e
             /\ isReady e' = isReady e.
Proof.
  unfold setupMaterialReferences, try_catch, bind, get. cbn [bindO].
  destruct (modelViewer e) as [v|] eqn:Hv;
    [|cbn [throw catchO Logger_error modify]; by eexists].
  destruct (mv_model v) as [model|]; [|cbn [ret catchO]; by eexists].
  cbv zeta.
  destruct (getMaterialByName model (name_primary (product_materials (config e)))),
    (getMaterialByName model (name_secondary (product_materials (config e)))),
    (getMaterialByName model (name_accent (product_materials (config e))));
    cbn [throw ret catchO Logger_error modify]; by eexists.
Qed.

(** [applyInitialConfiguration] swallows every failure. *)
Lemma applyInitialConfiguration_settles (e : Engine) :
  exists e', settle (applyInitialConfiguration e) = (e', inl tt) /\ texture_side e e'.
Proof.
  assert (on_texture_side applyInitialConfiguration) as Hside.
  { unfold applyInitialConfiguration. apply side_bind; [apply side_get|]. intros e0.
    destruct (materials e0) as [[[p|] [s|] [a|]]|]; try apply side_ret.
    apply side_try_catch; [|intros; apply side_Logger_error].
    apply side_bind; [apply side_get|]. intros e1.
    apply side_bind.
    - destruct (find_color _ _); [apply side_await, side_applyColorTextures|apply side_ret].
    - intros _. apply side_bind; [apply side_get|]. intros e2.
      apply side_await, side_applyStrapConfiguration. }
  specialize (Hside e). revert Hside.
  unfold applyInitialConfiguration. rewrite settle_bind. cbn [get settle].
  destruct (materials e) as [[[p|] [s|] [a|]]|]; try (by eexists).
  rewrite settle_try_catch.
  match goal with
  | |- context [settle (?m e)] => destruct (settle (m e)) as [e1 [[]|x]]
  end; by eexists.
Qed.

(** Once the model has loaded, nothing stops [initialize]. *)
Lemma finish_initialization (e0 : Engine) :
  exists e',
    settle ((setupMaterialReferences ;; setupEnvironments ;; startTexturePreloading ;;
             await applyInitialConfiguration ;; modify (with_isReady true) ;;
             notifyListeners "initialized" PEngine) e0) = (e', inl tt)
    /\ isReady e' = true
    /\ last (emitted e') = Some ("initialized", PEngine)
    /\ modelViewer e' = modelViewer e0.
Proof.
  rewrite settle_bind.
  destruct (setupMaterialReferences_returns e0) as (e1 & -> & Hv1 & Hem1 & Hr1).
  cbn [settle]. unfold setupEnvironments. repeat run_step.
  unfold startTexturePreloading. repeat run_step.
  match goal with
  | |- context [if ?b then _ else _] => destruct b
  end; repeat run_step;
    match goal with
    | |- context [settle (applyInitialConfiguration ?e2)] =>
        destruct (applyInitialConfiguration_settles e2)
          as (e3 & -> & [_ Hv3 _ _ _ _ _ _ _ _])
    end; repeat run_step; (eexists; split; [reflexivity|]);
    unfold notified;
    cbn [isReady emitted modelViewer with_console_error with_invoked with_emitted
         with_isReady];
    rewrite last_snoc, Hv3; cbn; by rewrite Hv1.
Qed.

Lemma initialize_run (h : Host) (container : option Container) (e : Engine) :
  exists e' res,
    settle (initialize h container e) = (e', res)
    /\ if prerequisites h container
       then res = inl tt
            /\ isReady e' = true
            /\ last (emitted e') = Some ("initialized", PEngine)
            /\ modelViewer e' = Some (viewer_element h)
       else (exists error, res = inr error)
            /\ isReady e' = false
            /\ forall p, ("initialized", p) ∉ emitted_since e e'.
Proof.
  assert (forall (l : list (string * Payload)) q p,
             q.1 <> "initialized" -> ("initialized", p) ∉ drop (length l) (l ++ [q]))
    as Hone.
  { intros l q p Hq Hp. rewrite drop_app_length in Hp.
    apply list_elem_of_In in Hp. destruct Hp as [Hp|[]]. apply Hq. by rewrite Hp. }
  assert (forall (l : list (string * Payload)) p, ("initialized", p) ∉ drop (length l) l)
    as Hnil.
  { intros l p Hp. rewrite drop_all in Hp. by apply elem_of_nil in Hp. }
  unfold prerequisites, initialize. rewrite settle_try_catch.
  unfold ensureModelViewerLoaded at 1.
  destruct (library_defined h) eqn:Hdef; [|destruct (library_arrives h) eqn:Harr];
    repeat run_step; cbn [orb andb].
  3:{ eexists _, _. split; [reflexivity|].
      split; [by eexists|]. split; [reflexivity|]. intros p. unfold notified, emitted_since.
      cbn [emitted with_console_error with_invoked with_emitted with_isReady fst].
      by apply Hone. }
  all: unfold ensureContainerReady;
    destruct container as [c|];
    [destruct (has_dimensions c); [|destruct (gets_dimensions c)]|];
    repeat run_step; cbn [orb andb];
    try (eexists _, _; split; [reflexivity|];
         split; [by eexists|]; split; [reflexivity|]; intros p; unfold emitted_since;
         cbn [emitted with_console_error with_isReady fst]; by apply Hnil).
  all: unfold createModelViewer, ensureModelViewerLoaded; rewrite Hdef, ?Harr;
    repeat run_step; unfold waitForModelLoad; repeat run_step;
    cbn [modelViewer with_modelViewer];
    destruct (mv_load (viewer_element h)) as [| |detail|]; repeat run_step.
  all: try (unfold onModelLoad; repeat run_step).
  all: try match goal with
    | |- context [settle (setupMaterialReferences ?e0)] =>
        let H := fresh in
        pose proof (finish_initialization e0) as H; rewrite settle_bind in H;
        destruct H as (e' & -> & Hr & Hl & Hv);
        exists e', (inl tt); split; [reflexivity|];
        split; [reflexivity|]; split; [exact Hr|]; split; [exact Hl|]; rewrite Hv; reflexivity
    end.
  all: try (unfold onModelError; repeat run_step).
  all: eexists _, _; (split; [reflexivity|]);
    (split; [by eexists|]); (split; [reflexivity|]);
    intros p; unfold notified, emitted_since;
    cbn [emitted with_console_error with_invoked with_emitted with_isReady
         with_modelViewer fst];
    first [by apply Hnil | by apply Hone].
Qed.

(** X14. [initialize] succeeds exactly on its prerequisites: when the
    viewer library is or becomes available, the container has or gets
    dimensions and the model loads, the call fulfils, the engine is ready and
    holds the viewer, and [initialized] is the last event emitted, whatever
    the materials and the textures do; in every other case the call rejects,
    the engine is not ready and [initialized] is not emitted. *)
Theorem initialize_succeeds_exactly_on_its_prerequisites
    (h : Host) (container : option Container) (e : Engine) :
  let r := settle (initialize h container e) in
  if prerequisites h container
  then r.2 = inl tt
       /\ isReady r.1 = true
       /\ last (emitted r.1) = Some ("initialized", PEngine)
       /\ modelViewer r.1 = Some (viewer_element h)
  else (exists error, r.2 = inr error)
       /\ isReady r.1 = false
       /\ forall p, ("initialized", p) ∉ emitted_since e r.1.
Proof.
  intros r. destruct (initialize_run h container e) as (e' & res & Hrun & H).
  subst r. rewrite Hrun. exact H.
Qed.

End InitializationInGeneral.

(** ** Validated configurations *)

Section Validated.

Import ConfiguratorEngine.

Lemma validated_colors_have_textures (cfg : Configuration) (c : ColorOption) :
  XRUpgradeConfigurator.validateConfiguration cfg = inl tt ->
  In c (colors cfg) ->
  exists tx, textures c = Some tx
             /\ truthy (tx_primary tx) = true /\ truthy (tx_accent tx) = true.
Proof.
  unfold XRUpgradeConfigurator.validateConfiguration.
  destruct (List.find _ (colors cfg)) eqn:Hfind; [discriminate|]. intros _ Hin.
  pose proof (find_none _ _ Hfind c Hin) as Hc. cbv beta in Hc.
  destruct (textures c) as [tx|]; [|discriminate]. exists tx.
  apply orb_false_elim in Hc as [H1 H2].
  apply negb_false_iff in H1, H2. by repeat split.
Qed.

Lemma validated_defaults_are_configured (cfg : Configuration) :
  XRUpgradeConfigurator.validateConfiguration cfg = inl tt ->
  (truthy (defaultColor cfg) = true -> defaultColor cfg ∈ color_ids cfg)
  /\ (truthy (defaultStrap cfg) = true -> defaultStrap cfg ∈ strap_ids cfg)
  /\ (truthy (defaultEnvironment cfg) = true ->
      defaultEnvironment cfg ∈ environment_ids cfg).
Proof.
  unfold XRUpgradeConfigurator.validateConfiguration.
  destruct (List.find _ (colors cfg)); [discriminate|].
  destruct (truthy (defaultColor cfg)) eqn:Hc; cbn [andb];
    [case_bool_decide as Hfc; [discriminate|]|];
    (destruct (truthy (defaultStrap cfg)) eqn:Hs; cbn [andb];
     [case_bool_decide as Hfs; [discriminate|]|]);
    (destruct (truthy (defaultEnvironment cfg)) eqn:He; cbn [andb];
     [case_bool_decide as Hfe; [discriminate|]|]);
    intros _; repeat split; try discriminate; intros _.
  all: try (destruct (find_color (defaultColor cfg) cfg) eqn:H; [|done];
            by eapply find_color_known).
  all: try (destruct (find_strap (defaultStrap cfg) cfg) eqn:H; [|done];
            by eapply find_strap_known).
  all: try (destruct (find_environment (defaultEnvironment cfg) cfg) eqn:H; [|done];
            by eapply find_environment_known).
Qed.

(** X15. The initial selection of a validated configuration is a
    configured one: when [validateConfiguration] accepts a configuration
    that has no [defaults] block and lists at least one colour, strap and
    environment, the state the constructor sets names a configured colour, a
    configured strap and a configured environment.  (The [defaults] block is
    read by the constructor but not checked by the validation.) *)
Theorem validated_initial_selection_is_configured (cfg : Configuration) :
  XRUpgradeConfigurator.validateConfiguration cfg = inl tt ->
  defaults cfg = None ->
  colors cfg <> [] -> straps cfg <> [] -> environments cfg <> [] ->
  let st := getState (constructor cfg) in
  color st ∈ color_ids cfg
  /\ strap st ∈ strap_ids cfg
  /\ environment st ∈ environment_ids cfg.
Proof.
  intros Hval Hdef Hc Hs He.
  destruct (validated_defaults_are_configured cfg Hval) as (Vc & Vs & Ve).
  unfold getState, constructor, js_or, defaults_color, defaults_strap,
    defaults_environment, color_ids, strap_ids, environment_ids.
  cbn [currentState color strap environment]. rewrite Hdef. cbn [truthy].
  split; [|split].
  - destruct (truthy (defaultColor cfg)) eqn:Ht; cbn [truthy]; rewrite ?Ht; [by apply Vc|].
    destruct (colors cfg) as [|c l]; [done|]. cbn. apply elem_of_cons. by left.
  - destruct (truthy (defaultStrap cfg)) eqn:Ht; cbn [truthy]; rewrite ?Ht; [by apply Vs|].
    destruct (straps cfg) as [|c l]; [done|]. cbn. apply elem_of_cons. by left.
  - destruct (truthy (defaultEnvironment cfg)) eqn:Ht; cbn [truthy]; rewrite ?Ht;
      [by apply Ve|].
    destruct (environments cfg) as [|c l]; [done|]. cbn. apply elem_of_cons. by left.
Qed.

(** X16. Every colour of a validated configuration can be selected: when
    [validateConfiguration] accepts the configuration and the three
    materials are resolved with their texture-info objects present,
    [changeColor] on any configured colour identifier returns normally, ends
    with that colour and the dynamic strap, keeps the environment, and emits
    exactly [colorChanged] and [strapChanged('selected')], whether or not the
    texture loads themselves succeed. *)
Theorem validated_colors_can_all_be_selected
    (e : Engine) (p s a : Material) (colorId : jsstr) :
  XRUpgradeConfigurator.validateConfiguration (config e) = inl tt ->
  materials e = Some {| m_primary := Some p; m_secondary := Some s; m_accent := Some a |} ->
  baseColorTexture p = true -> baseColorTexture s = true -> baseColorTexture a = true ->
  metallicRoughnessTexture p = true ->
  colorId ∈ color_ids (config e) ->
  exists e',
    settle (changeColor colorId e) = (e', inl tt)
    /\ getState e' = {| color := colorId; strap := Some "selected";
                        environment := environment (getState e) |}
    /\ emitted e' = emitted e ++ [("colorChanged", PId colorId);
                                  ("strapChanged", PId (Some "selected"))].
Proof.
  intros Hval Hms Hp Hs Ha Hpr Hin.
  destruct (find_color_present colorId (config e) Hin) as (c & Hc & _).
  assert (In c (colors (config e))) as Hcin by (by eapply find_some).
  destruct (validated_colors_have_textures _ c Hval Hcin) as (tx & Htx & _).
  assert (can_apply (materials (optimistic colorId e)) c = true) as Hcan.
  { unfold can_apply. cbn. rewrite Hms, Htx, Hp, Hs, Ha, Hpr. reflexivity. }
  rewrite (changeColor_settles colorId c e Hc).
  pose proof (texture_apply_ok c _ Hcan) as Hok.
  pose proof (side_texture_apply c (optimistic colorId e))
    as (_ & _ & Hem & Hcol & Henv & _ & Hstr).
  destruct (settle (texture_apply c (optimistic colorId e))) as [e2 r]. cbn [fst snd] in *.
  subst r. eexists. split; [reflexivity|]. unfold getState, notified.
  cbn [currentState emitted with_console_error with_invoked with_emitted].
  rewrite Hem. split.
  - destruct (currentState e2) as [c2 s2 v2]. cbn in *. rewrite (Hstr tt eq_refl). by subst.
  - cbn. by rewrite <- app_assoc.
Qed.

End Validated.

Lemma validated_initial_selection_witness :
  let st := ConfiguratorEngine.getState (ConfiguratorEngine.constructor Sample.product) in
  color st ∈ color_ids Sample.product
  /\ strap st ∈ strap_ids Sample.product
  /\ environment st ∈ environment_ids Sample.product.
Proof.
  apply (validated_initial_selection_is_configured Sample.product);
    try reflexivity; discriminate.
Defined.

Lemma validated_colors_witness :
  exists e',
    settle (ConfiguratorEngine.changeColor (Some "blue") Sample.ready) = (e', inl tt)
    /\ ConfiguratorEngine.getState e'
       = {| color := Some "blue"; strap := Some "selected"; environment := Some "studio" |}.
Proof.
  destruct (validated_colors_can_all_be_selected
              Sample.ready (Sample.material "TkaninaMat") (Sample.material "PodlogaMat")
              (Sample.material "KaiseviMat") (Some "blue"))
    as (e' & Hrun & Hst & _).
  - vm_compute. reflexivity.
  - vm_compute. reflexivity.
  - reflexivity.
  - reflexivity.
  - reflexivity.
  - reflexivity.
  - apply list_elem_of_In. vm_compute. auto.
  - exists e'. split; [exact Hrun|exact Hst].
Defined.

(** ** Preloading a colour *)

Section Preloading.

Import ConfiguratorEngine.

(** [preloadTexture] answers at once from the cache, and otherwise after
    one suspension. *)
Lemma preloadTexture_shape (url : jsstr) (e : Engine) :
  preloadTexture url e
  = match textureCache e !! url with
    | Some cached => Return e (Some cached)
    | None =>
        let failed e' :=
          Return (with_console_error
                    (console_error e' ++ ["Failed to preload texture " +:+ to_String url]) e')
                 None in
        match modelViewer e with
        | None => Suspend e failed
        | Some viewer =>
            Suspend (with_requested (requested e ++ [url]) e)
              match mv_createTexture viewer (length (requested e)) url with
              | Some t =>
                  fun e' => Return (with_textureCache (<[url := t]> (textureCache e')) e')
                                   (Some t)
              | None => failed
              end
        end
    end.
Proof.
  unfold preloadTexture, bind, get. cbn [bindO].
  destruct (textureCache e !! url); [reflexivity|].
  unfold try_catch, await, createTexture.
  destruct (modelViewer e) as [v|]; [|reflexivity].
  destruct (mv_createTexture v _ url); reflexivity.
Qed.

(** X17. [preloadColorTextures] requests the textures of a colour all at
    once: the three [preloadTexture] calls of its [Promise.all] are started
    before any of them completes, so every texture of the colour that is not
    cached when the call starts is requested, in the order primary, accent,
    roughness, even when two of them have the same URL (the sequential
    [getTexture] calls of [applyColorTextures] would request a shared URL
    once).  The call always fulfils, whichever loads fail, and touches
    neither the selection nor the model, and emits nothing. *)
Theorem preloadColorTextures_requests_all_at_once
    (e : Engine) (viewer : ModelViewer) (colorId : jsstr) (c : ColorOption) (tx : Textures) :
  find_color colorId (config e) = Some c ->
  textures c = Some tx ->
  modelViewer e = Some viewer ->
  exists e',
    settle (preloadColorTextures colorId e) = (e', inl tt)
    /\ requested e'
       = requested e ++
         List.filter (fun url => negb (bool_decide (is_Some (textureCache e !! url))))
                     [tx_primary tx; tx_accent tx; tx_roughness tx]
    /\ getState e' = getState e
    /\ emitted e' = emitted e
    /\ applied e' = applied e.
Proof.
  intros Hc Htx Hv.
  unfold preloadColorTextures. rewrite settle_bind. cbn [get settle]. rewrite Hc, Htx.
  rewrite settle_try_catch, settle_bind, settle_await.
  unfold Promise_all3. rewrite settle_bindO.
  cbn [List.filter].
  destruct (textureCache e !! tx_primary tx) eqn:H1;
    destruct (textureCache e !! tx_accent tx) eqn:H2;
    destruct (textureCache e !! tx_roughness tx) eqn:H3;
    rewrite ?bool_decide_eq_true_2 by (by eexists);
    rewrite ?bool_decide_eq_false_2 by (by intros [? ?]);
    cbn [negb];
    repeat (rewrite preloadTexture_shape;
            cbn [textureCache modelViewer with_requested requested];
            rewrite ?H1, ?H2, ?H3, ?Hv; cbv zeta;
            try match goal with
              | |- context [mv_createTexture ?v ?n ?u] => destruct (mv_createTexture v n u)
              end;
            cbn [joinO bindO ret]);
    cbn [settle joinO bindO ret fst snd];
    (eexists; split; [reflexivity|]); unfold getState;
    cbn [requested currentState emitted applied with_textureCache with_console_error
         with_requested];
    rewrite <- ?app_assoc, ?app_nil_r; by repeat split.
Qed.

End Preloading.

Lemma preloadColorTextures_witness :
  exists e',
    settle (ConfiguratorEngine.preloadColorTextures (Some "blue") Sample.ready) = (e', inl tt)
    /\ requested e'
       = requested Sample.ready ++ [Some "blue_primary.jpg"; Some "blue_accent.jpg"].
Proof.
  destruct (preloadColorTextures_requests_all_at_once
              Sample.ready Sample.viewer (Some "blue") Sample.blue
              {| tx_primary := Some "blue_primary.jpg"; tx_accent := Some "blue_accent.jpg";
                 tx_roughness := Some "rough.jpg" |})
    as (e' & Hrun & Hreq & _).
  - vm_compute. reflexivity.
  - reflexivity.
  - vm_compute. reflexivity.
  - exists e'. split; [exact Hrun|]. rewrite Hreq. vm_compute. reflexivity.
Defined.

(** ** Witnesses of the properties of [reset] and of the share URL *)

Lemma reset_always_witness :
  exists fuel ef,
    run_jobs fuel (ConfiguratorEngine.reset (idle Sample.shop_orange)).1 = idle ef
    /\ color (ConfiguratorEngine.getState ef) = Some "red"
    /\ strap (ConfiguratorEngine.getState ef) = Some "selected".
Proof.
  destruct (reset_always_ends_with_the_dynamic_strap
              Sample.shop_orange Sample.red Sample.orange_strap)
    as (fuel & ef & Hrun & Hc & Hs & _).
  - vm_compute. reflexivity.
  - vm_compute. reflexivity.
  - vm_compute. reflexivity.
  - exists fuel, ef. split; [exact Hrun|]. split; [|exact Hs].
    rewrite Hc. vm_compute. reflexivity.
Defined.

Lemma share_url_always_witness :
  exists fuel ef,
    run_jobs fuel
      (XRUpgradeConfigurator.applyURLParameters
         (url_search (ConfiguratorEngine.getShareURL "https://example.com/" Sample.sharing))
         false (idle Sample.shop_orange)).1
    = idle ef
    /\ color (ConfiguratorEngine.getState ef) = Some "red"
    /\ strap (ConfiguratorEngine.getState ef) = Some "selected".
Proof.
  destruct (share_url_always_ends_with_the_dynamic_strap
              Sample.sharing Sample.shop_orange "https://example.com/" false
              Sample.red Sample.orange_strap)
    as (fuel & ef & Hrun & Hc & Hs & _).
  - vm_compute. reflexivity.
  - vm_compute. reflexivity.
  - vm_compute. reflexivity.
  - exists fuel, ef. split; [exact Hrun|]. split; [|exact Hs].
    rewrite Hc. vm_compute. reflexivity.
Defined.

(** ** Capability probes, in general *)

Section ProbesInGeneral.

Variable parseFloat : string -> Q.

(** X20. [getDeviceType] sorts every browser into exactly one of three
    classes.  It answers ['mobile'] exactly when [isMobile] holds, and that
    is the case for every touch device and every window of at most 768
    pixels; ['tablet'] exactly when [isMobile] fails and the window is 769
    to 1024 pixels wide; ['desktop'] exactly when [isMobile] fails and the
    window is wider than 1024 pixels, which is when [isDesktop] holds. *)
Theorem getDeviceType_classifies (b : Browser) :
  let w := innerWidth (window b) in
  (DeviceDetection.getDeviceType b = "mobile" <-> DeviceDetection.isMobile b = true)
  /\ (DeviceDetection.getDeviceType b = "tablet"
      <-> DeviceDetection.isMobile b = false /\ (768 < w <= 1024)%Z)
  /\ (DeviceDetection.getDeviceType b = "desktop"
      <-> DeviceDetection.isMobile b = false /\ (1024 < w)%Z)
  /\ (DeviceDetection.getDeviceType b = "desktop" <-> DeviceDetection.isDesktop b = true)
  /\ (ontouchstart (window b) = true \/ (w <= 768)%Z ->
      DeviceDetection.getDeviceType b = "mobile").
Proof.
  intros w. unfold DeviceDetection.getDeviceType, DeviceDetection.isDesktop,
              DeviceDetection.isTablet.
  assert (DeviceDetection.isMobile b = false -> (768 < w)%Z) as Hwide.
  { unfold DeviceDetection.isMobile. cbv zeta. intros H.
    apply orb_false_elim in H as [H _]. apply orb_false_elim in H as [H _].
    apply Z.leb_gt in H. exact H. }
  assert (ontouchstart (window b) = true \/ (w <= 768)%Z -> DeviceDetection.isMobile b = true)
    as Hmob.
  { unfold DeviceDetection.isMobile. cbv zeta. intros [->|H].
    - apply orb_true_r.
    - apply Z.leb_le in H. fold w. by rewrite H. }
  fold w. destruct (DeviceDetection.isMobile b) eqn:Hm; cbn [negb andb].
  - intuition (try discriminate; try lia; try congruence).
  - specialize (Hwide eq_refl).
    destruct (768 <? w)%Z eqn:H1; [|apply Z.ltb_ge in H1; lia].
    destruct (w <=? 1024)%Z eqn:H2; cbn [negb andb].
    + apply Z.leb_le in H2. intuition (try discriminate; try lia; try congruence).
    + apply Z.leb_gt in H2. intuition (try discriminate; try lia; try congruence).
Qed.

(** X21. What a positive answer of [checkARSupport] means: the page is
    served over HTTPS or from localhost; the device is an iOS device of
    version 12 or later, and the mode is ['quick-look'], or else it is an
    Android device, and the mode is ['scene-viewer']; an Android version is
    not below 7; one of the WebXR, ARCore and ARKit flags is set; and no
    reason is given.  In particular the mode of a supported device is never
    ['webxr'] and never null. *)
Theorem checkARSupport_supported_means (b : Browser) :
  let r := DeviceDetection.checkARSupport parseFloat b in
  supported r = true ->
  DeviceDetection.isHTTPS b = true
  /\ (if DeviceDetection.isiOS b
      then (12 <=? DeviceDetection.getIOSVersion b)%Z = true
           /\ mode r = Some "quick-look"
      else DeviceDetection.isAndroid b = true /\ mode r = Some "scene-viewer")
  /\ (DeviceDetection.isAndroid b = true ->
      DeviceDetection.Qlt_bool (DeviceDetection.getAndroidVersion parseFloat b) 7 = false)
  /\ (DeviceDetection.hasWebXR b || DeviceDetection.hasARCore parseFloat b
      || DeviceDetection.hasARKit b = true)
  /\ reason r = None.
Proof.
  unfold DeviceDetection.checkARSupport, DeviceDetection.getCapabilities,
    DeviceDetection.getARMode.
  cbn [cap_isHTTPS cap_isiOS cap_isAndroid cap_iosVersion cap_androidVersion
       cap_hasWebXR cap_hasARCore cap_hasARKit].
  destruct (DeviceDetection.isHTTPS b); cbn [negb]; [|discriminate].
  destruct (DeviceDetection.isiOS b), (DeviceDetection.isAndroid b) eqn:Ha;
    cbn [negb andb]; try discriminate.
  all: try (destruct (DeviceDetection.getIOSVersion b <? 12)%Z eqn:Hv;
            [discriminate|]; apply Z.ltb_ge in Hv).
  all: try (destruct (DeviceDetection.Qlt_bool _ 7) eqn:Hq; [discriminate|]).
  all: destruct (_ || _ || _) eqn:Hflags; cbn [supported mode reason]; [|discriminate].
  all: intros _; repeat split; try done; by apply Z.leb_le.
Qed.

(** X22. A user agent that mentions Chrome is never taken for Android:
    [isAndroid] excludes it, so [hasARCore] is false, and unless the device
    counts as iOS [checkARSupport] does not report AR as supported, while
    [supportsAR] answers true exactly on a secure page with WebXR.
    Conversely [hasARCore] holds only for user agents that mention Samsung
    and do not mention Chrome. *)
Theorem chrome_is_never_detected_as_android (b : Browser) :
  let ua := toLowerCase (userAgent (navigator b)) in
  (includes ua "chrome" = true ->
   DeviceDetection.isAndroid b = false
   /\ DeviceDetection.hasARCore parseFloat b = false
   /\ (DeviceDetection.isiOS b = false ->
       supported (DeviceDetection.checkARSupport parseFloat b) = false
       /\ DeviceDetection.supportsAR parseFloat b
          = DeviceDetection.isHTTPS b && DeviceDetection.hasWebXR b))
  /\ (DeviceDetection.hasARCore parseFloat b = true ->
      includes ua "samsung" = true /\ includes ua "chrome" = false).
Proof.
  intros ua. split.
  - intros Hc.
    assert (DeviceDetection.isAndroid b = false) as Ha.
    { unfold DeviceDetection.isAndroid. cbv zeta. fold ua. rewrite Hc. apply andb_false_r. }
    assert (DeviceDetection.hasARCore parseFloat b = false) as Hcore.
    { unfold DeviceDetection.hasARCore. by rewrite Ha. }
    split; [exact Ha|]. split; [exact Hcore|]. intros Hi. split.
    + unfold DeviceDetection.checkARSupport, DeviceDetection.getCapabilities.
      cbn [cap_isHTTPS cap_isiOS cap_isAndroid]. rewrite Ha, Hi.
      by destruct (DeviceDetection.isHTTPS b).
    + unfold DeviceDetection.supportsAR, DeviceDetection.isHTTPS. rewrite Ha, Hi.
      destruct (String.eqb (protocol (location b)) "https:"),
        (String.eqb (hostname (location b)) "localhost"),
        (DeviceDetection.hasWebXR b); reflexivity.
  - unfold DeviceDetection.hasARCore, DeviceDetection.isAndroid. cbv zeta. fold ua.
    destruct (includes ua "android"); cbn [andb negb]; [|discriminate].
    destruct (includes ua "chrome"); cbn [negb orb]; [discriminate|].
    destruct (DeviceDetection.Qlt_bool _ _); [discriminate|]. by intros ->.
Qed.

(** X23. The two AR probes compared: with WebXR, [supportsAR] answers true
    on every secure page, whatever the device; without WebXR, and for a
    device that is not taken for both iOS and Android, [supportsAR] answers
    exactly what [checkARSupport] reports as [supported]. *)
Theorem supportsAR_agrees_with_checkARSupport (b : Browser) :
  (DeviceDetection.hasWebXR b = true ->
   DeviceDetection.supportsAR parseFloat b = DeviceDetection.isHTTPS b)
  /\ (DeviceDetection.hasWebXR b = false ->
      DeviceDetection.isiOS b && DeviceDetection.isAndroid b = false ->
      DeviceDetection.supportsAR parseFloat b
      = supported (DeviceDetection.checkARSupport parseFloat b)).
Proof.
  unfold DeviceDetection.supportsAR, DeviceDetection.checkARSupport,
    DeviceDetection.getCapabilities, DeviceDetection.isHTTPS.
  cbn [cap_isHTTPS cap_isiOS cap_isAndroid cap_iosVersion cap_androidVersion
       cap_hasWebXR cap_hasARCore cap_hasARKit].
  split.
  - intros ->. by destruct (String.eqb _ "https:"), (String.eqb _ "localhost").
  - intros -> Hboth.
    unfold DeviceDetection.hasARKit, DeviceDetection.hasARCore.
    destruct (String.eqb _ "https:"), (String.eqb _ "localhost"); cbn [negb andb orb];
      try reflexivity.
    all: destruct (DeviceDetection.isiOS b), (DeviceDetection.isAndroid b);
      cbn [negb andb orb] in *; try discriminate; try reflexivity.
    all: try (destruct (DeviceDetection.getIOSVersion b <? 12)%Z; try reflexivity).
    all: try (destruct (DeviceDetection.Qlt_bool _ 7); try reflexivity).
    all: rewrite ?orb_false_r;
      try match goal with
          | |- context [supported (if ?y then _ else _)] => destruct y
          end; reflexivity.
Qed.

End ProbesInGeneral.

Lemma checkARSupport_supported_witness :
  let r := DeviceDetection.checkARSupport decimal iphone_browser in
  supported r = true /\ mode r = Some "quick-look" /\ reason r = None.
Proof.
  intros r.
  destruct (checkARSupport_supported_means decimal iphone_browser)
    as (_ & Hmode & _ & _ & Hreason).
  - reflexivity.
  - split; [reflexivity|]. split; [exact (proj2 Hmode)|exact Hreason].
Defined.

Lemma chrome_is_never_detected_witness :
  DeviceDetection.isAndroid android_chrome_browser = false
  /\ supported (DeviceDetection.checkARSupport decimal android_chrome_browser) = false
  /\ DeviceDetection.hasARCore decimal samsung_browser = true.
Proof.
  destruct (chrome_is_never_detected_as_android decimal android_chrome_browser)
    as (Hchrome & _).
  destruct Hchrome as (Ha & _ & Hrest); [reflexivity|].
  destruct Hrest as (Hs & _); [reflexivity|].
  split; [exact Ha|]. split; [exact Hs|]. reflexivity.
Defined.

Lemma supportsAR_agrees_witness :
  DeviceDetection.supportsAR decimal desktop_webxr_browser = true
  /\ supported (DeviceDetection.checkARSupport decimal desktop_webxr_browser) = false
  /\ DeviceDetection.supportsAR decimal iphone_browser
     = supported (DeviceDetection.checkARSupport decimal iphone_browser).
Proof.
  destruct (supportsAR_agrees_with_checkARSupport decimal desktop_webxr_browser)
    as (Hxr & _).
  destruct (supportsAR_agrees_with_checkARSupport decimal iphone_browser)
    as (_ & Hsame).
  split; [rewrite Hxr; reflexivity|]. split; [reflexivity|].
  apply Hsame; reflexivity.
Defined.

(** ** URL parameters with unknown identifiers *)

Section UnknownParameters.

Import ConfiguratorEngine.




Variable e : Engine.






Lemma subscribe_unobservable (event : string) (callback : Callback) (e0 : Engine) :
  exists m, subscribe event callback e0 = Return (with_eventListeners m e0) tt.
Proof.
  unfold subscribe, bind, get, modify. cbn [bindO].
  case_bool_decide; cbn [ret bindO]; by eexists.
Qed.


End UnknownParameters.


(** ** The health report *)

Section Health.

Variable p : HealthProbe.

Lemma no_inaccessible {A} (f : A -> bool) (l : list A) :
  length (List.filter negb (map f l)) = 0 <-> Forall (fun c => f c = true) l.
Proof.
  induction l as [|c l IH]; cbn.
  - split; [constructor|reflexivity].
  - destruct (f c) eqn:Hc; cbn.
    + rewrite IH. split; [by constructor|by inversion 1].
    + split; [discriminate|]. inversion 1. congruence.
Qed.

Lemma checkConfigAccess_passes :
  HealthCheck.checkConfigAccess p = CheckPass
  <-> colors (hp_config p) <> [] /\ straps (hp_config p) <> []
      /\ environments (hp_config p) <> []
      /\ Forall (fun c => HealthCheck.texture_accessible p c = true)
                (take 2 (colors (hp_config p))).
Proof.
  unfold HealthCheck.checkConfigAccess. cbv zeta.
  rewrite <- no_inaccessible.
  destruct (colors (hp_config p)) as [|c cs], (straps (hp_config p)) as [|s ss],
    (environments (hp_config p)) as [|v vs]; cbn [length app bool_decide andb];
    try (split; [discriminate|by intros (? & ? & ? & ?)]).
  rewrite bool_decide_eq_true_2 by reflexivity. cbn [andb].
  case_bool_decide as H; split; try done.
  by intros (_ & _ & _ & ?).
Qed.

Lemma checkConfigAccess_never_fails : HealthCheck.checkConfigAccess p <> CheckFail.
Proof.
  unfold HealthCheck.checkConfigAccess. cbv zeta. by destruct (_ && _).
Qed.

Lemma checkDeviceCapabilities_result :
  HealthCheck.checkDeviceCapabilities p
  = if HealthCheck.info_isMobile (hp_deviceInfo p) then CheckWarn else CheckPass.
Proof.
  unfold HealthCheck.checkDeviceCapabilities. cbv zeta.
  by destruct (HealthCheck.info_isMobile (hp_deviceInfo p)).
Qed.

(** X25. When the health report is [healthy]: exactly when the model file
    answers the HEAD request with an ok status, the configuration lists at
    least one colour, strap and environment, the primary textures of its
    first two colours are reachable, a WebGL context is available, the timed
    wait took less than 100 ms, and the device information does not say
    mobile.  On a device whose information says mobile the report is never
    [healthy]: the device check reads [supportsWebShare] and [supportsAR],
    which the device information does not have, and so always warns. *)
Theorem runChecks_is_healthy_exactly_when :
  ((HealthCheck.runChecks p).2 = Healthy
   <-> hp_fetch_head p (Some (hp_model_path p)) = Some true
       /\ colors (hp_config p) <> [] /\ straps (hp_config p) <> []
       /\ environments (hp_config p) <> []
       /\ Forall (fun c => HealthCheck.texture_accessible p c = true)
                 (take 2 (colors (hp_config p)))
       /\ hp_webgl p = true
       /\ DeviceDetection.Qlt_bool (hp_duration p) 100 = true
       /\ HealthCheck.info_isMobile (hp_deviceInfo p) = false)
  /\ (HealthCheck.info_isMobile (hp_deviceInfo p) = true ->
      (HealthCheck.runChecks p).2 <> Healthy
      /\ deviceCapabilities (HealthCheck.runChecks p).1 = CheckWarn).
Proof.
  pose proof checkConfigAccess_passes as Hcfg.
  pose proof checkDeviceCapabilities_result as Hdev.
  unfold HealthCheck.runChecks. cbv zeta.
  cbn [modelAccess configAccess webglSupport performance deviceCapabilities].
  rewrite Hdev.
  unfold HealthCheck.checkModelAccess, HealthCheck.checkWebGLSupport,
    HealthCheck.checkPerformance. cbv zeta.
  destruct (HealthCheck.checkConfigAccess p) eqn:Hc;
    destruct (hp_fetch_head p (Some (hp_model_path p))) as [[]|];
    destruct (hp_webgl p);
    destruct (DeviceDetection.Qlt_bool (hp_duration p) 100);
    destruct (DeviceDetection.Qlt_bool (hp_duration p) 500);
    destruct (HealthCheck.info_isMobile (hp_deviceInfo p));
    cbn; (split; [split|]); try done; try (intros (? & ? & ? & ? & ? & ? & ? & ?); done).
  all: try (intros _; repeat split; try done; by apply Hcfg).
  all: intros (_ & H1 & H2 & H3 & H4 & _);
    assert (CheckWarn = CheckPass \/ CheckFail = CheckPass) as [?|?]; try done;
    first [left; by apply Hcfg | right; by apply Hcfg].
Qed.

(** X26. When the health report is [unhealthy]: exactly when the model
    file does not answer the HEAD request with an ok status, or no WebGL
    context is available, or the timed wait took 500 ms or more.  Problems
    of the configuration or of the device never make the report worse than
    [degraded]. *)
Theorem runChecks_is_unhealthy_exactly_when :
  (HealthCheck.runChecks p).2 = Unhealthy
  <-> hp_fetch_head p (Some (hp_model_path p)) <> Some true
      \/ hp_webgl p = false
      \/ DeviceDetection.Qlt_bool (hp_duration p) 500 = false.
Proof.
  pose proof checkConfigAccess_never_fails as Hcfg.
  pose proof checkDeviceCapabilities_result as Hdev.
  assert (forall x y, DeviceDetection.Qlt_bool x 100 = true ->
                      DeviceDetection.Qlt_bool x 500 = y -> y = true) as Hlt.
  { unfold DeviceDetection.Qlt_bool. intros x y Hx <-.
    apply negb_true_iff in Hx. apply negb_true_iff.
    destruct (Qle_bool 500 x) eqn:H; [|reflexivity].
    apply Qle_bool_iff in H.
    assert (Qle_bool 100 x = true) as H'; [|congruence].
    apply Qle_bool_iff. eapply Qle_trans; [|exact H]. discriminate. }
  unfold HealthCheck.runChecks. cbv zeta.
  cbn [modelAccess configAccess webglSupport performance deviceCapabilities].
  rewrite Hdev.
  unfold HealthCheck.checkModelAccess, HealthCheck.checkWebGLSupport,
    HealthCheck.checkPerformance. cbv zeta.
  destruct (HealthCheck.checkConfigAccess p) eqn:Hc; [| |done];
    destruct (hp_fetch_head p (Some (hp_model_path p))) as [[]|];
    destruct (hp_webgl p);
    destruct (DeviceDetection.Qlt_bool (hp_duration p) 100) eqn:H100;
    destruct (DeviceDetection.Qlt_bool (hp_duration p) 500) eqn:H500;
    destruct (HealthCheck.info_isMobile (hp_deviceInfo p));
    cbn; split; try done; try (intros [?|[?|?]]; done); try (intros _; auto; fail).
  all: try (intros _; left; discriminate).
  all: try (pose proof (Hlt _ _ H100 H500); discriminate).
Qed.

End Health.

(** ** Callbacks that change the subscriptions while they are dispatched *)

Section ReactingListeners.

Import ConfiguratorEngine.

Lemma unsubscribe_run (event : string) (callback : Callback) (e : Engine) :
  exists m,
    unsubscribe event callback e = Return (with_eventListeners m e) tt
    /\ forall other, other <> event -> m !! other = eventListeners e !! other.
Proof.
  unfold unsubscribe, bind, get. cbn [bindO].
  destruct (eventListeners e !! event) as [cbs|].
  - destruct (indexOf callback cbs) as [i|].
    + unfold modify. eexists. split; [reflexivity|].
      intros other Hne. by rewrite lookup_insert_ne by congruence.
    + exists (eventListeners e). split; [by destruct e|done].
  - exists (eventListeners e). split; [by destruct e|done].
Qed.

(** [subscribe] and [unsubscribe] return normally; they change nothing but
    the listeners of their own event. *)
Lemma perform_run (a : Act) (e : Engine) :
  exists m,
    perform a e = Return (with_eventListeners m e) tt
    /\ forall other, other <> act_event a -> m !! other = eventListeners e !! other.
Proof.
  destruct a as [event callback|event callback]; cbn [perform act_event].
  - destruct (subscribe_unobservable event callback e) as (m & Hm).
    destruct (subscribe_run event callback e) as (e1 & H1 & _ & Hother & _).
    exists m. split; [exact Hm|]. intros other Hne.
    rewrite Hm in H1. injection H1 as <-. by apply Hother.
  - apply unsubscribe_run.
Qed.

Lemma forEach_perform_run (acts : list Act) (e : Engine) :
  exists m,
    forEach perform acts e = Return (with_eventListeners m e) tt
    /\ forall other, Forall (fun a => act_event a <> other) acts ->
                     m !! other = eventListeners e !! other.
Proof.
  revert e. induction acts as [|a acts IH]; intros e.
  - exists (eventListeners e). split; [by destruct e|done].
  - destruct (perform_run a e) as (m1 & H1 & O1).
    destruct (IH (with_eventListeners m1 e)) as (m2 & H2 & O2).
    exists m2. cbn [forEach]. unfold bind. rewrite H1. cbn [bindO]. rewrite H2.
    split; [reflexivity|]. intros other Hall. apply Forall_cons in Hall as [Ha Hall].
    rewrite (O2 other Hall). cbn [eventListeners with_eventListeners].
    apply O1. congruence.
Qed.

(** One step of the walk always returns. *)
Lemma call_reacting_guarded
    (reaction : Reaction) (event : string) (callback : Callback) (data : Payload)
    (e : Engine) :
  exists m,
    try_catch (call_reacting reaction callback data)
      (fun error => Logger_error ("Error in event listener for " +:+ event)) e
    = Return
        (with_console_error
           (console_error e ++
            if bool_decide (is_Some (cb_run callback data))
            then ["Error in event listener for " +:+ event] else [])
           (with_eventListeners m
              (with_invoked (invoked e ++ [(cb_id callback, data)]) e))) tt
    /\ forall other,
         Forall (fun a => act_event a <> other) (reaction (cb_id callback) data) ->
         m !! other = eventListeners e !! other.
Proof.
  unfold try_catch, call_reacting, bind, modify. cbn [bindO].
  destruct (forEach_perform_run (reaction (cb_id callback) data)
              (with_invoked (invoked e ++ [(cb_id callback, data)]) e))
    as (m & -> & Hother).
  exists m. split; [|exact Hother]. cbn [bindO].
  destruct (cb_run callback data) as [error|].
  - rewrite bool_decide_eq_true_2 by (by eexists). reflexivity.
  - rewrite bool_decide_eq_false_2 by (by intros [? ?]).
    cbn [ret catchO console_error with_eventListeners with_invoked].
    rewrite app_nil_r. reflexivity.
Qed.



(** For callbacks that do not react, the walk over the live array is the
    [notifyListeners] of the other sections. *)
Lemma forEach_live_of_observers
    (event : string) (data : Payload) (cbs : list Callback) (n k : nat) (e : Engine) :
  eventListeners e !! event = Some cbs ->
  k + n = length cbs ->
  forEach_live (fun _ _ => []) event data k n e
  = forEach (fun callback =>
               try_catch (call callback data)
                 (fun error => Logger_error ("Error in event listener for " +:+ event)))
            (drop k cbs) e.
Proof.
  revert k e. induction n as [|n IH]; intros k e He Hlen.
  - rewrite drop_ge by lia. reflexivity.
  - destruct (lookup_lt_is_Some_2 cbs k) as [cb Hcb]; [lia|].
    rewrite (drop_S _ _ _ Hcb). cbn [forEach_live forEach].
    unfold bind at 1. unfold bind at 1, get. cbn [bindO]. rewrite He, Hcb.
    destruct (call_reacting_guarded (fun _ _ => []) event cb data e) as (m & Hrun & Hm).
    assert (try_catch (call_reacting (fun _ _ => []) cb data)
              (fun error => Logger_error ("Error in event listener for " +:+ event)) e
            = try_catch (call cb data)
                (fun error => Logger_error ("Error in event listener for " +:+ event)) e)
      as Hsame by reflexivity.
    unfold bind. rewrite <- Hsame, Hrun. cbn [bindO]. apply IH; [|lia].
    cbn [eventListeners with_console_error with_eventListeners].
    rewrite Hm by constructor. exact He.
Qed.

Lemma notifyListeners_live_of_observers (event : string) (data : Payload) (e : Engine) :
  notifyListeners_live (fun _ _ => []) event data e = notifyListeners event data e.
Proof.
  unfold notifyListeners_live, notifyListeners, bind, modify, get. cbn [bindO].
  cbn [eventListeners with_emitted].
  destruct (eventListeners e !! event) as [cbs|] eqn:He; [|reflexivity].
  by rewrite (forEach_live_of_observers event data cbs (length cbs) 0).
Qed.


End ReactingListeners.


